(** * Dashboard Custos Scania: the loader, the filter engine and the aggregates

    A shallow embedding of [src/dashbord.py]: [load_data], the date bounds of
    [create_filters], [apply_filters], and the group-by frames built in
    [create_charts] and [create_tarefa_consolidada_chart].  Streamlit widgets
    and plotly figures are presentation and are not modelled; what the loader
    reports through [st.error] / [st.info] is kept as a list of messages.

    Modelling choices, fixed here once:
    - a pandas frame is its list of column labels and its rows in order, each
      row carrying its index label and a finite map from column label to
      cell.  A sheet comes from [pd.read_excel] with distinct labels; only the
      renaming of the loader can make two columns share a label, and where
      the loader then reads such a label it raises, as the code does;
    - a cell is a dynamically typed scalar.  A number is held on an integer
      grid: [Num z] counts a unit that is fixed per column, 1 for years,
      months and counts, and for amounts a unit small enough for the float64
      values that occur (every finite float64 is a whole multiple of
      2^-1074).  Order and equality of numbers are therefore those of [Z];
      the float64 arithmetic of pandas and Python on amounts (sums, the
      [.2f] format) rounds, depends on the library's algorithm, and is taken
      as a parameter ([Float64]).  Infinities and the negative zero are not
      amounts of the model;
    - the parsers of [pd.to_datetime] and [pd.to_numeric] are library code
      and are taken as parameters of the loader. *)

From Stdlib Require Import ZArith Bool Ascii String Sorted Permutation DecimalString.
From stdpp Require Import base decidable option strings pretty list gmap sorting.

Local Open Scope string_scope.
Local Open Scope Z_scope.
Local Open Scope list_scope.

(** ** Scalars *)

(** A calendar date, as [datetime.date]; compared field by field. *)
Record date := Date { year : Z; month : Z; day : Z }.

(** What a pandas cell can hold.  [NaN] is the missing value of numeric and
    object columns, [NaT] the missing timestamp.  A timestamp is a date and
    the nanoseconds elapsed since midnight. *)
Inductive cell :=
  | NaN
  | NaT
  | Str (s : string)
  | Num (z : Z)
  | Timestamp (d : date) (tod : Z).

#[global] Instance date_eq_dec : EqDecision date.
Proof. solve_decision. Defined.
#[global] Instance cell_eq_dec : EqDecision cell.
Proof. solve_decision. Defined.
#[global] Instance cell_inhabited : Inhabited cell := populate NaN.

(** [pd.isna] on a scalar. *)
Definition isna (c : cell) : bool :=
  match c with NaN | NaT => true | _ => false end.

(** [datetime.date.__le__]: lexicographic on (year, month, day). *)
Definition date_leb (a b : date) : bool :=
  if year a <? year b then true
  else if year b <? year a then false
  else if month a <? month b then true
  else if month b <? month a then false
  else day a <=? day b.

(** Elementwise [==] of a column against a scalar: a missing value equals
    nothing, not even itself. *)
Definition py_eq (a b : cell) : bool :=
  negb (isna a) && negb (isna b) && bool_decide (a = b).

(** Python's [!=] on scalars. *)
Definition py_ne (a b : cell) : bool := negb (py_eq a b).

(** [Series.isin(values)] on one cell.  pandas matches by hashing, so a
    missing cell is found when the list holds a missing value. *)
Definition isin (values : list cell) (c : cell) : bool :=
  bool_decide (c ∈ values).

(** Truth value of a Python list: non-empty. *)
Definition truthy {A} (l : list A) : bool :=
  match l with [] => false | _ :: _ => true end.

(** [Series.dt.date >= d] and [Series.dt.date <= d] on one cell of a
    datetime64 column.  The comparison is False on [NaT]; the column is
    datetime64 after [load_data], so no other cell occurs there. *)
Definition dt_date_ge (c : cell) (d : date) : bool :=
  match c with Timestamp x _ => date_leb d x | _ => false end.
Definition dt_date_le (c : cell) (d : date) : bool :=
  match c with Timestamp x _ => date_leb x d | _ => false end.

(** ** Frames *)

Record DataFrame := Frame {
  columns : list string;
  rows : list (nat * gmap string cell)
}.

(** [pd.DataFrame()] *)
Definition empty_frame : DataFrame := Frame [] [].

(** [col in df.columns] *)
Definition col_in (c : string) (df : DataFrame) : bool :=
  bool_decide (c ∈ columns df).

(** [df.empty]: some axis has length zero. *)
Definition empty (df : DataFrame) : bool :=
  negb (truthy (columns df)) || negb (truthy (rows df)).

(** [df[mask]] where the boolean mask is computed row by row. *)
Definition loc (mask : gmap string cell → bool) (df : DataFrame) : DataFrame :=
  Frame (columns df) (filter (λ ir, mask ir.2) (rows df)).

(** ** The filter engine ([apply_filters], lines 263-299) *)

Definition apply_filters (df : DataFrame) (data_inicio data_fim : date)
    (ano_selecionado : cell)
    (categorias_selecionadas categorias tipos_doc nomes_tarefa
       tarefas_consolidadas : list cell) : DataFrame :=
  let df_filtrado := df in
  let df_filtrado :=
    if col_in "DATA_VENCIMENTO" df_filtrado && negb (empty df_filtrado)
    then loc (λ r, dt_date_ge (r !!! "DATA_VENCIMENTO") data_inicio
                   && dt_date_le (r !!! "DATA_VENCIMENTO") data_fim) df_filtrado
    else df_filtrado in
  let df_filtrado :=
    if py_ne ano_selecionado (Str "Todos") && col_in "ANO" df_filtrado
    then loc (λ r, py_eq (r !!! "ANO") ano_selecionado) df_filtrado
    else df_filtrado in
  let df_filtrado :=
    if truthy categorias_selecionadas && col_in "CATEGORIA_SCANIA" df_filtrado
    then loc (λ r, isin categorias_selecionadas (r !!! "CATEGORIA_SCANIA")) df_filtrado
    else df_filtrado in
  let df_filtrado :=
    if truthy categorias && col_in "CATEGORIA" df_filtrado
    then loc (λ r, isin categorias (r !!! "CATEGORIA")) df_filtrado
    else df_filtrado in
  let df_filtrado :=
    if truthy tipos_doc && col_in "TIPO_DOC" df_filtrado
    then loc (λ r, isin tipos_doc (r !!! "TIPO_DOC")) df_filtrado
    else df_filtrado in
  let df_filtrado :=
    if truthy nomes_tarefa && col_in "NOME_TAREFA" df_filtrado
    then loc (λ r, isin nomes_tarefa (r !!! "NOME_TAREFA")) df_filtrado
    else df_filtrado in
  let df_filtrado :=
    if truthy tarefas_consolidadas && col_in "TAREFA_CONSOLIDADA" df_filtrado
    then loc (λ r, isin tarefas_consolidadas (r !!! "TAREFA_CONSOLIDADA")) df_filtrado
    else df_filtrado in
  df_filtrado.


(** ** What [create_filters] offers by default (lines 153-261) *)

(** [df[col].unique()]: the distinct cells of a column, in order of first
    appearance; the default selection of every multi-select. *)
Definition unique (col : string) (df : DataFrame) : list cell :=
  reverse (remove_dups (reverse ((λ ir, ir.2 !!! col) <$> rows df))).

(** The dates of the timestamps of the due-date column. *)
Definition vencimentos (df : DataFrame) : list date :=
  omap (λ ir, match ir.2 !!! "DATA_VENCIMENTO" with
              | Timestamp d _ => Some d
              | _ => None
              end) (rows df).

(** [df['DATA_VENCIMENTO'].min().date()] and [.max().date()]; [min] and
    [max] skip [NaT], and there is no date when the column holds nothing
    else.  Without the column, or on an empty frame, the bounds are
    1 January 2024 and today. *)
Definition min_date (df : DataFrame) : option date :=
  if col_in "DATA_VENCIMENTO" df && negb (empty df) then
    match vencimentos df with
    | [] => None
    | d :: ds => Some (foldl (λ m x, if date_leb x m then x else m) d ds)
    end
  else Some (Date 2024 1 1).

Definition max_date (today : date) (df : DataFrame) : option date :=
  if col_in "DATA_VENCIMENTO" df && negb (empty df) then
    match vencimentos df with
    | [] => None
    | d :: ds => Some (foldl (λ m x, if date_leb m x then x else m) d ds)
    end
  else Some today.

(** ** Exceptions, and what the loader shows to the user *)

Inductive exn :=
  | ReadError (msg : string)
  | KeyError (labels : list string)
  | ValueError (msg : string).

Inductive result (A : Type) :=
  | Ok (a : A)
  | Raise (e : exn).
Arguments Ok {A} a.
Arguments Raise {A} e.

#[global] Instance result_ret : MRet result := λ A, Ok.
#[global] Instance result_bind : MBind result := λ A B f m,
  match m with Ok a => f a | Raise e => Raise e end.

(** [repr] of a list of labels, as [str(KeyError([...]))] prints it. *)
Fixpoint repr_labels (l : list string) : string :=
  match l with
  | [] => ""
  | [x] => "'" +:+ x +:+ "'"
  | x :: l' => "'" +:+ x +:+ "', " +:+ repr_labels l'
  end.

(** [str(e)] *)
Definition str_exn (e : exn) : string :=
  match e with
  | ReadError msg => msg
  | KeyError labels => "[" +:+ repr_labels labels +:+ "]"
  | ValueError msg => msg
  end.

Inductive message :=
  | st_error (text : string)
  | st_info (text : string).

(** The remediation hints of lines 126-131. *)
Definition verifique : string :=
"
        **Verifique:**
        1. O arquivo 'consolidado.xlsx' está na mesma pasta do script
        2. Existe uma página chamada 'OFICIAL TABLE | DATE'
        3. As colunas estão com os nomes corretos
        ".

(** ** Frame operations used by the loader *)

(** The cells some rows hold under [col], and the cells of a column, in
    row order. *)
Definition cells (col : string) (rs : list (nat * gmap string cell))
    : list cell :=
  (λ ir, ir.2 !!! col) <$> rs.

Definition column (col : string) (df : DataFrame) : list cell :=
  cells col (rows df).

(** The label [col] stands over more than one column: [df[col]] is then a
    frame, not a column. *)
Definition duplicated (col : string) (df : DataFrame) : bool :=
  bool_decide (1 < length (filter (λ c, c = col) (columns df)))%nat.

(** [df.rename(columns={old_col: new_col})], applied when [old_col] is a
    label of [df].  When [new_col] is a label already, pandas keeps both
    columns under the one label, and [columns] shows it twice; a row holds
    one cell per label, here the cell of the renamed column, and the cells
    of the other column are not kept.  The loader reads no such label but
    the date labels, where it raises ([load_data_try]). *)
Definition rename (old_col new_col : string) (df : DataFrame) : DataFrame :=
  Frame ((λ c, if decide (c = old_col) then new_col else c) <$> columns df)
        (prod_map id (λ r, <[new_col := r !!! old_col]> (delete old_col r))
           <$> rows df).

(** [df[col] = f(df)], the new column computed row by row; a new label goes
    last. *)
Definition setitem (col : string) (f : gmap string cell → cell)
    (df : DataFrame) : DataFrame :=
  Frame (if col_in col df then columns df else columns df ++ [col])
        (prod_map id (λ r, <[col := f r]> r) <$> rows df).

(** [df.dropna(subset=subset, how='all')]: a label of [subset] that is not
    a column raises [KeyError]; a row goes when all its [subset] cells are
    missing. *)
Definition dropna (subset : list string) (df : DataFrame) : result DataFrame :=
  match filter (λ c, ¬ c ∈ columns df) subset with
  | [] => Ok (loc (λ r, negb (forallb (λ c, isna (r !!! c)) subset)) df)
  | missing => Raise (KeyError missing)
  end.

(** [Series.dt.year], [Series.dt.month] and [Series.dt.strftime] on one cell
    of a datetime64 column; [NaT] gives a missing value. *)
Definition dt_year (c : cell) : cell :=
  match c with Timestamp d _ => Num (year d) | _ => NaN end.
Definition dt_month (c : cell) : cell :=
  match c with Timestamp d _ => Num (month d) | _ => NaN end.

(** [%m]: the month as two digits. *)
Definition fmt_m (d : date) : string :=
  if month d <? 10 then "0" +:+ pretty (month d) else pretty (month d).
(** [%Y]: the year in decimal (four digits over the range of a pandas
    timestamp, 1677 to 2262). *)
Definition fmt_Y (d : date) : string := pretty (year d).
(** [%b]: the abbreviated month name in the C locale. *)
Definition fmt_b (d : date) : string :=
  nth (Z.to_nat (month d - 1))
    ["Jan"; "Feb"; "Mar"; "Apr"; "May"; "Jun";
     "Jul"; "Aug"; "Sep"; "Oct"; "Nov"; "Dec"] "".

(** [strftime('%Y-%m')] and [strftime('%b/%Y')] *)
Definition strftime_Y_m (c : cell) : cell :=
  match c with Timestamp d _ => Str (fmt_Y d +:+ "-" +:+ fmt_m d) | _ => NaN end.
Definition strftime_b_Y (c : cell) : cell :=
  match c with Timestamp d _ => Str (fmt_b d +:+ "/" +:+ fmt_Y d) | _ => NaN end.

(** ** The loader ([load_data], lines 66-132) *)

Definition column_mapping : list (string * string) :=
  [ ("CODIGO FORNECEDOR", "COD_FORNECEDOR");
    ("CATEGORIA SCANIA", "CATEGORIA_SCANIA");
    ("NOME FORNECEDOR", "NOME_FORNECEDOR");
    ("DATA EMISSIO", "DATA_EMISSAO");
    ("N. DOCUMENTO", "DOCUMENTO");
    ("TIPO DOC", "TIPO_DOC");
    ("N.PARCELAS", "PARCELAS");
    ("DATA VENCIMENTO", "DATA_VENCIMENTO");
    ("VALOR", "VALOR");
    ("N. TAREFA", "TAREFA");
    ("N.CONTA TAREFA", "CONTA_TAREFA");
    ("NOME TAREFA", "NOME_TAREFA");
    ("TAREFA CONSOLIDADA", "TAREFA_CONSOLIDADA") ].

Definition date_columns : list string := ["DATA_EMISSAO"; "DATA_VENCIMENTO"].

Section Loader.

(** The coercions of pandas, as parameters: the day-first text parser and
    the conversion of numbers of [pd.to_datetime], and the text parser of
    [pd.to_numeric].  Each answers [None] where pandas would raise without
    [errors='coerce'].  [pd.to_datetime] reads a text in the format it
    infers from the column, so its two parsers are given the cells of the
    whole column first. *)
Variable parse_datetime : list cell → string → option (date * Z).
Variable epoch_datetime : list cell → Z → option (date * Z).
Variable parse_numeric : string → option Z.

(** [pd.to_datetime(_, errors='coerce', dayfirst=True)] on one cell [c] of
    the column [cells]. *)
Definition to_datetime (cells : list cell) (c : cell) : cell :=
  match c with
  | Timestamp d t => Timestamp d t
  | Str s => from_option (λ dt, Timestamp dt.1 dt.2) NaT (parse_datetime cells s)
  | Num z => from_option (λ dt, Timestamp dt.1 dt.2) NaT (epoch_datetime cells z)
  | NaN | NaT => NaT
  end.

(** [pd.to_numeric(_, errors='coerce')] on one cell. *)
Definition to_numeric (c : cell) : cell :=
  match c with
  | Num z => Num z
  | Str s => from_option Num NaN (parse_numeric s)
  | NaN | NaT | Timestamp _ _ => NaN
  end.

(** [df[col] = pd.to_datetime(df[col], ...)]: given the two columns of a
    duplicated label, [pd.to_datetime] tries to assemble dates from them
    and raises [ValueError]. *)
Definition parse_date (col : string) (df : DataFrame) : result DataFrame :=
  if duplicated col df
  then Raise (ValueError "cannot assemble with duplicate keys")
  else Ok (setitem col (λ r, to_datetime (column col df) (r !!! col)) df).

(** The body of the [try] block; [read] is what [pd.read_excel] gave. *)
Definition load_data_try (read : result DataFrame) : result DataFrame :=
  df ← read;
  let df :=
    fold_left (λ df '(old_col, new_col),
                 if col_in old_col df then rename old_col new_col df else df)
              column_mapping df in
  df ← fold_left (λ acc col,
                    df ← acc;
                    if col_in col df then parse_date col df else Ok df)
                 date_columns (Ok df);
  let df :=
    if col_in "DATA_VENCIMENTO" df then
      let df := setitem "ANO" (λ r, dt_year (r !!! "DATA_VENCIMENTO")) df in
      let df := setitem "MES" (λ r, dt_month (r !!! "DATA_VENCIMENTO")) df in
      let df := setitem "MES_ANO" (λ r, strftime_Y_m (r !!! "DATA_VENCIMENTO")) df in
      let df := setitem "MES_NOME" (λ r, strftime_b_Y (r !!! "DATA_VENCIMENTO")) df in
      let df := setitem "ANO_MES" (λ r, strftime_Y_m (r !!! "DATA_VENCIMENTO")) df in
      df
    else df in
  let df :=
    if col_in "VALOR" df
    then setitem "VALOR" (λ r, to_numeric (r !!! "VALOR")) df
    else df in
  df ← dropna ["VALOR"] df;
  Ok df.

(** [load_data]: the frame returned and the messages shown. *)
Definition load_data (read : result DataFrame) : DataFrame * list message :=
  match load_data_try read with
  | Ok df => (df, [])
  | Raise e =>
      (empty_frame,
       [st_error ("Erro ao carregar dados: " +:+ str_exn e); st_info verifique])
  end.

(** The stages of the [try] block, named. *)
Definition rename_columns (df : DataFrame) : DataFrame :=
  fold_left (λ df '(old_col, new_col),
               if col_in old_col df then rename old_col new_col df else df)
            column_mapping df.

Definition parse_dates (df : DataFrame) : result DataFrame :=
  fold_left (λ acc col,
               df ← acc;
               if col_in col df then parse_date col df else Ok df)
            date_columns (Ok df).

(** The date columns coerced, when no date label is duplicated. *)
Definition parsed_dates (df : DataFrame) : DataFrame :=
  fold_left (λ df col,
               if col_in col df
               then setitem col (λ r, to_datetime (column col df) (r !!! col)) df
               else df)
            date_columns df.

Definition derive_fields (df : DataFrame) : DataFrame :=
  if col_in "DATA_VENCIMENTO" df then
    setitem "ANO_MES" (λ r, strftime_Y_m (r !!! "DATA_VENCIMENTO"))
      (setitem "MES_NOME" (λ r, strftime_b_Y (r !!! "DATA_VENCIMENTO"))
         (setitem "MES_ANO" (λ r, strftime_Y_m (r !!! "DATA_VENCIMENTO"))
            (setitem "MES" (λ r, dt_month (r !!! "DATA_VENCIMENTO"))
               (setitem "ANO" (λ r, dt_year (r !!! "DATA_VENCIMENTO")) df))))
  else df.

Definition coerce_valor (df : DataFrame) : DataFrame :=
  if col_in "VALOR" df
  then setitem "VALOR" (λ r, to_numeric (r !!! "VALOR")) df
  else df.

(** The frame on which [dropna] runs. *)
Definition prepared (sheet : DataFrame) : DataFrame :=
  coerce_valor (derive_fields (parsed_dates (rename_columns sheet))).

End Loader.

(** ** Ordering cells, sorting and grouping *)

Definition date_compare (a b : date) : comparison :=
  match year a ?= year b with
  | Eq => match month a ?= month b with
          | Eq => day a ?= day b
          | o => o
          end
  | o => o
  end.

(** Cells of one kind compare by value.  A column holds one kind of value;
    so that the order is total, cells of different kinds compare by kind:
    numbers, then timestamps, then text, then missing values. *)
Definition cell_kind (c : cell) : Z :=
  match c with
  | Num _ => 0
  | Timestamp _ _ => 1
  | Str _ => 2
  | NaN | NaT => 3
  end.

Definition cell_compare (a b : cell) : comparison :=
  match a, b with
  | Num x, Num y => x ?= y
  | Str x, Str y => String.compare x y
  | Timestamp d t, Timestamp d' t' =>
      match date_compare d d' with Eq => t ?= t' | o => o end
  | _, _ => cell_kind a ?= cell_kind b
  end.

(** One sort key of [sort_values]: missing values go last in both
    directions ([na_position='last']). *)
Definition key_compare (ascending : bool) (a b : cell) : comparison :=
  if isna a then (if isna b then Eq else Gt)
  else if isna b then Lt
  else if ascending then cell_compare a b else cell_compare b a.

(** Rows compared on the columns [labels], the first label first. *)
Fixpoint rows_compare (labels : list string) (ascending : bool)
    (r1 r2 : gmap string cell) : comparison :=
  match labels with
  | [] => Eq
  | c :: labels' =>
      match key_compare ascending (r1 !!! c) (r2 !!! c) with
      | Eq => rows_compare labels' ascending r1 r2
      | o => o
      end
  end.

(** [r1] may stand before [r2] in [sort_values(labels, ascending)]. *)
Definition sorted_before (labels : list string) (ascending : bool)
    (x y : nat * gmap string cell) : Prop :=
  rows_compare labels ascending x.2 y.2 ≠ Gt.

#[global] Instance sorted_before_dec labels ascending x y :
  Decision (sorted_before labels ascending x y).
Proof. unfold sorted_before. apply _. Defined.

(** [df.sort_values(by=labels, ascending=ascending)]; the [labels] are
    columns of [df] wherever the dashboard sorts.  pandas leaves the order
    of rows with equal keys to its sorting algorithm (quicksort by
    default); the merge sort here keeps them in their order, and nothing
    below is proved of the order of rows with equal keys. *)
Definition sort_values (labels : list string) (ascending : bool)
    (df : DataFrame) : DataFrame :=
  Frame (columns df) (merge_sort (sorted_before labels ascending) (rows df)).

(** [df.head(n)] *)
Definition head (n : nat) (df : DataFrame) : DataFrame :=
  Frame (columns df) (take n (rows df)).

(** Group keys are tuples of cells, compared from the left. *)
Fixpoint keys_compare (k1 k2 : list cell) : comparison :=
  match k1, k2 with
  | [], [] => Eq
  | [], _ :: _ => Lt
  | _ :: _, [] => Gt
  | a :: k1', b :: k2' =>
      match cell_compare a b with
      | Eq => keys_compare k1' k2'
      | o => o
      end
  end.

(** ** Float arithmetic on amounts *)

(** The float64 routines that the dashboard calls on amounts: [Series.sum],
    the sum of a group-by, and the format [f"{x:,.2f}"].  A sum is taken of
    the numbers of a column or of a group, in row order, missing values left
    out ([skipna]).  Float sums round, and how they round depends on the
    order and the algorithm pandas adds in; so the routines are parameters,
    and what is proved of the aggregates holds for every such routine. *)
Class Float64 := {
  series_sum : list Z → Z;
  group_sum : list Z → Z;
  format_2f : Z → string
}.

(** Two decimal digits. *)
Definition pad2 (n : Z) : string :=
  if n <? 10 then "0" +:+ pretty n else pretty n.

(** Commas between groups of three digits; the digits come last first. *)
Fixpoint commas (digits : list ascii) : list ascii :=
  match digits with
  | a :: b :: c :: ((_ :: _) as more) => a :: b :: c :: ","%char :: commas more
  | _ => digits
  end.

(** [f"{x:,}"] for a natural number. *)
Definition thousands (n : Z) : string :=
  string_of_list_ascii
    (reverse (commas (reverse (list_ascii_of_string (pretty n))))).

(** The exact sum of whole numbers. *)
Definition total (l : list Z) : Z := foldr Z.add 0 l.

(** The routines on amounts that are whole numbers of the unit below 2^53
    in all: there float64 adds without rounding, whatever the order and the
    algorithm, and [.2f] prints two zeros after the point.  The amounts of
    the examples are such. *)
#[global] Instance whole_amounts : Float64 := {|
  series_sum := total;
  group_sum := total;
  format_2f z := (if z <? 0 then "-" else "") +:+ thousands (Z.abs z) +:+ ".00"
|}.

(** The number a cell holds; 0 for a cell that holds none. *)
Definition num_of (c : cell) : Z :=
  match c with Num z => z | _ => 0 end.

(** The numbers among some cells, in order, the other cells left out. *)
Definition numbers (cs : list cell) : list Z :=
  omap (λ c, match c with Num z => Some z | _ => None end) cs.

(** [Series.count()]: the cells that are not missing. *)
Definition count (cs : list cell) : Z :=
  Z.of_nat (length (filter (λ c, negb (isna c)) cs)).

(** ** Grouping *)

(** Puts the row [ir] into the group of key [k]; the groups are kept in key
    order ([sort=True]), the rows of a group in the order of the frame. *)
Fixpoint group_add (k : list cell) (ir : nat * gmap string cell)
    (groups : list (list cell * list (nat * gmap string cell)))
    : list (list cell * list (nat * gmap string cell)) :=
  match groups with
  | [] => [(k, [ir])]
  | (k', members) :: groups' =>
      match keys_compare k k' with
      | Eq => (k', members ++ [ir]) :: groups'
      | Lt => (k, [ir]) :: groups
      | Gt => (k', members) :: group_add k ir groups'
      end
  end.

(** The key of a row, if none of its cells is missing ([dropna=True]). *)
Definition group_key (labels : list string) (r : gmap string cell)
    : option (list cell) :=
  let k := (λ c, r !!! c) <$> labels in
  if existsb isna k then None else Some k.

(** [df.groupby(labels)]: the keys in order, each with its rows. *)
Definition groups_of (labels : list string)
    (rs : list (nat * gmap string cell))
    : list (list cell * list (nat * gmap string cell)) :=
  fold_left (λ groups ir,
               match group_key labels ir.2 with
               | Some k => group_add k ir groups
               | None => groups
               end) rs [].

(** [df.groupby(labels)[col].sum().reset_index()]: one row per key, the key
    cells under their [labels] and the sum of the group under [col],
    indexed from 0.  A label that is not a column raises [KeyError], which
    names the first such label. *)
Definition groupby_sum {F : Float64} (labels : list string) (col : string)
    (df : DataFrame) : result DataFrame :=
  match filter (λ c, ¬ c ∈ columns df) (labels ++ [col]) with
  | [] =>
      Ok (Frame (labels ++ [col])
            (imap (λ i g, (i, <[col := Num (group_sum (numbers (cells col g.2)))]>
                                (list_to_map (zip labels g.1))))
                  (groups_of labels (rows df))))
  | c :: _ => Raise (KeyError [c])
  end.

(** [df[col].sum()] *)
Definition column_sum {F : Float64} (col : string) (df : DataFrame) : Z :=
  series_sum (numbers (column col df)).

(** ** The aggregate frames of the charts *)

(** [df_mensal] of [create_charts] (lines 358-367); [None] when the chart
    shows a placeholder instead. *)
Definition df_mensal {F : Float64} (df_filtrado : DataFrame)
    : result (option DataFrame) :=
  if empty df_filtrado then Ok None
  else if col_in "MES_ANO" df_filtrado && col_in "VALOR" df_filtrado then
    g ← groupby_sum ["MES_ANO"; "MES_NOME"; "ANO"; "MES"] "VALOR" df_filtrado;
    Ok (Some (sort_values ["ANO"; "MES"] true g))
  else Ok None.

(** [df_categoria] of [create_charts] (lines 422-423). *)
Definition df_categoria {F : Float64} (df_filtrado : DataFrame)
    : result (option DataFrame) :=
  if empty df_filtrado then Ok None
  else if col_in "CATEGORIA" df_filtrado && col_in "VALOR" df_filtrado then
    g ← groupby_sum ["CATEGORIA"] "VALOR" df_filtrado;
    Ok (Some g)
  else Ok None.

(** [df_concessionaria] of [create_charts] (lines 472-474). *)
Definition df_concessionaria {F : Float64} (df_filtrado : DataFrame)
    : result (option DataFrame) :=
  if empty df_filtrado then Ok None
  else if col_in "CATEGORIA_SCANIA" df_filtrado && col_in "VALOR" df_filtrado then
    g ← groupby_sum ["CATEGORIA_SCANIA"] "VALOR" df_filtrado;
    Ok (Some (sort_values ["VALOR"] true g))
  else Ok None.

(** [df_tarefa] of [create_tarefa_consolidada_chart] (lines 522-524). *)
Definition df_tarefa {F : Float64} (df_filtrado : DataFrame)
    : result (option DataFrame) :=
  if col_in "TAREFA_CONSOLIDADA" df_filtrado && col_in "VALOR" df_filtrado
     && negb (empty df_filtrado) then
    g ← groupby_sum ["TAREFA_CONSOLIDADA"] "VALOR" df_filtrado;
    Ok (Some (head 15 (sort_values ["VALOR"] false g)))
  else Ok None.

(** ** Vocabulary of the properties *)

(** The seven guarded steps of [apply_filters], named. *)
Definition date_step (data_inicio data_fim : date) (df : DataFrame) :=
  if col_in "DATA_VENCIMENTO" df && negb (empty df)
  then loc (λ r, dt_date_ge (r !!! "DATA_VENCIMENTO") data_inicio
                 && dt_date_le (r !!! "DATA_VENCIMENTO") data_fim) df
  else df.

Definition year_step (ano_selecionado : cell) (df : DataFrame) :=
  if py_ne ano_selecionado (Str "Todos") && col_in "ANO" df
  then loc (λ r, py_eq (r !!! "ANO") ano_selecionado) df
  else df.

Definition isin_step (col : string) (selection : list cell) (df : DataFrame) :=
  if truthy selection && col_in col df
  then loc (λ r, isin selection (r !!! col)) df
  else df.

(** A frame obtained from [df0] by dropping rows. *)
Definition narrowed (df0 df : DataFrame) : Prop :=
  columns df = columns df0 ∧ rows df `sublist_of` rows df0.

(** Every cell of column [col] is in [selection]. *)
Definition all_selected (col : string) (selection : list cell)
    (df : DataFrame) : Prop :=
  ∀ ir, ir ∈ rows df → ir.2 !!! col ∈ selection.

(** The range from [a] to [b] holds every due date of [df]. *)
Definition spans (df : DataFrame) (a b : date) : Prop :=
  ∀ d, d ∈ vencimentos df → date_leb a d = true ∧ date_leb d b = true.

Definition is_timestamp (c : cell) : bool :=
  match c with Timestamp _ _ => true | _ => false end.

(** The dtypes [load_data] leaves: the date columns are datetime64
    (timestamps and [NaT]) and the amount column is numeric. *)
Definition is_datetime (c : cell) : bool :=
  match c with NaT | Timestamp _ _ => true | _ => false end.

Definition is_numeric (c : cell) : bool :=
  match c with NaN | Num _ => true | _ => false end.


(** Two lists of rows with the same index labels, in the same order, whose
    rows are related by [R]. *)
Definition related (R : gmap string cell → gmap string cell → Prop)
    (rs rs' : list (nat * gmap string cell)) : Prop :=
  Forall2 (λ x y, x.1 = y.1 ∧ R x.2 y.2) rs rs'.

(** A step of the loader that leaves column [k] alone: the label stays (or
    stays out) and no cell under it changes. *)
Definition keeps (k : string) (step : DataFrame → DataFrame) : Prop :=
  ∀ df, col_in k (step df) = col_in k df ∧
        related (λ r r', r' !!! k = r !!! k) (rows df) (rows (step df)).

(** The derived fields of a loaded row, as functions of its due date. *)
Definition derived_from_due (r : gmap string cell) : Prop :=
  r !!! "ANO" = dt_year (r !!! "DATA_VENCIMENTO") ∧
  r !!! "MES" = dt_month (r !!! "DATA_VENCIMENTO") ∧
  r !!! "MES_ANO" = strftime_Y_m (r !!! "DATA_VENCIMENTO") ∧
  r !!! "MES_NOME" = strftime_b_Y (r !!! "DATA_VENCIMENTO") ∧
  r !!! "ANO_MES" = strftime_Y_m (r !!! "DATA_VENCIMENTO").

(** The due-date cell of a row of the sheet: under the header that
    [column_mapping] renames, or else under the canonical label; and the
    due-date cells of the sheet, in row order. *)
Definition due_cell (sheet : DataFrame) (r : gmap string cell) : cell :=
  if col_in "DATA VENCIMENTO" sheet
  then r !!! "DATA VENCIMENTO"
  else r !!! "DATA_VENCIMENTO".

Definition due_cells (sheet : DataFrame) : list cell :=
  (λ ir, due_cell sheet ir.2) <$> rows sheet.

(** The amounts of a frame, in row order. *)
Definition valores (df : DataFrame) : list Z :=
  (λ ir, num_of (ir.2 !!! "VALOR")) <$> rows df.

(** The years and months of a frame, in row order. *)
Definition year_months (df : DataFrame) : list (Z * Z) :=
  (λ ir, (num_of (ir.2 !!! "ANO"), num_of (ir.2 !!! "MES"))) <$> rows df.

(** The rows whose group key has no missing cell. *)
Definition has_key (labels : list string) (r : gmap string cell) : bool :=
  negb (existsb isna ((λ c, r !!! c) <$> labels)).

(** A three-way comparison that is a total preorder: swapping the arguments
    flips the outcome, each outcome is transitive, and [Eq] makes two values
    compare alike. *)
Record comparison_order {A} (cmp : A → A → comparison) : Prop := {
  cmp_antisym a b : cmp b a = CompOpp (cmp a b);
  cmp_trans a b c o : cmp a b = o → cmp b c = o → cmp a c = o;
  cmp_eq_l a b c : cmp a b = Eq → cmp a c = cmp b c
}.

(** Comparing by [cmp1] first and by [cmp2] among equals. *)
Definition lex {A} (cmp1 cmp2 : A → A → comparison) (a b : A) : comparison :=
  match cmp1 a b with Eq => cmp2 a b | o => o end.

(** ** Sample data *)

(** Coercions for the examples: whole numbers written in decimal, dates
    written dd/mm/yyyy, and no number read as a date.  The date columns of
    the examples begin with a date cell, not a text, so that no format is
    inferred from the column and each text is read by itself. *)
Definition digits (s : string) : option Z :=
  Z.of_uint <$> NilZero.uint_of_string s.

Definition sample_parse_numeric (s : string) : option Z := digits s.

Definition sample_parse_datetime (cells : list cell) (s : string)
    : option (date * Z) :=
  if bool_decide (String.length s = 10%nat ∧
                  String.get 2 s = Some "/"%char ∧
                  String.get 5 s = Some "/"%char)
  then
    d ← digits (substring 0 2 s);
    m ← digits (substring 3 2 s);
    y ← digits (substring 6 4 s);
    if bool_decide (1 ≤ m ≤ 12 ∧ 1 ≤ d ≤ 31) then Some (Date y m d, 0) else None
  else None.

Definition sample_epoch_datetime (cells : list cell) (z : Z)
    : option (date * Z) := None.

(** A sheet as [pd.read_excel] returns it: date cells and numbers come typed
    from Excel, blank cells are [NaN], and some cells are text. *)
Definition sheet_row (scania emissao tipo vencimento valor tarefa consolidada
    categoria : cell) : gmap string cell :=
  {[ "CATEGORIA SCANIA" := scania; "DATA EMISSIO" := emissao;
     "TIPO DOC" := tipo; "DATA VENCIMENTO" := vencimento; "VALOR" := valor;
     "NOME TAREFA" := tarefa; "TAREFA CONSOLIDADA" := consolidada;
     "CATEGORIA" := categoria ]}.

Definition sample_sheet : DataFrame :=
  Frame ["CATEGORIA SCANIA"; "DATA EMISSIO"; "TIPO DOC"; "DATA VENCIMENTO";
         "VALOR"; "NOME TAREFA"; "TAREFA CONSOLIDADA"; "CATEGORIA"]
    [ (0%nat, sheet_row (Str "CODEMA") (Timestamp (Date 2022 12 20) 0)
                (Str "NF") (Timestamp (Date 2023 1 10) 0) (Num 10000)
                (Str "TROCA DE OLEO") (Str "MANUTENCAO")
                (Str "CUSTO MANUTENCOES"));
      (1%nat, sheet_row (Str "CODEMA") (Str "02/01/2023")
                (Str "NF") NaN (Num 20000)
                (Str "FUNILARIA") (Str "SINISTRO") (Str "SINISTRO"));
      (2%nat, sheet_row (Str "ITAIPU") (Str "03/01/2023")
                (Str "BOLETO") (Str "15/02/2023") (Str "n/d")
                (Str "PNEUS") (Str "MANUTENCAO") (Str "CUSTO MANUTENCOES"));
      (3%nat, sheet_row (Str "ITAIPU") (Timestamp (Date 2023 12 28) 0)
                (Str "BOLETO") (Timestamp (Date 2024 1 5) 0) (Num 5000)
                (Str "PNEUS") (Str "MANUTENCAO") NaN);
      (4%nat, sheet_row (Str "ITAIPU") NaN
                (Str "NF") (Str "sem data") (Str "7500")
                (Str "PNEUS") (Str "MANUTENCAO") (Str "SINISTRO")) ].

(** The frame [load_data] returns for the sample sheet, evaluated
    ([sample_loaded_eq]). *)
Definition sample_loaded : DataFrame :=
  Eval vm_compute in
    (load_data sample_parse_datetime sample_epoch_datetime sample_parse_numeric
       (Ok sample_sheet)).1.

(** The sample frame under the default selection of [create_filters],
    evaluated ([sample_filtered_eq]). *)
Definition sample_filtered : DataFrame :=
  Eval vm_compute in
    apply_filters sample_loaded (Date 2023 1 10) (Date 2024 1 5) (Str "Todos")
      (unique "CATEGORIA_SCANIA" sample_loaded)
      (unique "CATEGORIA" sample_loaded)
      (unique "TIPO_DOC" sample_loaded) (unique "NOME_TAREFA" sample_loaded)
      (unique "TAREFA_CONSOLIDADA" sample_loaded).

(** Sixteen consolidated tasks, one record each. *)
Definition sixteen_tasks : DataFrame :=
  Frame ["TAREFA_CONSOLIDADA"; "VALOR"]
    (imap (λ i n, (i, {[ "TAREFA_CONSOLIDADA" := Num n; "VALOR" := Num (100 * n) ]}))
          (seqZ 1 16)).

(** The aggregates of the samples, evaluated. *)
Definition sample_categoria : DataFrame :=
  Eval vm_compute in
    match df_categoria sample_filtered with
    | Ok (Some agg) => agg
    | _ => empty_frame
    end.

Definition sixteen_tasks_top : DataFrame :=
  Eval vm_compute in
    match df_tarefa sixteen_tasks with
    | Ok (Some agg) => agg
    | _ => empty_frame
    end.

(** ** Vocabulary of the further properties *)

(** The conjunction of the masks of [apply_filters] on one row of [df]: a
    mask counts only when its guard holds. *)
Definition passes (df : DataFrame) (data_inicio data_fim : date)
    (ano_selecionado : cell)
    (categorias_selecionadas categorias tipos_doc nomes_tarefa
       tarefas_consolidadas : list cell) (r : gmap string cell) : bool :=
  (negb (col_in "DATA_VENCIMENTO" df)
   || dt_date_ge (r !!! "DATA_VENCIMENTO") data_inicio
      && dt_date_le (r !!! "DATA_VENCIMENTO") data_fim)
  && (negb (py_ne ano_selecionado (Str "Todos") && col_in "ANO" df)
      || py_eq (r !!! "ANO") ano_selecionado)
  && (negb (truthy categorias_selecionadas && col_in "CATEGORIA_SCANIA" df)
      || isin categorias_selecionadas (r !!! "CATEGORIA_SCANIA"))
  && (negb (truthy categorias && col_in "CATEGORIA" df)
      || isin categorias (r !!! "CATEGORIA"))
  && (negb (truthy tipos_doc && col_in "TIPO_DOC" df)
      || isin tipos_doc (r !!! "TIPO_DOC"))
  && (negb (truthy nomes_tarefa && col_in "NOME_TAREFA" df)
      || isin nomes_tarefa (r !!! "NOME_TAREFA"))
  && (negb (truthy tarefas_consolidadas && col_in "TAREFA_CONSOLIDADA" df)
      || isin tarefas_consolidadas (r !!! "TAREFA_CONSOLIDADA")).

(** The canonical name of a header: the name [column_mapping] gives it, or
    the header itself when the mapping does not list it. *)
Fixpoint mapped (mapping : list (string * string)) (c : string)
    : option string :=
  match mapping with
  | [] => None
  | (old_col, new_col) :: mapping' =>
      if decide (c = old_col) then Some new_col else mapped mapping' c
  end.

Definition canonical (c : string) : string :=
  default c (mapped column_mapping c).

(** At most one header of the sheet stands for each date column: no
    header variant of a date column comes with its canonical name. *)
Definition date_headers_distinct (sheet : DataFrame) : bool :=
  forallb (λ col, bool_decide
                    (length (filter (λ c, canonical c = col) (columns sheet))
                     ≤ 1)%nat)
          date_columns.

(** No renaming produces a header that a later renaming would rename
    again. *)
Fixpoint chain_free (mapping : list (string * string)) : Prop :=
  match mapping with
  | [] => True
  | (old_col, new_col) :: mapping' =>
      Forall (λ on, new_col ≠ on.1 ∨ on.1 = on.2) mapping' ∧
      chain_free mapping'
  end.

(** A header through the renamings of a mapping, one after the other. *)
Definition renamed (mapping : list (string * string)) (c : string) : string :=
  fold_left (λ c '(old_col, new_col), if decide (c = old_col) then new_col else c)
            mapping c.

(** The labels [cs] with [c] added last unless it is there. *)
Definition add_label (cs : list string) (c : string) : list string :=
  if bool_decide (c ∈ cs) then cs else cs ++ [c].

(** The labels of the derived fields, in the order [load_data] assigns
    them. *)
Definition derived_labels : list string :=
  ["ANO"; "MES"; "MES_ANO"; "MES_NOME"; "ANO_MES"].

(** The aggregates of the filtered sample by dealer category and by
    month, evaluated. *)
Definition sample_concessionaria : DataFrame :=
  Eval vm_compute in
    match df_concessionaria sample_filtered with
    | Ok (Some agg) => agg
    | _ => empty_frame
    end.

Definition sample_mensal : DataFrame :=
  Eval vm_compute in
    match df_mensal sample_filtered with
    | Ok (Some agg) => agg
    | _ => empty_frame
    end.

(** A key without missing cells. *)
Definition na_free (k : list cell) : bool := forallb (λ c, negb (isna c)) k.

(** The rows a list of groups holds under the key [q]. *)
Definition members (q : list cell)
    (groups : list (list cell * list (nat * gmap string cell)))
    : list (nat * gmap string cell) :=
  foldr (λ g acc, (if bool_decide (g.1 = q) then g.2 else []) ++ acc) [] groups.

(** The rows of key [q], in order. *)
Definition keyed (labels : list string) (q : list cell)
    (rs : list (nat * gmap string cell)) : list (nat * gmap string cell) :=
  filter (λ ir, group_key labels ir.2 = Some q) rs.

(** Groups in strictly ascending order of key. *)
Definition key_lt (g g' : list cell * list (nat * gmap string cell)) : Prop :=
  keys_compare g.1 g'.1 = Lt.

(** The step of [groups_of]: the row goes to the group of its key, and a
    row without a key is passed over. *)
Definition group_step (labels : list string)
    (groups : list (list cell * list (nat * gmap string cell)))
    (ir : nat * gmap string cell)
    : list (list cell * list (nat * gmap string cell)) :=
  match group_key labels ir.2 with
  | Some k => group_add k ir groups
  | None => groups
  end.

(** The sum of the sizes of some whole numbers. *)
Definition magnitude (l : list Z) : Z := foldr (λ z acc, Z.abs z + acc) 0 l.

(** The sums of the routines are exact on whole numbers whose sizes add up
    to [bound] at most, as float64 sums of whole multiples of the unit are
    while they stay below 2^53 units. *)
Definition exact_below {F : Float64} (bound : Z) : Prop :=
  ∀ l, magnitude l ≤ bound → series_sum l = total l ∧ group_sum l = total l.

Definition sample_tarefa : DataFrame :=
  Eval vm_compute in
    match df_tarefa sample_filtered with
    | Ok (Some agg) => agg
    | _ => empty_frame
    end.

(** ** The tables of [create_tables] (lines 572-657) *)

(** [f"R$ {x:,.2f}"] *)
Definition format_valor {F : Float64} (z : Z) : string :=
  "R$ " +:+ format_2f z.

(** [Series.apply(lambda x: f"R$ {x:,.2f}")] on one cell of the amount
    column; a missing amount prints as [nan]. *)
Definition format_cell {F : Float64} (c : cell) : cell :=
  match c with
  | Num z => Str (format_valor z)
  | _ => Str "R$ nan"
  end.

(** [Series.dt.strftime('%d/%m/%Y')] on one cell. *)
Definition strftime_d_m_Y (c : cell) : cell :=
  match c with
  | Timestamp d _ => Str (pad2 (day d) +:+ "/" +:+ fmt_m d +:+ "/" +:+ fmt_Y d)
  | _ => NaN
  end.

(** [df.groupby(label).agg({sum_col: 'sum', count_col: 'count'})
    .reset_index()]; a label that is not a column raises [KeyError]. *)
Definition groupby_sum_count {F : Float64} (label sum_col count_col : string)
    (df : DataFrame) : result DataFrame :=
  match filter (λ c, ¬ c ∈ columns df) [label; sum_col; count_col] with
  | [] =>
      Ok (Frame [label; sum_col; count_col]
            (imap (λ i g, (i, <[count_col := Num (count (cells count_col g.2))]>
                                (<[sum_col :=
                                     Num (group_sum (numbers (cells sum_col g.2)))]>
                                   (list_to_map (zip [label] g.1)))))
                  (groups_of [label] (rows df))))
  | missing => Raise (KeyError missing)
  end.

(** [df_fornecedores] of [create_tables] (lines 575-597), with its
    formatted amount; [None] when the table is not shown. *)
Definition df_fornecedores {F : Float64} (df_filtrado : DataFrame)
    : result (option DataFrame) :=
  if empty df_filtrado then Ok None
  else if col_in "NOME_FORNECEDOR" df_filtrado && col_in "VALOR" df_filtrado
  then
    g ← groupby_sum_count "NOME_FORNECEDOR" "VALOR" "DOCUMENTO" df_filtrado;
    let g := rename "DOCUMENTO" "QTD_DOCUMENTOS" g in
    let g := sort_values ["VALOR"] false g in
    let g := setitem "VALOR_FORMATADO" (λ r, format_cell (r !!! "VALOR")) g in
    Ok (Some g)
  else Ok None.

(** The dtypes [load_data] leaves, column by column. *)
Definition column_of (dtype : cell → bool) (col : string) (df : DataFrame)
    : bool :=
  implb (col_in col df)
        (forallb (λ ir : nat * gmap string cell, dtype (ir.2 !!! col))
                 (rows df)).

Definition loaded_dtypes (df : DataFrame) : bool :=
  forallb (λ col, column_of is_datetime col df) date_columns &&
  column_of is_numeric "VALOR" df.

(** [df_display] of [create_tables] (lines 612-628): the dates and the
    amount as text, then sorted on the due-date column.  The [.dt]
    accessor and the number format need the dtypes of a loaded frame
    ([loaded_dtypes]). *)
Definition df_display {F : Float64} (df_filtrado : DataFrame)
    : option DataFrame :=
  if empty df_filtrado then None
  else
    let df_display := df_filtrado in
    let df_display :=
      fold_left (λ df col,
                   if col_in col df
                   then setitem col (λ r, strftime_d_m_Y (r !!! col)) df
                   else df)
                date_columns df_display in
    let df_display :=
      if col_in "VALOR" df_display
      then setitem "VALOR" (λ r, format_cell (r !!! "VALOR")) df_display
      else df_display in
    let df_display :=
      if col_in "DATA_VENCIMENTO" df_filtrado
      then sort_values ["DATA_VENCIMENTO"] false df_display
      else df_display in
    Some df_display.

(** Three suppliers' records, and the same without document numbers. *)
Definition supplier_row (nome documento : cell) (valor : Z) (venc : date)
    : gmap string cell :=
  {[ "NOME_FORNECEDOR" := nome; "DOCUMENTO" := documento;
     "VALOR" := Num valor; "DATA_VENCIMENTO" := Timestamp venc 0 ]}.

Definition suppliers : DataFrame :=
  Frame ["NOME_FORNECEDOR"; "DOCUMENTO"; "VALOR"; "DATA_VENCIMENTO"]
    [ (0%nat, supplier_row (Str "AUTO PECAS SUL") (Num 101) 123456 (Date 2024 1 2));
      (1%nat, supplier_row (Str "OFICINA NORTE") (Num 102) 250000 (Date 2023 12 31));
      (2%nat, supplier_row (Str "AUTO PECAS SUL") NaN 5 (Date 2023 11 15));
      (3%nat, supplier_row NaN (Num 104) 999 (Date 2023 12 1)) ].

Definition suppliers_without_document : DataFrame :=
  Frame ["NOME_FORNECEDOR"; "VALOR"; "DATA_VENCIMENTO"]
    ((λ ir, (ir.1, delete "DOCUMENTO" ir.2)) <$> rows suppliers).

Definition suppliers_table : DataFrame :=
  Eval vm_compute in
    match df_fornecedores suppliers with
    | Ok (Some t) => t
    | _ => empty_frame
    end.

Definition suppliers_display : DataFrame :=
  Eval vm_compute in
    match df_display suppliers with
    | Some t => t
    | None => empty_frame
    end.

(** ** The option lists of [create_filters] (lines 182-243) *)

(** The values Python orders among themselves: floats (with [nan]), text,
    and timestamps (with [NaT]).  [<] between two of these classes raises
    [TypeError]. *)
Definition py_class (c : cell) : Z :=
  match c with
  | Num _ | NaN => 0
  | Str _ => 1
  | Timestamp _ _ | NaT => 2
  end.

(** What [sorted] makes of a list: the list in order; [TypeError]; or,
    with a [nan] or [NaT] among values of its class, whose comparisons are
    all False, an arrangement of the list that depends on the sorting
    algorithm and is left open here. *)
Inductive sorted_outcome :=
  | Sorted (l : list cell)
  | TypeError
  | Unordered (l : list cell).

Definition py_le (reverse : bool) (x y : cell) : Prop :=
  (if reverse then cell_compare y x else cell_compare x y) ≠ Gt.

#[global] Instance py_le_dec reverse x y : Decision (py_le reverse x y).
Proof. unfold py_le. apply _. Defined.

(** [sorted(l, reverse=reverse)].  A list of less than two values is not
    compared at all; in a longer one every value is compared with another,
    so that two classes in it meet. *)
Definition py_sorted (reverse : bool) (l : list cell) : sorted_outcome :=
  match l with
  | [] | [_] => Sorted l
  | a :: _ =>
      if existsb (λ c, negb (py_class c =? py_class a)) l then TypeError
      else if existsb isna l then Unordered l
      else Sorted (merge_sort (py_le reverse) l)
  end.

(** The options of a select box filled with [sorted(df[col].unique())];
    [None] when the box is not shown. *)
Definition sorted_options (col : string) (reverse : bool) (df : DataFrame)
    : option sorted_outcome :=
  if col_in col df && negb (empty df)
  then Some (py_sorted reverse (unique col df))
  else None.

(** A sheet with the due date under two headers, the variant that
    [column_mapping] renames and the canonical one. *)
Definition sheet_with_two_due_headers : DataFrame :=
  Frame ["DATA VENCIMENTO"; "DATA_VENCIMENTO"; "VALOR"]
    [ (0%nat, {[ "DATA VENCIMENTO" := Timestamp (Date 2023 1 10) 0;
                 "DATA_VENCIMENTO" := Timestamp (Date 2023 1 10) 0;
                 "VALOR" := Num 10000 ]}) ].

(** Document types, one of them missing. *)
Definition documents : DataFrame :=
  Frame ["TIPO_DOC"; "VALOR"]
    [ (0%nat, {[ "TIPO_DOC" := Str "NF"; "VALOR" := Num 100 ]});
      (1%nat, {[ "TIPO_DOC" := NaN; "VALOR" := Num 200 ]});
      (2%nat, {[ "TIPO_DOC" := Str "BOLETO"; "VALOR" := Num 300 ]});
      (3%nat, {[ "TIPO_DOC" := Str "NF"; "VALOR" := Num 400 ]}) ].

(** * Properties *)

(** ** Boolean indexing *)

Lemma columns_loc mask df : columns (loc mask df) = columns df.
Proof. reflexivity. Qed.

Lemma col_in_loc c mask df : col_in c (loc mask df) = col_in c df.
Proof. reflexivity. Qed.

Lemma rows_loc_sublist mask df : rows (loc mask df) `sublist_of` rows df.
Proof. apply sublist_filter. Qed.

Lemma elem_of_rows_loc mask df ir :
  ir ∈ rows (loc mask df) ↔ mask ir.2 = true ∧ ir ∈ rows df.
Proof.
  unfold loc; simpl. rewrite list_elem_of_filter.
  by rewrite Is_true_true.
Qed.

Lemma loc_all mask df :
  (∀ ir, ir ∈ rows df → mask ir.2 = true) → loc mask df = df.
Proof.
  destruct df as [cs rs]; unfold loc; simpl; intros Hall. f_equal.
  induction rs as [|x rs IH]; [done|].
  rewrite filter_cons_True.
  - f_equal. apply IH. intros ir Hir. apply Hall. by right.
  - apply Is_true_true, Hall. by left.
Qed.

Lemma loc_ext mask1 mask2 df :
  (∀ ir, ir ∈ rows df → mask1 ir.2 = mask2 ir.2) → loc mask1 df = loc mask2 df.
Proof.
  destruct df as [cs rs]; unfold loc; simpl; intros Hext. f_equal.
  induction rs as [|x rs IH]; [done|].
  rewrite !filter_cons, (Hext x) by (by left).
  rewrite IH; [done|]. intros ir Hir. apply Hext. by right.
Qed.

(** ** The steps of the filter engine *)

Lemma apply_filters_steps df a b ano s1 s2 s3 s4 s5 :
  apply_filters df a b ano s1 s2 s3 s4 s5 =
  isin_step "TAREFA_CONSOLIDADA" s5
    (isin_step "NOME_TAREFA" s4
       (isin_step "TIPO_DOC" s3
          (isin_step "CATEGORIA" s2
             (isin_step "CATEGORIA_SCANIA" s1
                (year_step ano (date_step a b df)))))).
Proof. reflexivity. Qed.

Lemma narrowed_refl df : narrowed df df.
Proof. by split. Qed.

Lemma narrowed_loc df0 df mask : narrowed df0 df → narrowed df0 (loc mask df).
Proof.
  intros [Hc Hr]. split; [done|].
  etrans; [apply rows_loc_sublist|done].
Qed.

Lemma narrowed_date_step df0 df a b :
  narrowed df0 df → narrowed df0 (date_step a b df).
Proof. unfold date_step. case_match; auto using narrowed_loc. Qed.

Lemma narrowed_year_step df0 df ano :
  narrowed df0 df → narrowed df0 (year_step ano df).
Proof. unfold year_step. case_match; auto using narrowed_loc. Qed.

Lemma narrowed_isin_step df0 df col sel :
  narrowed df0 df → narrowed df0 (isin_step col sel df).
Proof. unfold isin_step. case_match; auto using narrowed_loc. Qed.

Create HintDb filters.
#[local] Hint Resolve narrowed_refl narrowed_date_step narrowed_year_step
  narrowed_isin_step : filters.

Lemma narrowed_elem_of df0 df ir : narrowed df0 df → ir ∈ rows df → ir ∈ rows df0.
Proof. intros [_ Hr] Hir. by eapply elem_of_sublist. Qed.

Lemma narrowed_col_in df0 df c : narrowed df0 df → col_in c df = col_in c df0.
Proof. intros [Hc _]. unfold col_in. by rewrite Hc. Qed.

(** ** Selections *)

Lemma elem_of_unique col df c :
  c ∈ unique col df ↔ ∃ ir, ir ∈ rows df ∧ c = ir.2 !!! col.
Proof.
  unfold unique.
  rewrite elem_of_reverse, elem_of_remove_dups, elem_of_reverse, list_elem_of_fmap.
  split; intros (ir & H1 & H2); exists ir; by split.
Qed.

Lemma unique_all_selected col df : all_selected col (unique col df) df.
Proof. intros ir Hir. apply elem_of_unique. eauto. Qed.

Lemma isin_step_nil col df : isin_step col [] df = df.
Proof. reflexivity. Qed.

Lemma isin_step_all_selected df0 df col sel :
  all_selected col sel df0 → narrowed df0 df → isin_step col sel df = df.
Proof.
  intros Hall Hn. unfold isin_step. case_match; [|done].
  apply loc_all. intros ir Hir. apply bool_decide_eq_true.
  eapply Hall, narrowed_elem_of; eauto.
Qed.

Lemma year_step_todos df : year_step (Str "Todos") df = df.
Proof. reflexivity. Qed.

(** ** Dates *)

Lemma date_leb_spec a b :
  date_leb a b = true ↔
  year a < year b ∨
  (year a = year b ∧ (month a < month b ∨ (month a = month b ∧ day a ≤ day b))).
Proof.
  unfold date_leb.
  repeat (case_match; try rewrite Z.ltb_lt in *; try rewrite Z.ltb_ge in *);
    rewrite ?Z.leb_le; split; intros; try done; lia.
Qed.

Lemma date_leb_refl a : date_leb a a = true.
Proof. apply date_leb_spec. lia. Qed.

Lemma date_leb_trans a b c :
  date_leb a b = true → date_leb b c = true → date_leb a c = true.
Proof. rewrite !date_leb_spec. lia. Qed.

Lemma date_leb_total a b : date_leb a b = true ∨ date_leb b a = true.
Proof. rewrite !date_leb_spec. lia. Qed.

Lemma foldl_min_le d ds x :
  x ∈ d :: ds →
  date_leb (foldl (λ m x, if date_leb x m then x else m) d ds) x = true.
Proof.
  revert d x. induction ds as [|y ds IH]; intros d x Hx; simpl.
  - apply list_elem_of_singleton in Hx as ->. apply date_leb_refl.
  - apply elem_of_cons in Hx as [->|Hx]; destruct (date_leb y d) eqn:Hyd.
    + eapply date_leb_trans; [apply IH; by left|done].
    + apply IH. by left.
    + by apply IH.
    + apply elem_of_cons in Hx as [->|Hx]; [|apply IH; by right].
      destruct (date_leb_total d y) as [Hdy|?]; [|congruence].
      eapply date_leb_trans; [apply IH; by left|done].
Qed.

Lemma foldl_max_ge d ds x :
  x ∈ d :: ds →
  date_leb x (foldl (λ m x, if date_leb m x then x else m) d ds) = true.
Proof.
  revert d x. induction ds as [|y ds IH]; intros d x Hx; simpl.
  - apply list_elem_of_singleton in Hx as ->. apply date_leb_refl.
  - apply elem_of_cons in Hx as [->|Hx]; destruct (date_leb d y) eqn:Hdy.
    + eapply date_leb_trans; [done|apply IH; by left].
    + apply IH. by left.
    + by apply IH.
    + apply elem_of_cons in Hx as [->|Hx]; [|apply IH; by right].
      destruct (date_leb_total d y) as [?|Hyd]; [congruence|].
      eapply date_leb_trans; [done|apply IH; by left].
Qed.

(** The default bounds of [create_filters] span the due dates. *)
Lemma min_max_date_spans today df a b :
  col_in "DATA_VENCIMENTO" df = true →
  min_date df = Some a → max_date today df = Some b → spans df a b.
Proof.
  unfold min_date, max_date, spans. intros Hc Ha Hb d Hd.
  rewrite Hc in Ha, Hb.
  destruct (empty df) eqn:He; simpl in *.
  - unfold empty, col_in, vencimentos in *.
    destruct (rows df); [by apply elem_of_nil in Hd|].
    destruct (columns df); simpl in *; done.
  - destruct (vencimentos df) as [|d0 ds]; [done|].
    simplify_eq. split; [by apply foldl_min_le|by apply foldl_max_ge].
Qed.

(** ** The filter engine keeps a subsequence *)

Lemma apply_filters_narrowed df a b ano s1 s2 s3 s4 s5 :
  narrowed df (apply_filters df a b ano s1 s2 s3 s4 s5).
Proof. rewrite apply_filters_steps. auto 10 with filters. Qed.

(** Index labels stay distinct through the filter engine. *)
Lemma apply_filters_NoDup df a b ano s1 s2 s3 s4 s5 :
  NoDup (rows df).*1 → NoDup (rows (apply_filters df a b ano s1 s2 s3 s4 s5)).*1.
Proof.
  intros Hnd. apply (sublist_NoDup _ (rows df).*1); [exact Hnd|].
  apply fmap_sublist, apply_filters_narrowed.
Qed.

(** ** The due-date filter and missing due dates *)

Lemma dt_date_ge_timestamp c d : dt_date_ge c d = true → is_timestamp c = true.
Proof. by destruct c. Qed.

Lemma col_in_not_empty c df ir :
  col_in c df = true → ir ∈ rows df → empty df = false.
Proof.
  unfold col_in, empty. intros Hc Hir.
  destruct (columns df); [done|]. destruct (rows df); [|done].
  by apply elem_of_nil in Hir.
Qed.

Lemma date_step_timestamp df a b ir :
  col_in "DATA_VENCIMENTO" df = true →
  ir ∈ rows (date_step a b df) →
  dt_date_ge (ir.2 !!! "DATA_VENCIMENTO") a = true ∧
  dt_date_le (ir.2 !!! "DATA_VENCIMENTO") b = true.
Proof.
  intros Hc Hir. unfold date_step in Hir. rewrite Hc in Hir.
  destruct (empty df) eqn:He; cbn [andb negb] in Hir.
  - by rewrite (col_in_not_empty _ _ _ Hc Hir) in He.
  - apply elem_of_rows_loc in Hir as [Hm _].
    by apply andb_true_iff in Hm.
Qed.

Lemma apply_filters_date_step df a b ano s1 s2 s3 s4 s5 :
  narrowed (date_step a b df) (apply_filters df a b ano s1 s2 s3 s4 s5).
Proof. rewrite apply_filters_steps. auto 10 with filters. Qed.

Lemma apply_filters_timestamp df a b ano s1 s2 s3 s4 s5 ir :
  col_in "DATA_VENCIMENTO" df = true →
  ir ∈ rows (apply_filters df a b ano s1 s2 s3 s4 s5) →
  is_timestamp (ir.2 !!! "DATA_VENCIMENTO") = true.
Proof.
  intros Hc Hir.
  eapply narrowed_elem_of in Hir; [|apply apply_filters_date_step].
  apply date_step_timestamp in Hir as [Hge _]; [|done].
  by eapply dt_date_ge_timestamp.
Qed.

Lemma elem_of_vencimentos df ir d t :
  ir ∈ rows df → ir.2 !!! "DATA_VENCIMENTO" = Timestamp d t → d ∈ vencimentos df.
Proof.
  intros Hir Hd. unfold vencimentos. apply list_elem_of_omap.
  exists ir. by rewrite Hd.
Qed.

(** Over a range that spans the due dates, the date step keeps the rows
    that have a due date. *)
Lemma date_step_spans df a b :
  spans df a b →
  date_step a b df =
  if col_in "DATA_VENCIMENTO" df
  then loc (λ r, is_timestamp (r !!! "DATA_VENCIMENTO")) df
  else df.
Proof.
  intros Hs. unfold date_step.
  destruct (col_in "DATA_VENCIMENTO" df) eqn:Hc; [|done]. simpl.
  destruct (empty df) eqn:He; simpl.
  - symmetry. apply loc_all. intros ir Hir.
    by rewrite (col_in_not_empty _ _ _ Hc Hir) in He.
  - apply loc_ext. intros ir Hir.
    destruct (ir.2 !!! "DATA_VENCIMENTO") as [| | | |d t] eqn:Hd; try done.
    destruct (Hs d) as [Ha Hb]; [by eapply elem_of_vencimentos|].
    simpl. by rewrite Ha, Hb.
Qed.

Lemma identity_case_rows df a b s1 s2 s3 s4 s5 :
  spans df a b →
  all_selected "CATEGORIA_SCANIA" s1 df →
  all_selected "CATEGORIA" s2 df →
  all_selected "TIPO_DOC" s3 df →
  all_selected "NOME_TAREFA" s4 df →
  all_selected "TAREFA_CONSOLIDADA" s5 df →
  apply_filters df a b (Str "Todos") s1 s2 s3 s4 s5 =
  if col_in "DATA_VENCIMENTO" df
  then loc (λ r, is_timestamp (r !!! "DATA_VENCIMENTO")) df
  else df.
Proof.
  intros Hs H1 H2 H3 H4 H5.
  assert (narrowed df (date_step a b df)) as Hn by auto with filters.
  rewrite apply_filters_steps, year_step_todos.
  rewrite (isin_step_all_selected df _ "CATEGORIA_SCANIA") by done.
  rewrite (isin_step_all_selected df _ "CATEGORIA") by done.
  rewrite (isin_step_all_selected df _ "TIPO_DOC") by done.
  rewrite (isin_step_all_selected df _ "NOME_TAREFA") by done.
  rewrite (isin_step_all_selected df _ "TAREFA_CONSOLIDADA") by done.
  by apply date_step_spans.
Qed.

(** ** An empty selection *)

Lemma isin_step_empty_is_all df0 df col :
  narrowed df0 df → isin_step col [] df = isin_step col (unique col df0) df.
Proof.
  intros Hn. rewrite isin_step_nil. symmetry.
  eapply isin_step_all_selected; [apply unique_all_selected|done].
Qed.

(** ** Row-wise steps of the loader *)

Lemma related_refl (R : gmap string cell → gmap string cell → Prop) rs :
  (∀ r, R r r) → related R rs rs.
Proof. intros HR. induction rs; constructor; auto. Qed.

Lemma related_fmap (R : gmap string cell → gmap string cell → Prop) f rs :
  (∀ r, R r (f r)) → related R rs (prod_map id f <$> rs).
Proof. intros HR. induction rs as [|[i r] rs IH]; constructor; auto. Qed.

Lemma related_trans (R1 R2 R3 : gmap string cell → gmap string cell → Prop)
    rs1 rs2 rs3 :
  (∀ a b c, R1 a b → R2 b c → R3 a c) →
  related R1 rs1 rs2 → related R2 rs2 rs3 → related R3 rs1 rs3.
Proof.
  intros HR H12. revert rs3.
  induction H12 as [|x y l1 l2 [Hi Hxy] _ IH]; intros rs3 H23;
    inversion H23 as [|? z ? l3 [Hi' Hyz] H23']; subst; constructor.
  - split; [congruence|eauto].
  - by apply IH.
Qed.

Lemma related_and (R1 R2 : gmap string cell → gmap string cell → Prop) rs rs' :
  related R1 rs rs' → related R2 rs rs' →
  related (λ r r', R1 r r' ∧ R2 r r') rs rs'.
Proof.
  intros H1. induction H1 as [|x y l1 l2 [Hi Hxy] _ IH]; intros H2;
    inversion H2 as [|? ? ? ? [_ Hxy'] H2']; subst; constructor.
  - by repeat split.
  - by apply IH.
Qed.

Lemma related_elem_of R rs rs' i r :
  related R rs rs' → (i, r) ∈ rs → ∃ r', (i, r') ∈ rs' ∧ R r r'.
Proof.
  intros Hrel. induction Hrel as [|x [j r'] l1 l2 [Hi Hxy] _ IH]; intros Hin.
  - by apply elem_of_nil in Hin.
  - apply elem_of_cons in Hin as [<-|Hin].
    + simpl in *. subst j. exists r'. split; [by left|done].
    + destruct (IH Hin) as (r'' & ? & ?). exists r''. split; [by right|done].
Qed.

Lemma related_elem_of_r R rs rs' i r' :
  related R rs rs' → (i, r') ∈ rs' → ∃ r, (i, r) ∈ rs ∧ R r r'.
Proof.
  intros Hrel. induction Hrel as [|[j r] y l1 l2 [Hi Hxy] _ IH]; intros Hin.
  - by apply elem_of_nil in Hin.
  - apply elem_of_cons in Hin as [<-|Hin].
    + simpl in *. subst j. exists r. split; [by left|done].
    + destruct (IH Hin) as (r'' & ? & ?). exists r''. split; [by right|done].
Qed.

(** Filtering related rows by equivalent tests keeps the same labels. *)
Lemma related_filter_labels R (P Q : nat * gmap string cell → bool) rs rs' :
  related R rs rs' →
  (∀ i r r', R r r' → P (i, r) = Q (i, r')) →
  (filter (λ x, P x) rs).*1 = (filter (λ y, Q y) rs').*1.
Proof.
  intros Hrel HPQ.
  induction Hrel as [|[i r] [j r'] l1 l2 [Hi Hxy] _ IH]; [done|].
  simpl in *. subst j. rewrite !filter_cons, (HPQ i r r' Hxy).
  destruct (Q (i, r')).
  - rewrite !decide_True by done. rewrite !fmap_cons. by rewrite IH.
  - rewrite !decide_False by (by intros []). done.
Qed.

Lemma keeps_id k : keeps k id.
Proof. intros df. split; [done|]. by apply related_refl. Qed.

Lemma keeps_compose k f g :
  keeps k f → keeps k g → keeps k (λ df, g (f df)).
Proof.
  intros Hf Hg df. destruct (Hf df) as [Hc Hr], (Hg (f df)) as [Hc' Hr'].
  split; [simpl; congruence|].
  eapply related_trans; [|done..]. simpl. congruence.
Qed.

Lemma keeps_guard k (g : DataFrame → bool) f :
  keeps k f → keeps k (λ df, if g df then f df else df).
Proof. intros Hf df. destruct (g df); [apply Hf|apply keeps_id]. Qed.

Lemma keeps_fold_left {A} k (step : DataFrame → A → DataFrame) (l : list A) :
  Forall (λ x, keeps k (λ df, step df x)) l →
  keeps k (λ df, fold_left step l df).
Proof.
  induction 1 as [|x l Hx _ IH]; simpl; [apply keeps_id|].
  apply (keeps_compose k (λ df, step df x) (λ df, fold_left step l df)); done.
Qed.

Lemma keeps_rename k old_col new_col :
  (k ≠ old_col ∧ k ≠ new_col) ∨ old_col = new_col →
  keeps k (rename old_col new_col).
Proof.
  intros Hk df. unfold rename, col_in; simpl. split.
  - apply bool_decide_ext. rewrite list_elem_of_fmap. split.
    + intros (c & Heq & Hc). case_decide as Hco; subst; [|done].
      by destruct Hk as [[_ ?]| <-].
    + intros Hc. exists k. split; [|done]. case_decide as Hco; [|done].
      subst. by destruct Hk as [[? _]| <-].
  - apply related_fmap. intros r.
    destruct (decide (k = new_col)) as [->|Hne].
    + destruct Hk as [[_ ?]| ->]; [done|]. by rewrite lookup_total_insert_eq.
    + rewrite lookup_total_insert_ne by done.
      destruct (decide (k = old_col)) as [->|Hne'].
      * destruct Hk as [[? _]| ->]; done.
      * by rewrite lookup_total_delete_ne.
Qed.

Lemma col_in_setitem k col f df :
  col_in k (setitem col f df) = col_in k df || bool_decide (k = col).
Proof.
  unfold setitem, col_in; simpl.
  destruct (bool_decide (col ∈ columns df)) eqn:Hc.
  - apply bool_decide_eq_true in Hc.
    destruct (bool_decide (k ∈ columns df)) eqn:Hk; [done|].
    apply bool_decide_eq_false in Hk. symmetry. apply bool_decide_eq_false.
    by intros ->.
  - apply eq_true_iff_eq.
    rewrite orb_true_iff, !bool_decide_eq_true, elem_of_app, list_elem_of_singleton.
    done.
Qed.

Lemma keeps_setitem k col f : k ≠ col → keeps k (setitem col f).
Proof.
  intros Hk df. split.
  - rewrite col_in_setitem. rewrite (bool_decide_eq_false_2 (k = col)) by done.
    apply orb_false_r.
  - apply related_fmap. intros r. by rewrite lookup_total_insert_ne.
Qed.

(** A column assigned from its own cells. *)
Lemma setitem_related col g df :
  related (λ r r', r' !!! col = g (r !!! col))
    (rows df) (rows (setitem col (λ r, g (r !!! col)) df)).
Proof. apply related_fmap. intros r. by rewrite lookup_total_insert_eq. Qed.

(** ** The loader, stage by stage *)

(** The stages stay folded under [simpl]: unfolded, the thirteen guarded
    renamings copy the frame at every guard. *)
Arguments rename_columns : simpl never.
Arguments parse_dates : simpl never.
Arguments parsed_dates : simpl never.
Arguments derive_fields : simpl never.
Arguments coerce_valor : simpl never.
Arguments prepared : simpl never.
Arguments load_data_try : simpl never.

(** A literal label is none of the literal labels of a list. *)
Ltac solve_not_in :=
  unfold date_columns;
  rewrite ?not_elem_of_cons; repeat split; try discriminate;
  apply not_elem_of_nil.

(** Decides, entry by entry, that a list of renamings leaves a label alone. *)
Ltac solve_mapping :=
  match goal with
  | |- Forall _ ?l => let l' := eval vm_compute in l in change l with l'
  end;
  repeat (apply Forall_cons_2;
          [simpl; first [left; split; discriminate | by right]|]);
  apply Forall_nil_2.

Lemma keeps_rename_step k old_col new_col :
  (k ≠ old_col ∧ k ≠ new_col) ∨ old_col = new_col →
  keeps k (λ df, if col_in old_col df then rename old_col new_col df else df).
Proof. intros. by apply (keeps_guard k (col_in old_col)), keeps_rename. Qed.

Lemma keeps_rename_steps k (mapping : list (string * string)) :
  Forall (λ on, (k ≠ on.1 ∧ k ≠ on.2) ∨ on.1 = on.2) mapping →
  keeps k (λ df, fold_left (λ df '(old_col, new_col),
                   if col_in old_col df then rename old_col new_col df else df)
                 mapping df).
Proof.
  intros Hall. apply keeps_fold_left.
  eapply Forall_impl; [done|]. intros [o n] Hon; simpl in *.
  by apply keeps_rename_step.
Qed.

Lemma keeps_rename_columns k :
  Forall (λ on, (k ≠ on.1 ∧ k ≠ on.2) ∨ on.1 = on.2) column_mapping →
  keeps k rename_columns.
Proof. apply keeps_rename_steps. Qed.

Lemma keeps_setitem_after k col f step :
  k ≠ col → keeps k step → keeps k (λ df, setitem col f (step df)).
Proof.
  intros Hk Hs. by apply (keeps_compose k step (setitem col f)), keeps_setitem.
Qed.

Lemma keeps_derive_fields k :
  k ∉ ["ANO"; "MES"; "MES_ANO"; "MES_NOME"; "ANO_MES"] → keeps k derive_fields.
Proof.
  intros Hk. apply (keeps_guard k (col_in "DATA_VENCIMENTO")).
  repeat (apply keeps_setitem_after; [intros ->; apply Hk; set_solver|]).
  apply keeps_id.
Qed.

Lemma fold_left_cons {A B} (f : A → B → A) x l a :
  fold_left f (x :: l) a = fold_left f l (f a x).
Proof. reflexivity. Qed.

(** *** The labels through the renaming *)

Lemma fmap_fixed {A} (f : A → A) (l : list A) :
  (∀ x, x ∈ l → f x = x) → f <$> l = l.
Proof.
  induction l as [|x l IH]; intros Hf; [done|].
  rewrite fmap_cons, Hf, IH; [done| |by left].
  intros y Hy. apply Hf. by right.
Qed.

Lemma columns_rename_step old_col new_col df :
  columns (if col_in old_col df then rename old_col new_col df else df) =
  (λ c, if decide (c = old_col) then new_col else c) <$> columns df.
Proof.
  destruct (col_in old_col df) eqn:Hc; [done|].
  symmetry. apply fmap_fixed. intros c Hin.
  apply bool_decide_eq_false in Hc. case_decide; [by subst|done].
Qed.

Lemma columns_rename_steps mapping df :
  columns (fold_left (λ df '(old_col, new_col),
                        if col_in old_col df then rename old_col new_col df
                        else df) mapping df) =
  renamed mapping <$> columns df.
Proof.
  unfold renamed. revert df.
  induction mapping as [|[o n] mapping IH]; intros df.
  - cbn [fold_left]. by rewrite list_fmap_id.
  - rewrite fold_left_cons, IH, columns_rename_step, <-list_fmap_compose.
    done.
Qed.

Lemma renamed_fixed mapping c :
  Forall (λ on, c ≠ on.1 ∨ on.1 = on.2) mapping → renamed mapping c = c.
Proof.
  unfold renamed. induction 1 as [|[o n] mapping Hon _ IH]; [done|].
  rewrite fold_left_cons. cbn [fst snd] in Hon.
  case_decide as Hco; [|done].
  destruct Hon as [?| <-]; [done|]. by subst.
Qed.

Lemma renamed_mapped mapping c :
  chain_free mapping → renamed mapping c = default c (mapped mapping c).
Proof.
  revert c. induction mapping as [|[o n] mapping IH]; intros c Hfree; [done|].
  destruct Hfree as [Hn Hfree]. cbn [mapped].
  unfold renamed. rewrite fold_left_cons. fold (renamed mapping).
  case_decide as Hco.
  - by apply renamed_fixed.
  - by apply IH.
Qed.

(** Decides, entry by entry, that a new name is not renamed later. *)
Ltac solve_chain :=
  repeat (apply Forall_cons_2; [cbn [fst snd]; first [left; discriminate | by right]|]);
  apply Forall_nil_2.

Lemma chain_free_column_mapping : chain_free column_mapping.
Proof.
  unfold column_mapping. cbn [chain_free].
  repeat (split; [solve_chain|]). done.
Qed.

Lemma columns_setitem col f df :
  columns (setitem col f df) = add_label (columns df) col.
Proof. reflexivity. Qed.

Lemma add_label_present cs c : c ∈ cs → add_label cs c = cs.
Proof. intros Hc. unfold add_label. by rewrite bool_decide_eq_true_2. Qed.

Lemma columns_rename_columns sheet :
  columns (rename_columns sheet) = canonical <$> columns sheet.
Proof.
  unfold rename_columns. rewrite columns_rename_steps.
  apply list_fmap_ext. intros i c _.
  apply renamed_mapped, chain_free_column_mapping.
Qed.

Lemma columns_setitem_present col f df :
  col_in col df = true → columns (setitem col f df) = columns df.
Proof.
  intros Hc. rewrite columns_setitem. apply add_label_present.
  by apply bool_decide_eq_true in Hc.
Qed.

Lemma length_filter_fmap {A B} (f : A → B) (P : B → Prop)
    `{∀ y, Decision (P y)} (l : list A) :
  length (filter P (f <$> l)) = length (filter (λ x, P (f x)) l).
Proof.
  induction l as [|x l IH]; [done|].
  rewrite fmap_cons, !filter_cons. destruct (decide (P (f x))); simpl; by rewrite IH.
Qed.

Lemma duplicated_rename_columns col sheet :
  duplicated col (rename_columns sheet) =
  negb (bool_decide
          (length (filter (λ c, canonical c = col) (columns sheet)) ≤ 1)%nat).
Proof.
  unfold duplicated. rewrite columns_rename_columns.
  rewrite length_filter_fmap.
  repeat case_bool_decide; try done; lia.
Qed.

(** Rows related on a column hold the same cells there. *)
Lemma related_cells k (f : gmap string cell → cell) rs rs' :
  related (λ r r', r' !!! k = f r) rs rs' →
  cells k rs' = (λ ir, f ir.2) <$> rs.
Proof.
  unfold cells. induction 1 as [|x y l1 l2 [_ Hxy] _ IH]; [done|].
  cbn [fmap list_fmap]. by rewrite Hxy, IH.
Qed.

Section LoaderStages.

Variable parse_datetime : list cell → string → option (date * Z).
Variable epoch_datetime : list cell → Z → option (date * Z).
Variable parse_numeric : string → option Z.

#[local] Abbreviation to_datetime := (to_datetime parse_datetime epoch_datetime).
#[local] Abbreviation to_numeric := (to_numeric parse_numeric).
#[local] Abbreviation parse_date := (parse_date parse_datetime epoch_datetime).
#[local] Abbreviation parse_dates := (parse_dates parse_datetime epoch_datetime).
#[local] Abbreviation parsed_dates := (parsed_dates parse_datetime epoch_datetime).
#[local] Abbreviation coerce_valor := (coerce_valor parse_numeric).
#[local] Abbreviation prepared := (prepared parse_datetime epoch_datetime parse_numeric).
#[local] Abbreviation load_data_try :=
  (load_data_try parse_datetime epoch_datetime parse_numeric).
#[local] Abbreviation load_data := (load_data parse_datetime epoch_datetime parse_numeric).

Lemma load_data_try_stages sheet :
  load_data_try (Ok sheet) =
  (df ← parse_dates (rename_columns sheet);
   df ← dropna ["VALOR"] (coerce_valor (derive_fields df));
   Ok df).
Proof.
  unfold load_data_try, coerce_valor, derive_fields, parse_dates,
    rename_columns.
  cbv zeta. unfold mbind, result_bind. reflexivity.
Qed.

(** *** The date columns *)

(** Coercing the dates raises exactly when a date label of the frame is
    duplicated. *)
Lemma parse_dates_spec df :
  parse_dates df =
  if existsb (λ col, col_in col df && duplicated col df) date_columns
  then Raise (ValueError "cannot assemble with duplicate keys")
  else Ok (parsed_dates df).
Proof.
  unfold parse_dates, parsed_dates, date_columns.
  rewrite !fold_left_cons. cbn [fold_left existsb].
  unfold mbind, result_bind, parse_date.
  rewrite orb_false_r.
  destruct (col_in "DATA_EMISSAO" df) eqn:He; cbn [andb orb].
  - destruct (duplicated "DATA_EMISSAO" df); cbn [orb]; [done|].
    set (df1 := setitem "DATA_EMISSAO" _ df).
    assert (columns df1 = columns df) as Hcols
      by (by apply columns_setitem_present).
    assert (col_in "DATA_VENCIMENTO" df1 = col_in "DATA_VENCIMENTO" df) as ->
      by (unfold col_in; by rewrite Hcols).
    assert (duplicated "DATA_VENCIMENTO" df1 = duplicated "DATA_VENCIMENTO" df)
      as -> by (unfold duplicated; by rewrite Hcols).
    destruct (col_in "DATA_VENCIMENTO" df); [|done].
    by destruct (duplicated "DATA_VENCIMENTO" df).
  - destruct (col_in "DATA_VENCIMENTO" df); [|done].
    by destruct (duplicated "DATA_VENCIMENTO" df).
Qed.

Lemma parse_dates_distinct sheet :
  date_headers_distinct sheet = true →
  parse_dates (rename_columns sheet) = Ok (parsed_dates (rename_columns sheet)).
Proof.
  intros Hd. rewrite parse_dates_spec.
  assert (existsb (λ col, col_in col (rename_columns sheet)
                          && duplicated col (rename_columns sheet))
            date_columns = false) as ->; [|done].
  apply not_true_is_false. intros (col & Hin & Hc)%existsb_exists.
  unfold date_headers_distinct in Hd. rewrite forallb_forall in Hd.
  specialize (Hd col Hin).
  apply andb_true_iff in Hc as [_ Hc].
  rewrite duplicated_rename_columns in Hc. by rewrite Hd in Hc.
Qed.

Lemma parse_dates_clash sheet :
  date_headers_distinct sheet = false →
  parse_dates (rename_columns sheet) =
  Raise (ValueError "cannot assemble with duplicate keys").
Proof.
  intros Hd. rewrite parse_dates_spec.
  assert (existsb (λ col, col_in col (rename_columns sheet)
                          && duplicated col (rename_columns sheet))
            date_columns = true) as ->; [|done].
  apply not_true_iff_false in Hd. apply not_false_iff_true. intros Hex.
  apply Hd. unfold date_headers_distinct. apply forallb_forall.
  intros col Hin.
  destruct (bool_decide _) eqn:Hb; [done|]. exfalso.
  apply not_true_iff_false in Hex. apply Hex, existsb_exists.
  exists col. split; [done|].
  rewrite duplicated_rename_columns, Hb. cbn [negb]. rewrite andb_true_r.
  unfold col_in. rewrite columns_rename_columns. apply bool_decide_eq_true.
  apply bool_decide_eq_false in Hb.
  destruct (filter (λ c, canonical c = col) (columns sheet)) as [|c l] eqn:Hf;
    [cbn in Hb; lia|].
  assert (c ∈ filter (λ c, canonical c = col) (columns sheet)) as Hc
    by (rewrite Hf; by left).
  apply list_elem_of_filter in Hc as [<- Hc]. by apply list_elem_of_fmap_2.
Qed.

Lemma keeps_parsed_dates k :
  k ∉ date_columns → keeps k parsed_dates.
Proof.
  intros Hk. unfold parsed_dates, date_columns. intros df.
  rewrite !fold_left_cons. cbn [fold_left].
  assert (∀ col cs, col ∈ date_columns →
            keeps k (λ d, if col_in col d
                          then setitem col (λ r, to_datetime cs (r !!! col)) d
                          else d)) as Hstep.
  { intros col cs Hcol. apply (keeps_guard k (col_in col)), keeps_setitem.
    by intros ->. }
  destruct (Hstep "DATA_EMISSAO" (column "DATA_EMISSAO" df)
              ltac:(set_solver) df) as [Hc1 Hr1].
  cbv beta in Hc1, Hr1.
  set (df1 := if col_in "DATA_EMISSAO" df then _ else df) in *.
  destruct (Hstep "DATA_VENCIMENTO" (column "DATA_VENCIMENTO" df1)
              ltac:(set_solver) df1) as [Hc2 Hr2].
  cbv beta in Hc2, Hr2. split; [congruence|].
  eapply related_trans; [|exact Hr1|exact Hr2].
  cbv beta. congruence.
Qed.

Lemma keeps_coerce_valor k : k ≠ "VALOR" → keeps k coerce_valor.
Proof.
  intros Hk. by apply (keeps_guard k (col_in "VALOR")), keeps_setitem.
Qed.

(** *** [dropna] on the amount column *)

Lemma dropna_valor df :
  col_in "VALOR" df = true →
  dropna ["VALOR"] df = Ok (loc (λ r, negb (isna (r !!! "VALOR"))) df).
Proof.
  intros Hc. unfold dropna. apply bool_decide_eq_true in Hc.
  rewrite filter_cons_False, filter_nil by (by intros []).
  f_equal. apply loc_ext. intros ir _. simpl. by rewrite andb_true_r.
Qed.

Lemma dropna_valor_missing df :
  col_in "VALOR" df = false →
  dropna ["VALOR"] df = Raise (KeyError ["VALOR"]).
Proof.
  intros Hc. unfold dropna. apply bool_decide_eq_false in Hc.
  by rewrite filter_cons_True, filter_nil.
Qed.

(** *** The amount column through the stages *)

Lemma keeps_valor_before_coercion :
  keeps "VALOR" (λ df, derive_fields (parsed_dates (rename_columns df))).
Proof.
  assert (keeps "VALOR" rename_columns) as H1.
  { apply keeps_rename_columns. solve_mapping. }
  assert (keeps "VALOR" parsed_dates) as H2.
  { apply keeps_parsed_dates. solve_not_in. }
  assert (keeps "VALOR" derive_fields) as H3.
  { apply keeps_derive_fields. solve_not_in. }
  exact (keeps_compose "VALOR" (λ df, parsed_dates (rename_columns df))
           derive_fields
           (keeps_compose "VALOR" rename_columns parsed_dates H1 H2) H3).
Qed.

Lemma col_in_valor_prepared sheet :
  col_in "VALOR" (prepared sheet) = col_in "VALOR" sheet.
Proof.
  destruct (keeps_valor_before_coercion sheet) as [Hc _]. cbv beta in Hc.
  unfold prepared, coerce_valor. rewrite Hc.
  destruct (col_in "VALOR" sheet) eqn:Hs; [|done].
  by rewrite col_in_setitem, Hc.
Qed.

Lemma prepared_valor sheet :
  col_in "VALOR" sheet = true →
  related (λ r r', r' !!! "VALOR" = to_numeric (r !!! "VALOR"))
    (rows sheet) (rows (prepared sheet)).
Proof.
  intros Hc. destruct (keeps_valor_before_coercion sheet) as [Hc' Hr].
  cbv beta in Hc', Hr.
  unfold prepared, coerce_valor. rewrite Hc', Hc.
  eapply related_trans; [|exact Hr|apply setitem_related].
  simpl. intros a b c -> ->. done.
Qed.

Lemma bind_Ok {A B} (f : A → result B) (a : A) : (x ← Ok a; f x) = f a.
Proof. reflexivity. Qed.

Lemma bind_Raise {A B} (f : A → result B) (e : exn) :
  (x ← Raise e; f x) = Raise e.
Proof. reflexivity. Qed.

Lemma prepared_unfold sheet :
  prepared sheet =
  coerce_valor (derive_fields (parsed_dates (rename_columns sheet))).
Proof. reflexivity. Qed.

Lemma load_data_try_ok sheet :
  col_in "VALOR" sheet = true →
  date_headers_distinct sheet = true →
  load_data_try (Ok sheet) =
  Ok (loc (λ r, negb (isna (r !!! "VALOR"))) (prepared sheet)).
Proof.
  intros Hc Hd. rewrite load_data_try_stages, parse_dates_distinct by done.
  rewrite bind_Ok, <-prepared_unfold, dropna_valor; [done|].
  by rewrite col_in_valor_prepared.
Qed.

Lemma load_data_try_no_valor sheet :
  col_in "VALOR" sheet = false →
  date_headers_distinct sheet = true →
  load_data_try (Ok sheet) = Raise (KeyError ["VALOR"]).
Proof.
  intros Hc Hd. rewrite load_data_try_stages, parse_dates_distinct by done.
  rewrite bind_Ok, <-prepared_unfold, dropna_valor_missing; [done|].
  by rewrite col_in_valor_prepared.
Qed.

Lemma load_data_try_clash sheet :
  date_headers_distinct sheet = false →
  load_data_try (Ok sheet) =
  Raise (ValueError "cannot assemble with duplicate keys").
Proof.
  intros Hd. by rewrite load_data_try_stages, parse_dates_clash, bind_Raise.
Qed.

Lemma load_data_try_inv read df :
  load_data_try read = Ok df →
  ∃ sheet, read = Ok sheet ∧ col_in "VALOR" sheet = true ∧
           date_headers_distinct sheet = true ∧
           df = loc (λ r, negb (isna (r !!! "VALOR"))) (prepared sheet).
Proof.
  destruct read as [sheet|e]; [|done]. intros Hl. exists sheet.
  destruct (date_headers_distinct sheet) eqn:Hd.
  - destruct (col_in "VALOR" sheet) eqn:Hc.
    + rewrite load_data_try_ok in Hl by done. by simplify_eq.
    + by rewrite load_data_try_no_valor in Hl.
  - by rewrite load_data_try_clash in Hl.
Qed.

(** *** The due-date column through the stages *)

Lemma column_mapping_split :
  column_mapping =
  take 7 column_mapping ++
  ("DATA VENCIMENTO", "DATA_VENCIMENTO") :: drop 8 column_mapping.
Proof. reflexivity. Qed.

Lemma rename_columns_split df :
  rename_columns df =
  fold_left (λ df '(old_col, new_col),
               if col_in old_col df then rename old_col new_col df else df)
    (drop 8 column_mapping)
    (let df' :=
       fold_left (λ df '(old_col, new_col),
                    if col_in old_col df then rename old_col new_col df else df)
         (take 7 column_mapping) df in
     if col_in "DATA VENCIMENTO" df'
     then rename "DATA VENCIMENTO" "DATA_VENCIMENTO" df' else df').
Proof.
  unfold rename_columns. rewrite column_mapping_split at 1.
  rewrite fold_left_app, fold_left_cons. reflexivity.
Qed.

Lemma rename_due_related df :
  related (λ r r', r' !!! "DATA_VENCIMENTO" = r !!! "DATA VENCIMENTO")
    (rows df) (rows (rename "DATA VENCIMENTO" "DATA_VENCIMENTO" df)).
Proof. apply related_fmap. intros r. by rewrite lookup_total_insert_eq. Qed.

Lemma col_in_rename_new old_col new_col df :
  col_in old_col df = true → col_in new_col (rename old_col new_col df) = true.
Proof.
  unfold col_in, rename; simpl. rewrite !bool_decide_eq_true. intros Hc.
  apply list_elem_of_fmap. exists old_col. by rewrite decide_True.
Qed.

Lemma rename_columns_due sheet :
  col_in "DATA_VENCIMENTO" (rename_columns sheet) =
    col_in "DATA VENCIMENTO" sheet || col_in "DATA_VENCIMENTO" sheet ∧
  related (λ r r', r' !!! "DATA_VENCIMENTO" = due_cell sheet r)
    (rows sheet) (rows (rename_columns sheet)).
Proof.
  pose proof (keeps_rename_steps "DATA VENCIMENTO" (take 7 column_mapping))
    as Hpre.
  pose proof (keeps_rename_steps "DATA_VENCIMENTO" (take 7 column_mapping))
    as Hpre'.
  pose proof (keeps_rename_steps "DATA_VENCIMENTO" (drop 8 column_mapping))
    as Hpost.
  specialize (Hpre ltac:(solve_mapping)).
  specialize (Hpre' ltac:(solve_mapping)).
  specialize (Hpost ltac:(solve_mapping)).
  destruct (Hpre sheet) as [Hc Hr], (Hpre' sheet) as [Hc' Hr'].
  cbv beta in Hc, Hr, Hc', Hr'.
  rewrite rename_columns_split. cbv zeta.
  set (pre := fold_left _ (take 7 column_mapping) sheet) in *.
  unfold due_cell. rewrite Hc.
  destruct (col_in "DATA VENCIMENTO" sheet) eqn:Hs; cbn [orb].
  - destruct (Hpost (rename "DATA VENCIMENTO" "DATA_VENCIMENTO" pre))
      as [Hc2 Hr2].
    cbv beta in Hc2, Hr2. split.
    + rewrite Hc2. by apply col_in_rename_new.
    + apply (related_trans
               (λ r r', r' !!! "DATA VENCIMENTO" = r !!! "DATA VENCIMENTO")
               (λ r r', r' !!! "DATA_VENCIMENTO" = r !!! "DATA VENCIMENTO")
               _ _ (rows pre)); [|exact Hr|].
      { intros a b c H1 H2. by rewrite H2, H1. }
      apply (related_trans
               (λ r r', r' !!! "DATA_VENCIMENTO" = r !!! "DATA VENCIMENTO")
               (λ r r', r' !!! "DATA_VENCIMENTO" = r !!! "DATA_VENCIMENTO")
               _ _ (rows (rename "DATA VENCIMENTO" "DATA_VENCIMENTO" pre)));
        [|apply rename_due_related|exact Hr2].
      intros a b c H1 H2. by rewrite H2, H1.
  - destruct (Hpost pre) as [Hc2 Hr2]. cbv beta in Hc2, Hr2. split.
    + by rewrite Hc2, Hc'.
    + apply (related_trans
               (λ r r', r' !!! "DATA_VENCIMENTO" = r !!! "DATA_VENCIMENTO")
               (λ r r', r' !!! "DATA_VENCIMENTO" = r !!! "DATA_VENCIMENTO")
               _ _ (rows pre)); [|exact Hr'|exact Hr2].
      intros a b c H1 H2. by rewrite H2, H1.
Qed.

Lemma parsed_dates_due df :
  col_in "DATA_VENCIMENTO" (parsed_dates df) = col_in "DATA_VENCIMENTO" df ∧
  (col_in "DATA_VENCIMENTO" df = true →
   related (λ r r', r' !!! "DATA_VENCIMENTO" =
                      to_datetime (column "DATA_VENCIMENTO" df)
                        (r !!! "DATA_VENCIMENTO"))
     (rows df) (rows (parsed_dates df))).
Proof.
  unfold parsed_dates, date_columns.
  rewrite !fold_left_cons. cbn [fold_left].
  set (df1 := if col_in "DATA_EMISSAO" df then _ else df).
  assert (col_in "DATA_VENCIMENTO" df1 = col_in "DATA_VENCIMENTO" df ∧
          related (λ r r', r' !!! "DATA_VENCIMENTO" = r !!! "DATA_VENCIMENTO")
            (rows df) (rows df1)) as [Hc Hr].
  { apply (keeps_guard _ (col_in "DATA_EMISSAO")
             (setitem "DATA_EMISSAO"
                (λ r, to_datetime (column "DATA_EMISSAO" df)
                        (r !!! "DATA_EMISSAO")))).
    by apply keeps_setitem. }
  rewrite Hc. split.
  - case_match; [|done]. rewrite col_in_setitem. by rewrite Hc, orb_true_r.
  - intros Hd. rewrite Hd.
    assert (column "DATA_VENCIMENTO" df1 = column "DATA_VENCIMENTO" df) as ->.
    { unfold column. rewrite (related_cells _ _ _ _ Hr). done. }
    eapply related_trans; [|exact Hr|
      exact (setitem_related "DATA_VENCIMENTO"
               (to_datetime (column "DATA_VENCIMENTO" df)) df1)].
    simpl. intros a b c -> ->. done.
Qed.

Lemma keeps_due_after_dates :
  keeps "DATA_VENCIMENTO" (λ df, coerce_valor (derive_fields df)).
Proof.
  assert (keeps "DATA_VENCIMENTO" derive_fields) as H1.
  { apply keeps_derive_fields. solve_not_in. }
  assert (keeps "DATA_VENCIMENTO" coerce_valor) as H2.
  { by apply keeps_coerce_valor. }
  exact (keeps_compose "DATA_VENCIMENTO" derive_fields coerce_valor H1 H2).
Qed.

Lemma prepared_due sheet :
  col_in "DATA_VENCIMENTO" (prepared sheet) =
    col_in "DATA VENCIMENTO" sheet || col_in "DATA_VENCIMENTO" sheet ∧
  (col_in "DATA VENCIMENTO" sheet || col_in "DATA_VENCIMENTO" sheet = true →
   related (λ r r', r' !!! "DATA_VENCIMENTO" =
                      to_datetime (due_cells sheet) (due_cell sheet r))
     (rows sheet) (rows (prepared sheet))).
Proof.
  destruct (rename_columns_due sheet) as [Hc1 Hr1].
  destruct (parsed_dates_due (rename_columns sheet)) as [Hc2 Hr2].
  destruct (keeps_due_after_dates (parsed_dates (rename_columns sheet)))
    as [Hc3 Hr3]. cbv beta in Hc3, Hr3.
  unfold prepared. split; [congruence|].
  intros Hd. rewrite Hc1 in Hr2. specialize (Hr2 Hd).
  assert (column "DATA_VENCIMENTO" (rename_columns sheet) = due_cells sheet)
    as Hcol.
  { unfold column. by rewrite (related_cells _ _ _ _ Hr1). }
  rewrite Hcol in Hr2.
  eapply related_trans; [|exact Hr1|].
  2:{ eapply related_trans; [|exact Hr2|exact Hr3].
      simpl. intros a b c H1 H2. exact (eq_trans H2 H1). }
  simpl. intros a b c -> ->. done.
Qed.

(** *** The derived fields *)

Lemma derive_fields_derived df :
  col_in "DATA_VENCIMENTO" df = true →
  Forall (λ ir, derived_from_due ir.2) (rows (derive_fields df)).
Proof.
  intros Hc. unfold derive_fields. rewrite Hc. unfold setitem; simpl.
  rewrite <-!list_fmap_compose. apply Forall_fmap, Forall_true.
  intros [i r]. unfold derived_from_due; simpl.
  repeat split;
    repeat first [rewrite lookup_total_insert_eq
                 |rewrite lookup_total_insert_ne by discriminate]; done.
Qed.

Lemma derived_from_due_valor r v :
  derived_from_due r → derived_from_due (<["VALOR" := v]> r).
Proof.
  unfold derived_from_due.
  by rewrite !lookup_total_insert_ne by discriminate.
Qed.

Lemma prepared_derived sheet :
  col_in "DATA_VENCIMENTO" (prepared sheet) = true →
  Forall (λ ir, derived_from_due ir.2) (rows (prepared sheet)).
Proof.
  destruct (keeps_due_after_dates (parsed_dates (rename_columns sheet)))
    as [Hc _]. cbv beta in Hc.
  unfold prepared. rewrite Hc. intros Hd.
  apply derive_fields_derived in Hd. revert Hd.
  generalize (derive_fields (parsed_dates (rename_columns sheet))).
  intros df Hd. unfold coerce_valor. case_match; [|done].
  unfold setitem; simpl. apply Forall_fmap.
  eapply Forall_impl; [done|]. intros [i r]; simpl.
  apply derived_from_due_valor.
Qed.

(** *** What a loaded frame holds *)

Lemma load_data_fst_ok sheet :
  col_in "VALOR" sheet = true →
  date_headers_distinct sheet = true →
  load_data (Ok sheet) =
  (loc (λ r, negb (isna (r !!! "VALOR"))) (prepared sheet), []).
Proof. intros Hc Hd. unfold load_data. by rewrite load_data_try_ok. Qed.

Lemma to_datetime_dtype cs c :
  to_datetime cs c = NaT ∨ is_timestamp (to_datetime cs c) = true.
Proof.
  destruct c; simpl; auto.
  - destruct (parse_datetime cs s); simpl; auto.
  - destruct (epoch_datetime cs z); simpl; auto.
Qed.

Lemma to_numeric_dtype c :
  to_numeric c = NaN ∨ ∃ z, to_numeric c = Num z.
Proof.
  destruct c; simpl; eauto.
  destruct (parse_numeric s); simpl; eauto.
Qed.

(** After [load_data] the due-date column is datetime64 (timestamps and
    [NaT]) and the amount column holds numbers only. *)
Lemma load_data_dtypes read :
  let df := (load_data read).1 in
  Forall (λ ir, ∃ z, ir.2 !!! "VALOR" = Num z) (rows df) ∧
  (col_in "DATA_VENCIMENTO" df = true →
   Forall (λ ir, ir.2 !!! "DATA_VENCIMENTO" = NaT ∨
                 is_timestamp (ir.2 !!! "DATA_VENCIMENTO") = true) (rows df)).
Proof.
  unfold load_data.
  destruct (load_data_try read) as [df|e] eqn:Hl; simpl.
  2:{ split; [constructor|]. intros _. constructor. }
  apply load_data_try_inv in Hl as (sheet & -> & Hc & _ & ->).
  split.
  - apply Forall_forall. intros [i r'] [Hm Hin]%elem_of_rows_loc.
    destruct (related_elem_of_r _ _ _ _ _ (prepared_valor sheet Hc) Hin)
      as (r & _ & Hv). cbn [fst snd] in *.
    destruct (to_numeric_dtype (r !!! "VALOR")) as [Hn|[z Hz]].
    + by rewrite Hv, Hn in Hm.
    + exists z. by rewrite Hv.
  - rewrite col_in_loc. destruct (prepared_due sheet) as [Hd Hr].
    rewrite Hd. intros Hd'. specialize (Hr Hd').
    apply Forall_forall. intros [i r'] [_ Hin]%elem_of_rows_loc.
    destruct (related_elem_of_r _ _ _ _ _ Hr Hin) as (r & _ & Hv).
    cbn [fst snd] in *. rewrite Hv. apply to_datetime_dtype.
Qed.

End LoaderStages.

(** ** Comparisons *)

Lemma cmp_eq_r {A} (cmp : A → A → comparison) a b c :
  comparison_order cmp → cmp b c = Eq → cmp a b = cmp a c.
Proof.
  intros H Hbc.
  rewrite (cmp_antisym cmp H b a), (cmp_antisym cmp H c a). f_equal.
  symmetry. apply (cmp_eq_l cmp H).
  by rewrite (cmp_antisym cmp H), Hbc.
Qed.

Lemma comparison_order_lex {A} (cmp1 cmp2 : A → A → comparison) :
  comparison_order cmp1 → comparison_order cmp2 →
  comparison_order (lex cmp1 cmp2).
Proof.
  intros H1 H2. unfold lex. split.
  - intros a b. rewrite (cmp_antisym cmp1 H1 a b), (cmp_antisym cmp2 H2 a b).
    by destruct (cmp1 a b).
  - intros a b c o.
    destruct (cmp1 a b) eqn:Hab, (cmp1 b c) eqn:Hbc; intros Ho Ho'; subst;
      try discriminate.
    + rewrite (cmp_trans cmp1 H1 a b c Eq) by done.
      by apply (cmp_trans cmp2 H2 a b c).
    + by rewrite (cmp_eq_l cmp1 H1 a b c), Hbc.
    + by rewrite (cmp_eq_l cmp1 H1 a b c), Hbc.
    + by rewrite <-(cmp_eq_r cmp1 a b c), Hab.
    + by rewrite (cmp_trans cmp1 H1 a b c Lt).
    + by rewrite <-(cmp_eq_r cmp1 a b c), Hab.
    + by rewrite (cmp_trans cmp1 H1 a b c Gt).
  - intros a b c. destruct (cmp1 a b) eqn:Hab; try done. intros Hab2.
    rewrite (cmp_eq_l cmp1 H1 a b c) by done.
    by rewrite (cmp_eq_l cmp2 H2 a b c).
Qed.

Lemma comparison_order_pull {A B} (f : A → B) (cmp : B → B → comparison) :
  comparison_order cmp → comparison_order (λ a b, cmp (f a) (f b)).
Proof.
  intros H. split.
  - intros. apply (cmp_antisym cmp H).
  - intros a b c o. apply (cmp_trans cmp H).
  - intros a b c. apply (cmp_eq_l cmp H).
Qed.

Lemma comparison_order_flip {A} (cmp : A → A → comparison) :
  comparison_order cmp → comparison_order (λ a b, cmp b a).
Proof.
  intros H. split.
  - intros. apply (cmp_antisym cmp H).
  - intros a b c o ??. by apply (cmp_trans cmp H c b a).
  - intros a b c Hba. symmetry. by apply (cmp_eq_r cmp c b a).
Qed.

Lemma comparison_order_const {A} : comparison_order (λ _ _ : A, Eq).
Proof. split; intros; simpl; congruence. Qed.

Lemma comparison_order_Z : comparison_order Z.compare.
Proof.
  split.
  - intros. apply Z.compare_antisym.
  - intros a b c [] Hab Hbc.
    + apply Z.compare_eq_iff in Hab, Hbc. apply Z.compare_eq_iff. lia.
    + rewrite Z.compare_lt_iff in *. lia.
    + rewrite Z.compare_gt_iff in *. lia.
  - by intros a b c ->%Z.compare_eq_iff.
Qed.

Lemma comparison_order_ascii : comparison_order Ascii.compare.
Proof.
  split.
  - intros. apply Ascii.compare_antisym.
  - unfold Ascii.compare. intros a b c [] Hab Hbc.
    + apply N.compare_eq_iff in Hab, Hbc. apply N.compare_eq_iff. congruence.
    + rewrite N.compare_lt_iff in *. lia.
    + rewrite N.compare_gt_iff in *. lia.
  - by intros a b c ->%Ascii.compare_eq_iff.
Qed.

Lemma comparison_order_string : comparison_order String.compare.
Proof.
  split.
  - intros. apply String.compare_antisym.
  - intros a. induction a as [|x a IH]; intros [|y b] [|z c] o; simpl;
      try congruence.
    destruct (Ascii.compare x y) eqn:Hxy, (Ascii.compare y z) eqn:Hyz;
      intros Ho Ho'; subst; try discriminate.
    + rewrite (cmp_trans _ comparison_order_ascii x y z Eq) by done. eauto.
    + by rewrite (cmp_eq_l _ comparison_order_ascii x y z), Hyz.
    + by rewrite (cmp_eq_l _ comparison_order_ascii x y z), Hyz.
    + by rewrite <-(cmp_eq_r _ x y z comparison_order_ascii), Hxy.
    + by rewrite (cmp_trans _ comparison_order_ascii x y z Lt).
    + by rewrite <-(cmp_eq_r _ x y z comparison_order_ascii), Hxy.
    + by rewrite (cmp_trans _ comparison_order_ascii x y z Gt).
  - by intros a b c ->%String.compare_eq_iff.
Qed.

Lemma comparison_order_date : comparison_order date_compare.
Proof.
  apply (comparison_order_lex (λ a b, year a ?= year b)
           (lex (λ a b, month a ?= month b) (λ a b, day a ?= day b))).
  - apply (comparison_order_pull year), comparison_order_Z.
  - apply comparison_order_lex.
    + apply (comparison_order_pull month), comparison_order_Z.
    + apply (comparison_order_pull day), comparison_order_Z.
Qed.

Lemma comparison_order_timestamp :
  comparison_order (λ x y : date * Z,
    match date_compare x.1 y.1 with Eq => x.2 ?= y.2 | o => o end).
Proof.
  apply (comparison_order_lex (λ x y : date * Z, date_compare x.1 y.1)
           (λ x y : date * Z, x.2 ?= y.2)).
  - apply (comparison_order_pull fst), comparison_order_date.
  - apply (comparison_order_pull snd), comparison_order_Z.
Qed.

Lemma comparison_order_cell : comparison_order cell_compare.
Proof.
  pose proof comparison_order_Z as HZ.
  pose proof comparison_order_string as HS.
  pose proof comparison_order_timestamp as HT.
  split.
  - intros [| |s|z|d t] [| |s'|z'|d' t']; try reflexivity.
    + apply (cmp_antisym _ HS).
    + apply (cmp_antisym _ HZ).
    + apply (cmp_antisym _ HT (d, t) (d', t')).
  - intros [| |s|z|d t] [| |s'|z'|d' t'] [| |s''|z''|d'' t''] o;
      try (cbv; congruence).
    + apply (cmp_trans _ HS).
    + apply (cmp_trans _ HZ).
    + apply (cmp_trans _ HT (d, t) (d', t') (d'', t'')).
  - intros [| |s|z|d t] [| |s'|z'|d' t'] [| |s''|z''|d'' t''];
      try (cbv; congruence).
    + apply (cmp_eq_l _ HS).
    + apply (cmp_eq_l _ HZ).
    + apply (cmp_eq_l _ HT (d, t) (d', t') (d'', t'')).
Qed.

Lemma comparison_order_key ascending : comparison_order (key_compare ascending).
Proof.
  assert (comparison_order
            (λ a b, if ascending then cell_compare a b else cell_compare b a))
    as H.
  { destruct ascending; [|apply comparison_order_flip];
      apply comparison_order_cell. }
  unfold key_compare. split.
  - intros a b. rewrite (cmp_antisym _ H a b).
    by destruct (isna a), (isna b).
  - intros a b c o.
    destruct (isna a), (isna b), (isna c); try congruence.
    apply (cmp_trans _ H).
  - intros a b c.
    destruct (isna a), (isna b), (isna c); try done.
    apply (cmp_eq_l _ H).
Qed.

Lemma comparison_order_rows labels ascending :
  comparison_order (rows_compare labels ascending).
Proof.
  induction labels as [|c labels IH]; simpl.
  - apply comparison_order_const.
  - apply (comparison_order_lex
             (λ r1 r2, key_compare ascending (r1 !!! c) (r2 !!! c))
             (rows_compare labels ascending)); [|done].
    apply (comparison_order_pull (λ r : gmap string cell, r !!! c)),
      comparison_order_key.
Qed.

#[global] Instance sorted_before_total labels ascending :
  Total (sorted_before labels ascending).
Proof.
  intros x y. unfold sorted_before.
  rewrite (cmp_antisym _ (comparison_order_rows labels ascending) x.2 y.2).
  destruct (rows_compare labels ascending x.2 y.2); simpl; auto.
Qed.

#[global] Instance sorted_before_trans labels ascending :
  Transitive (sorted_before labels ascending).
Proof.
  pose proof (comparison_order_rows labels ascending) as H.
  intros x y z. unfold sorted_before.
  destruct (rows_compare labels ascending x.2 y.2) eqn:Hxy; [| |done].
  - rewrite (cmp_eq_l _ H _ _ _ Hxy). auto.
  - destruct (rows_compare labels ascending y.2 z.2) eqn:Hyz; [| |done].
    + rewrite <-(cmp_eq_r _ _ _ _ H Hyz), Hxy. auto.
    + rewrite (cmp_trans _ H _ _ _ Lt Hxy Hyz). auto.
Qed.

(** ** Sorting and truncating *)

Lemma sort_values_sorted labels ascending df :
  StronglySorted (sorted_before labels ascending)
    (rows (sort_values labels ascending df)).
Proof. apply StronglySorted_merge_sort; apply _. Qed.

Lemma sort_values_rows labels ascending df :
  rows (sort_values labels ascending df) ≡ₚ rows df.
Proof. apply merge_sort_Permutation. Qed.

Lemma StronglySorted_take {A} (R : relation A) n l :
  StronglySorted R l → StronglySorted R (take n l).
Proof.
  intros Hl. revert n. induction Hl as [|x l _ IH Hx]; intros [|n]; simpl;
    try constructor; auto.
  by apply Forall_take.
Qed.

Lemma StronglySorted_fmap_Forall {A B} (P : A → Prop) (f : A → B)
    (R1 : relation A) (R2 : relation B) l :
  (∀ x y, P x → P y → R1 x y → R2 (f x) (f y)) →
  Forall P l → StronglySorted R1 l → StronglySorted R2 (f <$> l).
Proof.
  intros HR HP Hl. induction Hl as [|x l _ IH Hx]; simpl; [constructor|].
  apply Forall_cons in HP as [Px HP]. constructor; [by apply IH|].
  apply Forall_fmap, Forall_forall. intros y Hy. simpl.
  rewrite Forall_forall in HP, Hx. auto.
Qed.

(** On rows whose amount is a number, the order of [sort_values('VALOR')]
    is the order of the amounts. *)
Lemma sorted_before_valor_asc x y a b :
  x.2 !!! "VALOR" = Num a → y.2 !!! "VALOR" = Num b →
  sorted_before ["VALOR"] true x y → a ≤ b.
Proof.
  intros Hx Hy. unfold sorted_before. cbn [rows_compare].
  rewrite Hx, Hy. unfold key_compare. cbn [isna cell_compare].
  destruct (Z.compare_spec a b); intros Hgt; [lia|lia|done].
Qed.

Lemma sorted_before_valor_desc x y a b :
  x.2 !!! "VALOR" = Num a → y.2 !!! "VALOR" = Num b →
  sorted_before ["VALOR"] false x y → b ≤ a.
Proof.
  intros Hx Hy. unfold sorted_before. cbn [rows_compare].
  rewrite Hx, Hy. unfold key_compare. cbn [isna cell_compare].
  destruct (Z.compare_spec b a); intros Hgt; [lia|lia|done].
Qed.

(** ** Grouping *)

Lemma group_key_has_key labels r :
  group_key labels r =
  if has_key labels r then Some ((λ c, r !!! c) <$> labels) else None.
Proof. unfold group_key, has_key. by destruct (existsb _ _). Qed.

Lemma has_key_singleton c r : has_key [c] r = negb (isna (r !!! c)).
Proof. unfold has_key. simpl. by rewrite orb_false_r. Qed.

(** *** Keys compare equal only when they are the same *)

Lemma date_compare_eq d d' : date_compare d d' = Eq → d = d'.
Proof.
  unfold date_compare. destruct d as [y m x], d' as [y' m' x']; cbn [year month day].
  destruct (Z.compare_spec y y'); try done.
  destruct (Z.compare_spec m m'); try done.
  destruct (Z.compare_spec x x'); try done.
  by subst.
Qed.

Lemma cell_compare_eq a b :
  isna a = false → isna b = false → cell_compare a b = Eq → a = b.
Proof.
  destruct a as [| |s|z|d t], b as [| |s'|z'|d' t']; try done;
    try (cbv; discriminate); cbn [cell_compare]; intros _ _.
  - by intros ->%String.compare_eq_iff.
  - by intros ->%Z.compare_eq_iff.
  - destruct (date_compare d d') eqn:Hd; try done.
    apply date_compare_eq in Hd as ->. by intros ->%Z.compare_eq_iff.
Qed.

Lemma keys_compare_eq k k' :
  na_free k = true → na_free k' = true → keys_compare k k' = Eq → k = k'.
Proof.
  revert k'. induction k as [|a k IH]; intros [|b k']; try done.
  cbn [na_free forallb keys_compare]. fold (na_free k) (na_free k').
  rewrite !andb_true_iff, !negb_true_iff. intros [Ha Hk] [Hb Hk'].
  destruct (cell_compare a b) eqn:Hab; try done.
  apply cell_compare_eq in Hab as ->; [|done..].
  intros ->%IH; done.
Qed.

Lemma comparison_order_keys : comparison_order keys_compare.
Proof.
  pose proof comparison_order_cell as HC. split.
  - intros k. induction k as [|a k IH]; intros [|b k']; try done.
    cbn [keys_compare]. rewrite (cmp_antisym _ HC a b), IH.
    by destruct (cell_compare a b).
  - intros k. induction k as [|a k IH]; intros [|b k'] [|c k''] o;
      cbn [keys_compare]; try congruence.
    destruct (cell_compare a b) eqn:Hab, (cell_compare b c) eqn:Hbc;
      intros Ho Ho'; subst; try discriminate.
    + rewrite (cmp_trans _ HC a b c Eq) by done. eauto.
    + by rewrite (cmp_eq_l _ HC a b c), Hbc.
    + by rewrite (cmp_eq_l _ HC a b c), Hbc.
    + by rewrite <-(cmp_eq_r _ a b c HC), Hab.
    + by rewrite (cmp_trans _ HC a b c Lt).
    + by rewrite <-(cmp_eq_r _ a b c HC), Hab.
    + by rewrite (cmp_trans _ HC a b c Gt).
  - intros k. induction k as [|a k IH]; intros [|b k'] [|c k''];
      cbn [keys_compare]; try done.
    destruct (cell_compare a b) eqn:Hab; try done. intros Hk.
    rewrite (cmp_eq_l _ HC a b c Hab). destruct (cell_compare b c); eauto.
Qed.

Lemma keys_compare_refl k : keys_compare k k = Eq.
Proof.
  pose proof (cmp_antisym _ comparison_order_keys k k) as H.
  by destruct (keys_compare k k).
Qed.

#[global] Instance key_lt_trans : Transitive key_lt.
Proof.
  intros x y z. unfold key_lt.
  apply (cmp_trans _ comparison_order_keys _ _ _ Lt).
Qed.

Lemma key_lt_irrefl g : ¬ key_lt g g.
Proof. unfold key_lt. by rewrite keys_compare_refl. Qed.

Lemma group_key_na_free labels r k :
  group_key labels r = Some k →
  na_free k = true ∧ k = (λ c, r !!! c) <$> labels.
Proof.
  unfold group_key. destruct (existsb _ _) eqn:He; [done|].
  intros [= <-]. split; [|done]. unfold na_free.
  apply forallb_forall. intros c Hc.
  apply negb_true_iff, not_true_is_false. intros Hna.
  assert (existsb isna ((λ c, r !!! c) <$> labels) = true) as He'.
  { apply existsb_exists. eauto. }
  congruence.
Qed.

(** *** One group per key, holding the rows of the key in order *)

Lemma group_add_Forall (Q : list cell → Prop) k ir groups :
  Q k → Forall (λ g, Q g.1) groups → Forall (λ g, Q g.1) (group_add k ir groups).
Proof.
  intros Hk. induction 1 as [|[k' s] groups Hk' Hall IH]; cbn [group_add].
  - by repeat constructor.
  - destruct (keys_compare k k').
    + by constructor.
    + constructor; [done|]. by constructor.
    + by constructor.
Qed.

Lemma group_add_sorted k ir groups :
  StronglySorted key_lt groups → StronglySorted key_lt (group_add k ir groups).
Proof.
  induction 1 as [|[k' s] groups Hs IH Hall]; cbn [group_add].
  - repeat constructor.
  - destruct (keys_compare k k') eqn:Hkk.
    + constructor; [done|]. eapply Forall_impl; [exact Hall|done].
    + constructor; [by constructor|]. constructor; [done|].
      eapply Forall_impl; [exact Hall|]. intros g Hg.
      by trans (k', s).
    + constructor; [done|].
      apply (group_add_Forall (λ x, keys_compare k' x = Lt)); [|done].
      by rewrite (cmp_antisym _ comparison_order_keys k k'), Hkk.
Qed.

Lemma members_above k s groups :
  Forall (key_lt (k, s)) groups → members k groups = [].
Proof.
  unfold members. induction 1 as [|[k' s'] groups Hk _ IH]; [done|].
  cbn [foldr fst snd]. rewrite IH.
  rewrite bool_decide_eq_false_2; [done|]. intros ->.
  by apply (key_lt_irrefl (k, s)).
Qed.

(** In sorted groups, a group holds all there is under its key. *)
Lemma members_sorted k s groups :
  StronglySorted key_lt groups → (k, s) ∈ groups → members k groups = s.
Proof.
  induction 1 as [|[k' s'] groups Hs IH Hall]; intros Hin.
  - by apply elem_of_nil in Hin.
  - unfold members. cbn [foldr fst snd]. fold (members k groups).
    apply elem_of_cons in Hin as [[= -> ->]|Hin].
    + rewrite bool_decide_eq_true_2 by done.
      rewrite (members_above k' s') by done. apply app_nil_r.
    + rewrite IH by done. rewrite bool_decide_eq_false_2; [done|].
      intros ->. rewrite Forall_forall in Hall.
      by apply (key_lt_irrefl (k, s)), (Hall (k, s)).
Qed.

Lemma group_add_members q k ir groups :
  na_free k = true → Forall (λ g, na_free g.1 = true) groups →
  StronglySorted key_lt groups →
  members q (group_add k ir groups) =
  members q groups ++ (if bool_decide (k = q) then [ir] else []).
Proof.
  intros Hk Hna Hs. revert Hna.
  induction Hs as [|[k' s] groups Hs IH Hall]; intros Hna; cbn [group_add].
  - unfold members. cbn [foldr fst snd]. by rewrite app_nil_r.
  - apply Forall_cons in Hna as [Hk' Hna]. cbn [fst] in Hk'.
    destruct (keys_compare k k') eqn:Hkk.
    + apply keys_compare_eq in Hkk as ->; [|done..].
      unfold members. cbn [foldr fst snd]. fold (members q groups).
      destruct (decide (k' = q)) as [->|Hne].
      * rewrite !bool_decide_eq_true_2 by done.
        rewrite (members_above q s) by done. by rewrite !app_nil_r.
      * rewrite !bool_decide_eq_false_2 by done. by rewrite app_nil_r.
    + change (members q ((k, [ir]) :: (k', s) :: groups))
        with ((if bool_decide (k = q) then [ir] else [])
              ++ members q ((k', s) :: groups)).
      destruct (decide (k = q)) as [->|Hne].
      * rewrite !bool_decide_eq_true_2 by done.
        rewrite (members_above q [ir]); [done|].
        constructor; [done|]. eapply Forall_impl; [exact Hall|].
        intros g Hg. by trans (k', s).
      * rewrite !bool_decide_eq_false_2 by done. by rewrite app_nil_r.
    + unfold members. cbn [foldr fst snd].
      fold (members q (group_add k ir groups)) (members q groups).
      rewrite IH by done. by rewrite app_assoc.
Qed.

Lemma group_add_keys q k ir groups :
  na_free k = true → Forall (λ g, na_free g.1 = true) groups →
  q ∈ (group_add k ir groups).*1 ↔ q = k ∨ q ∈ groups.*1.
Proof.
  intros Hk. induction 1 as [|[k' s] groups Hk' _ IH]; cbn [group_add].
  - rewrite !fmap_cons, !fmap_nil, elem_of_cons. cbn [fst]. tauto.
  - destruct (keys_compare k k') eqn:Hkk.
    + apply keys_compare_eq in Hkk as ->; [|done..].
      rewrite !fmap_cons, !elem_of_cons. cbn [fst]. tauto.
    + rewrite !fmap_cons, !elem_of_cons. cbn [fst]. tauto.
    + rewrite !fmap_cons, !elem_of_cons, IH. cbn [fst]. tauto.
Qed.

Lemma groups_of_fold labels rs :
  groups_of labels rs = fold_left (group_step labels) rs [].
Proof. reflexivity. Qed.

Lemma group_step_inv labels ir groups :
  Forall (λ g, na_free g.1 = true) groups → StronglySorted key_lt groups →
  Forall (λ g, na_free g.1 = true) (group_step labels groups ir) ∧
  StronglySorted key_lt (group_step labels groups ir).
Proof.
  intros Hna Hs. unfold group_step.
  destruct (group_key labels ir.2) as [k|] eqn:Hk; [|done].
  apply group_key_na_free in Hk as [Hk _]. split.
  - by apply (group_add_Forall (λ x, na_free x = true)).
  - by apply group_add_sorted.
Qed.

Lemma fold_groups_inv labels rs groups :
  Forall (λ g, na_free g.1 = true) groups → StronglySorted key_lt groups →
  Forall (λ g, na_free g.1 = true) (fold_left (group_step labels) rs groups) ∧
  StronglySorted key_lt (fold_left (group_step labels) rs groups).
Proof.
  revert groups. induction rs as [|ir rs IH]; intros groups Hna Hs; [done|].
  rewrite fold_left_cons.
  destruct (group_step_inv labels ir groups Hna Hs). by apply IH.
Qed.

Lemma fold_groups_keys labels q rs groups :
  Forall (λ g, na_free g.1 = true) groups →
  q ∈ (fold_left (group_step labels) rs groups).*1 ↔
  q ∈ groups.*1 ∨ ∃ ir, ir ∈ rs ∧ group_key labels ir.2 = Some q.
Proof.
  revert groups. induction rs as [|ir rs IH]; intros groups Hna.
  - cbn [fold_left]. split; [by left|]. intros [?|(ir & Hir & _)]; [done|].
    by apply elem_of_nil in Hir.
  - rewrite fold_left_cons, IH.
    + unfold group_step. destruct (group_key labels ir.2) as [k|] eqn:Hk.
      * pose proof (group_key_na_free _ _ _ Hk) as [Hk' _].
        rewrite group_add_keys by done. split.
        -- intros [[->|?]|(ir' & Hir' & Hq)]; [right|by left|right].
           ++ exists ir. split; [by left|done].
           ++ exists ir'. split; [by right|done].
        -- intros [?|(ir' & Hir' & Hq)]; [by left; right|].
           apply elem_of_cons in Hir' as [->|Hir'].
           ++ left; left. congruence.
           ++ right. eauto.
      * split.
        -- intros [?|(ir' & Hir' & Hq)]; [by left|right].
           exists ir'. split; [by right|done].
        -- intros [?|(ir' & Hir' & Hq)]; [by left|].
           apply elem_of_cons in Hir' as [->|Hir']; [congruence|].
           right. eauto.
    + unfold group_step. destruct (group_key labels ir.2) as [k|] eqn:Hk; [|done].
      apply group_key_na_free in Hk as [Hk _].
      by apply (group_add_Forall (λ x, na_free x = true)).
Qed.

Lemma fold_groups_members labels q rs groups :
  Forall (λ g, na_free g.1 = true) groups → StronglySorted key_lt groups →
  members q (fold_left (group_step labels) rs groups) =
  members q groups ++ keyed labels q rs.
Proof.
  unfold keyed. revert groups.
  induction rs as [|ir rs IH]; intros groups Hna Hs.
  - cbn [fold_left]. by rewrite filter_nil, app_nil_r.
  - rewrite fold_left_cons.
    destruct (group_step_inv labels ir groups Hna Hs) as [Hna' Hs'].
    rewrite IH by done. rewrite filter_cons.
    unfold group_step. destruct (group_key labels ir.2) as [k|] eqn:Hk.
    + pose proof (group_key_na_free _ _ _ Hk) as [Hk' _].
      rewrite group_add_members by done.
      destruct (decide (k = q)) as [->|Hne].
      * rewrite bool_decide_eq_true_2, decide_True by done.
        by rewrite <-app_assoc.
      * rewrite bool_decide_eq_false_2, decide_False by congruence.
        by rewrite app_nil_r.
    + by rewrite decide_False.
Qed.

(** [groups_of]: the keys in strictly ascending order, none with a missing
    cell; the keys are those of the rows; and each group holds the rows of
    its key, in order. *)
Lemma groups_of_spec labels rs :
  StronglySorted key_lt (groups_of labels rs) ∧
  (∀ q, q ∈ (groups_of labels rs).*1 ↔
        ∃ ir, ir ∈ rs ∧ group_key labels ir.2 = Some q) ∧
  Forall (λ g, na_free g.1 = true ∧ g.2 = keyed labels g.1 rs)
    (groups_of labels rs).
Proof.
  destruct (fold_groups_inv labels rs [] (Forall_nil_2 _)
              (SSorted_nil _)) as [Hna Hs].
  rewrite <-groups_of_fold in Hna, Hs. split; [done|]. split.
  - intros q. rewrite groups_of_fold.
    rewrite (fold_groups_keys labels q rs [] (Forall_nil_2 _)).
    split; [|by right]. intros [Hq|Hq]; [|done]. by apply elem_of_nil in Hq.
  - apply Forall_forall. intros [k s] Hin. cbn [fst snd].
    rewrite Forall_forall in Hna. split; [by apply (Hna (k, s))|].
    rewrite <-(members_sorted k s _ Hs Hin), groups_of_fold.
    by rewrite (fold_groups_members labels k rs [] (Forall_nil_2 _)
                  (SSorted_nil _)).
Qed.

(** *** What the groups hold in all *)

Lemma numbers_app cs cs' : numbers (cs ++ cs') = numbers cs ++ numbers cs'.
Proof. unfold numbers. apply omap_app. Qed.

Lemma total_app l l' : total (l ++ l') = total l + total l'.
Proof. unfold total. induction l as [|x l IH]; cbn [app foldr]; lia. Qed.

Lemma magnitude_app l l' : magnitude (l ++ l') = magnitude l + magnitude l'.
Proof. unfold magnitude. induction l as [|x l IH]; cbn [app foldr]; lia. Qed.

Lemma magnitude_nonneg l : 0 ≤ magnitude l.
Proof. unfold magnitude. induction l as [|x l IH]; cbn [foldr]; lia. Qed.

Lemma total_le_magnitude l : Z.abs (total l) ≤ magnitude l.
Proof.
  unfold total, magnitude. induction l as [|x l IH]; cbn [foldr]; lia.
Qed.

Lemma total_Permutation l l' : l ≡ₚ l' → total l = total l'.
Proof.
  unfold total.
  induction 1 as [|x l1 l2 _ IH|x y l|l1 l2 l3 _ IH _ IH']; cbn [foldr]; lia.
Qed.

Lemma magnitude_Permutation l l' : l ≡ₚ l' → magnitude l = magnitude l'.
Proof.
  unfold magnitude.
  induction 1 as [|x l1 l2 _ IH|x y l|l1 l2 l3 _ IH _ IH']; cbn [foldr]; lia.
Qed.

Lemma numbers_Permutation cs cs' : cs ≡ₚ cs' → numbers cs ≡ₚ numbers cs'.
Proof. unfold numbers. by intros ->. Qed.

Lemma cells_app col rs rs' : cells col (rs ++ rs') = cells col rs ++ cells col rs'.
Proof. unfold cells. apply fmap_app. Qed.

(** A measure of rows that adds up over appended rows adds up over the
    groups. *)
Lemma group_add_measure (μ : list (nat * gmap string cell) → Z) k ir groups :
  (∀ l l', μ (l ++ l') = μ l + μ l') →
  foldr (λ g acc, μ g.2 + acc) 0 (group_add k ir groups) =
  foldr (λ g acc, μ g.2 + acc) 0 groups + μ [ir].
Proof.
  intros Hm. induction groups as [|[k' s] groups IH]; cbn [group_add foldr snd].
  - lia.
  - destruct (keys_compare k k'); cbn [foldr snd].
    + rewrite Hm. lia.
    + lia.
    + rewrite IH. lia.
Qed.

Lemma fold_groups_measure (μ : list (nat * gmap string cell) → Z) labels rs
    groups :
  (∀ l l', μ (l ++ l') = μ l + μ l') →
  foldr (λ g acc, μ g.2 + acc) 0 (fold_left (group_step labels) rs groups) =
  foldr (λ g acc, μ g.2 + acc) 0 groups +
  μ (filter (λ ir, has_key labels ir.2) rs).
Proof.
  intros Hm.
  assert (μ [] = 0) as Hnil by (specialize (Hm [] []); cbn [app] in Hm; lia).
  revert groups. induction rs as [|ir rs IH]; intros groups.
  - cbn [fold_left]. rewrite filter_nil, Hnil. lia.
  - rewrite fold_left_cons, IH, filter_cons. unfold group_step.
    rewrite group_key_has_key. destruct (has_key labels ir.2).
    + rewrite decide_True by done. rewrite group_add_measure by done.
      change (ir :: filter (λ ir, has_key labels ir.2) rs)
        with ([ir] ++ filter (λ ir, has_key labels ir.2) rs).
      rewrite Hm. lia.
    + rewrite decide_False by (by intros []). done.
Qed.

Lemma groups_of_rows_measure (μ : list (nat * gmap string cell) → Z) labels df :
  (∀ l l', μ (l ++ l') = μ l + μ l') →
  foldr (λ g acc, μ g.2 + acc) 0 (groups_of labels (rows df)) =
  μ (rows (loc (has_key labels) df)).
Proof.
  intros Hm. rewrite groups_of_fold, (fold_groups_measure μ) by done.
  cbn [foldr]. unfold loc. cbn [rows]. lia.
Qed.

(** So does a measure of the numbers of a column. *)
Lemma groups_of_measure (m : list Z → Z) labels col df :
  (∀ l l', m (l ++ l') = m l + m l') →
  foldr (λ g acc, m (numbers (cells col g.2)) + acc) 0
    (groups_of labels (rows df)) =
  m (numbers (column col (loc (has_key labels) df))).
Proof.
  intros Hm.
  apply (groups_of_rows_measure (λ rs, m (numbers (cells col rs)))).
  intros l l'. by rewrite cells_app, numbers_app, Hm.
Qed.

Lemma count_app cs cs' : count (cs ++ cs') = count cs + count cs'.
Proof. unfold count. rewrite filter_app, length_app. lia. Qed.

(** *** Sums of whole numbers *)

Lemma foldr_sum_ext {A} (f1 f2 : A → Z) (l : list A) :
  (∀ x, x ∈ l → f1 x = f2 x) →
  foldr (λ x acc, f1 x + acc) 0 l = foldr (λ x acc, f2 x + acc) 0 l.
Proof.
  induction l as [|x l IH]; intros Hext; [done|].
  cbn [foldr]. rewrite (Hext x) by (by left). rewrite IH; [done|].
  intros y Hy. apply Hext. by right.
Qed.

Lemma foldr_sum_le {A} (f1 f2 : A → Z) (l : list A) :
  (∀ x, x ∈ l → f1 x ≤ f2 x) →
  foldr (λ x acc, f1 x + acc) 0 l ≤ foldr (λ x acc, f2 x + acc) 0 l.
Proof.
  induction l as [|x l IH]; intros Hle; [done|].
  cbn [foldr]. specialize (Hle x (list_elem_of_here _ _)) as Hx.
  assert (foldr (λ x acc, f1 x + acc) 0 l ≤ foldr (λ x acc, f2 x + acc) 0 l).
  { apply IH. intros y Hy. apply Hle. by right. }
  lia.
Qed.

Lemma foldr_sum_member_le {A} (f : A → Z) (l : list A) x :
  (∀ y, 0 ≤ f y) → x ∈ l → f x ≤ foldr (λ y acc, f y + acc) 0 l.
Proof.
  intros Hf. induction l as [|y l IH]; intros Hin.
  - by apply elem_of_nil in Hin.
  - cbn [foldr].
    assert (0 ≤ foldr (λ y acc, f y + acc) 0 l) as Hpos.
    { clear -Hf. induction l as [|z l IH]; cbn [foldr]; [done|].
      specialize (Hf z). lia. }
    apply elem_of_cons in Hin as [->|Hin]; [lia|].
    specialize (IH Hin). specialize (Hf y). lia.
Qed.

Lemma total_fmap {A} (f : A → Z) (l : list A) :
  total (f <$> l) = foldr (λ x acc, f x + acc) 0 l.
Proof. unfold total. by rewrite foldr_fmap. Qed.

Lemma magnitude_fmap {A} (f : A → Z) (l : list A) :
  magnitude (f <$> l) = foldr (λ x acc, Z.abs (f x) + acc) 0 l.
Proof. unfold magnitude. by rewrite foldr_fmap. Qed.

Lemma numbers_fmap_Num {A} (f : A → Z) (l : list A) :
  numbers ((λ x, Num (f x)) <$> l) = f <$> l.
Proof.
  unfold numbers. induction l as [|x l IH]; [done|].
  cbn [fmap list_fmap omap]. by rewrite <-IH.
Qed.

Lemma numbers_sublist cs cs' : cs `sublist_of` cs' → numbers cs `sublist_of` numbers cs'.
Proof.
  unfold numbers. induction 1 as [|x l1 l2 _ IH|x l1 l2 _ IH]; cbn [omap].
  - done.
  - destruct x; try done. by constructor.
  - destruct x; try done. by constructor.
Qed.

Lemma magnitude_sublist l l' : l `sublist_of` l' → magnitude l ≤ magnitude l'.
Proof.
  unfold magnitude. induction 1 as [|x l1 l2 _ IH|x l1 l2 _ IH]; cbn [foldr]; lia.
Qed.

Section Aggregation.

Context {F : Float64}.

Lemma groupby_sum_inv labels col df g :
  groupby_sum labels col df = Ok g →
  g = Frame (labels ++ [col])
        (imap (λ i g, (i, <[col := Num (group_sum (numbers (cells col g.2)))]>
                            (list_to_map (zip labels g.1))))
              (groups_of labels (rows df))).
Proof. unfold groupby_sum. case_match; [|done]. congruence. Qed.

Lemma groupby_sum_ok labels col df :
  Forall (λ c, col_in c df = true) (labels ++ [col]) →
  ∃ g, groupby_sum labels col df = Ok g.
Proof.
  intros Hall. unfold groupby_sum.
  assert (filter (λ c, c ∉ columns df) (labels ++ [col]) = []) as ->; [|eauto].
  induction Hall as [|c l Hc _ IH]; [done|].
  apply bool_decide_eq_true in Hc.
  rewrite filter_cons_False by (by intros []). done.
Qed.

(** The amounts of an aggregate frame are the sums of its groups. *)
Lemma groupby_sum_values labels col df g :
  groupby_sum labels col df = Ok g →
  column col g =
  (λ g, Num (group_sum (numbers (cells col g.2)))) <$> groups_of labels (rows df).
Proof.
  intros ->%groupby_sum_inv. unfold column, cells. cbn [rows].
  rewrite fmap_imap, <-imap_const.
  apply imap_ext. intros i x _. simpl. by rewrite lookup_total_insert_eq.
Qed.

Lemma groupby_sum_numbers labels col df g :
  groupby_sum labels col df = Ok g →
  Forall (λ ir, ir.2 !!! col = Num (num_of (ir.2 !!! col))) (rows g).
Proof.
  intros Hg. apply Forall_forall. intros ir Hir.
  assert (ir.2 !!! col ∈ column col g) as Hc.
  { by apply (list_elem_of_fmap_2
                (λ ir : nat * gmap string cell, ir.2 !!! col)). }
  rewrite (groupby_sum_values _ _ _ _ Hg) in Hc.
  by apply list_elem_of_fmap in Hc as (x & -> & _).
Qed.

(** The amounts of a sorted aggregate are sorted as numbers. *)
Lemma sort_values_valores_asc labels df g :
  groupby_sum labels "VALOR" df = Ok g →
  StronglySorted Z.le (valores (sort_values ["VALOR"] true g)).
Proof.
  intros Hg. unfold valores.
  apply (StronglySorted_fmap_Forall
           (λ ir, ir.2 !!! "VALOR" = Num (num_of (ir.2 !!! "VALOR")))
           _ (sorted_before ["VALOR"] true)).
  - intros x y Hx Hy. by apply sorted_before_valor_asc.
  - rewrite sort_values_rows. by eapply groupby_sum_numbers.
  - apply sort_values_sorted.
Qed.

Lemma sort_values_valores_desc labels df g n :
  groupby_sum labels "VALOR" df = Ok g →
  StronglySorted (λ a b, b ≤ a)
    (valores (head n (sort_values ["VALOR"] false g))).
Proof.
  intros Hg. unfold valores.
  apply (StronglySorted_fmap_Forall
           (λ ir, ir.2 !!! "VALOR" = Num (num_of (ir.2 !!! "VALOR")))
           _ (sorted_before ["VALOR"] false)).
  - intros x y Hx Hy. by apply sorted_before_valor_desc.
  - unfold head; cbn [rows]. apply Forall_take.
    rewrite sort_values_rows. by eapply groupby_sum_numbers.
  - unfold head; cbn [rows]. apply StronglySorted_take, sort_values_sorted.
Qed.

(** *** Totals, where the sums are exact *)

Lemma column_sum_exact bound col df :
  exact_below bound → magnitude (numbers (column col df)) ≤ bound →
  column_sum col df = total (numbers (column col df)).
Proof. intros Hex Hm. unfold column_sum. by apply Hex. Qed.

(** The sums of the groups add up to the sum of the rows that have a
    key. *)
Lemma groups_sums_exact bound labels col df :
  exact_below bound →
  magnitude (numbers (column col (loc (has_key labels) df))) ≤ bound →
  magnitude ((λ g, group_sum (numbers (cells col g.2)))
               <$> groups_of labels (rows df)) ≤ bound ∧
  total ((λ g, group_sum (numbers (cells col g.2)))
           <$> groups_of labels (rows df)) =
    total (numbers (column col (loc (has_key labels) df))).
Proof.
  intros Hex Hm.
  pose proof (groups_of_measure magnitude labels col df magnitude_app) as Hmag.
  pose proof (groups_of_measure total labels col df total_app) as Htot.
  assert (∀ g, g ∈ groups_of labels (rows df) →
               group_sum (numbers (cells col g.2)) =
               total (numbers (cells col g.2))) as Hgroup.
  { intros x Hx. apply Hex.
    pose proof (foldr_sum_member_le
                  (λ g : list cell * list (nat * gmap string cell),
                     magnitude (numbers (cells col g.2)))
                  _ x (λ y, magnitude_nonneg _) Hx) as Hle.
    cbv beta in Hle. lia. }
  rewrite magnitude_fmap, total_fmap.
  rewrite (foldr_sum_ext _ (λ g, total (numbers (cells col g.2))) _ Hgroup).
  rewrite (foldr_sum_ext (λ g, Z.abs (group_sum (numbers (cells col g.2))))
             (λ g, Z.abs (total (numbers (cells col g.2)))))
    by (intros x Hx; by rewrite Hgroup).
  split; [|done].
  pose proof (foldr_sum_le
                (λ g : list cell * list (nat * gmap string cell),
                   Z.abs (total (numbers (cells col g.2))))
                (λ g, magnitude (numbers (cells col g.2)))
                (groups_of labels (rows df))
                (λ x _, total_le_magnitude _)) as Hle.
  cbv beta in Hle. lia.
Qed.

Lemma groupby_sum_exact bound labels col df g :
  exact_below bound →
  magnitude (numbers (column col (loc (has_key labels) df))) ≤ bound →
  groupby_sum labels col df = Ok g →
  magnitude (numbers (column col g)) ≤ bound ∧
  total (numbers (column col g)) =
    total (numbers (column col (loc (has_key labels) df))).
Proof.
  intros Hex Hm Hg. rewrite (groupby_sum_values _ _ _ _ Hg).
  rewrite numbers_fmap_Num. by apply groups_sums_exact.
Qed.

(** Where the sums are exact, a frame whose amounts are the sums of the
    groups, in whatever order, holds in all what the rows with a key
    hold. *)
Lemma sums_total_exact bound labels df agg :
  exact_below bound →
  magnitude (numbers (column "VALOR" df)) ≤ bound →
  numbers (column "VALOR" agg) ≡ₚ
    (λ g, group_sum (numbers (cells "VALOR" g.2)))
      <$> groups_of labels (rows df) →
  column_sum "VALOR" agg = column_sum "VALOR" (loc (has_key labels) df).
Proof.
  intros Hex Hm Hn.
  assert (magnitude (numbers (column "VALOR" (loc (has_key labels) df)))
          ≤ bound) as Hm'.
  { etrans; [|exact Hm]. apply magnitude_sublist, numbers_sublist.
    unfold column, cells. apply fmap_sublist, rows_loc_sublist. }
  destruct (groups_sums_exact bound labels "VALOR" df Hex Hm') as [Hmg Htot].
  assert (magnitude (numbers (column "VALOR" agg)) ≤ bound) as Hma
    by (by rewrite (magnitude_Permutation _ _ Hn)).
  rewrite (column_sum_exact bound "VALOR" agg Hex Hma).
  rewrite (total_Permutation _ _ Hn), Htot.
  symmetry. by apply (column_sum_exact bound).
Qed.

Lemma aggregate_total_exact bound labels df g agg :
  exact_below bound →
  magnitude (numbers (column "VALOR" df)) ≤ bound →
  groupby_sum labels "VALOR" df = Ok g →
  rows agg ≡ₚ rows g →
  column_sum "VALOR" agg = column_sum "VALOR" (loc (has_key labels) df).
Proof.
  intros Hex Hm Hg Hp. apply (sums_total_exact bound); [done|done|].
  rewrite <-numbers_fmap_Num, <-(groupby_sum_values _ _ _ _ Hg).
  apply numbers_Permutation. unfold column, cells. by rewrite Hp.
Qed.

(** *** A group-by on one label *)

Lemma group_key_single L r c :
  group_key [L] r = Some [c] ↔ r !!! L = c ∧ isna c = false.
Proof.
  unfold group_key. cbn [fmap list_fmap existsb]. rewrite orb_false_r.
  destruct (isna (r !!! L)) eqn:Hna; split.
  - done.
  - intros [<- ?]. congruence.
  - intros [= <-]. done.
  - by intros [<- _].
Qed.

Lemma groups_of_single L rs :
  Forall (λ g, ∃ c, g.1 = [c] ∧ isna c = false) (groups_of [L] rs).
Proof.
  destruct (groups_of_spec [L] rs) as (_ & Hkeys & _).
  apply Forall_forall. intros [k s] Hin.
  assert (k ∈ (groups_of [L] rs).*1) as Hk.
  { by apply (list_elem_of_fmap_2 fst _ (k, s)). }
  apply Hkeys in Hk as (ir & _ & Hk).
  pose proof (group_key_na_free _ _ _ Hk) as [_ ->].
  exists (ir.2 !!! L). split; [done|].
  by apply (group_key_single L ir.2 (ir.2 !!! L)).
Qed.

(** The group of [c] holds the rows whose label is [c]. *)
Lemma groups_of_single_members L df c s :
  ([c], s) ∈ groups_of [L] (rows df) →
  s = rows (loc (λ r, bool_decide (r !!! L = c)) df).
Proof.
  intros Hin.
  pose proof (groups_of_single L (rows df)) as Hall.
  rewrite Forall_forall in Hall.
  destruct (Hall _ Hin) as (c' & [= <-] & Hna).
  destruct (groups_of_spec [L] (rows df)) as (_ & _ & Hspec).
  rewrite Forall_forall in Hspec.
  destruct (Hspec _ Hin) as [_ Hs]. cbn [fst snd] in Hs. rewrite Hs.
  unfold keyed, loc. cbn [rows]. apply list_filter_iff. intros ir.
  rewrite group_key_single, bool_decide_spec. split; [by intros []|done].
Qed.

Lemma groupby_single_rows L col df g :
  L ≠ col → groupby_sum [L] col df = Ok g →
  (λ ir, (ir.2 !!! L, ir.2 !!! col)) <$> rows g =
  (λ x, (hd NaN x.1, Num (group_sum (numbers (cells col x.2)))))
    <$> groups_of [L] (rows df).
Proof.
  intros HL ->%groupby_sum_inv. cbn [rows].
  rewrite fmap_imap, <-imap_const. apply imap_ext. intros i x Hx.
  pose proof (groups_of_single L (rows df)) as Hall.
  rewrite Forall_lookup in Hall. destruct (Hall i x Hx) as (c & Hc & _).
  cbn [compose const snd]. rewrite Hc. cbn [zip zip_with list_to_map foldr hd].
  rewrite lookup_total_insert_eq.
  rewrite lookup_total_insert_ne by done.
  by rewrite lookup_total_insert_eq.
Qed.

(** One row per value of the label: the values in strictly ascending
    order, those of the rows of the frame, missing ones apart, and with
    each value the sum of the group, taken of the amounts of the rows of
    that value in order. *)
Lemma groupby_single_spec L col df g :
  L ≠ col → groupby_sum [L] col df = Ok g →
  StronglySorted (λ c c', cell_compare c c' = Lt) (column L g) ∧
  (∀ c, c ∈ column L g ↔
        isna c = false ∧ ∃ ir, ir ∈ rows df ∧ ir.2 !!! L = c) ∧
  Forall (λ ir, ir.2 !!! col =
                Num (group_sum
                       (numbers
                          (column col
                             (loc (λ r, bool_decide (r !!! L = ir.2 !!! L))
                                df)))))
    (rows g).
Proof.
  intros HL Hg.
  pose proof (groupby_single_rows L col df g HL Hg) as Hrows.
  pose proof (groups_of_single L (rows df)) as Hsingle.
  destruct (groups_of_spec [L] (rows df)) as (Hs & Hkeys & _).
  assert (column L g = (λ x, hd NaN x.1) <$> groups_of [L] (rows df))
    as Hcats.
  { apply (f_equal (fmap fst)) in Hrows.
    by rewrite <-!list_fmap_compose in Hrows. }
  split; [|split].
  - rewrite Hcats.
    apply (StronglySorted_fmap_Forall
             (λ g, ∃ c, g.1 = [c] ∧ isna c = false) _ key_lt); [|done|done].
    intros [k s] [k' s'] (c & Hc & _) (c' & Hc' & _). cbn [fst] in *.
    subst. unfold key_lt. cbn [fst keys_compare hd].
    by destruct (cell_compare c c').
  - intros c. rewrite Hcats, list_elem_of_fmap. split.
    + intros ([k s] & -> & Hin). rewrite Forall_forall in Hsingle.
      destruct (Hsingle _ Hin) as (c & Hc & Hna). cbn [fst] in *. subst k.
      cbn [hd]. split; [done|].
      assert ([c] ∈ (groups_of [L] (rows df)).*1) as Hk.
      { by apply (list_elem_of_fmap_2 fst _ ([c], s)). }
      apply Hkeys in Hk as (ir & Hir & Hk).
      apply group_key_single in Hk as [Hk _]. eauto.
    + intros (Hna & ir & Hir & Hc).
      assert ([c] ∈ (groups_of [L] (rows df)).*1) as Hk.
      { apply Hkeys. exists ir. split; [done|]. by apply group_key_single. }
      apply list_elem_of_fmap in Hk as ([k s] & Hk & Hin). cbn [fst] in Hk.
      subst k. by exists ([c], s).
  - apply Forall_forall. intros ir Hir.
    assert ((ir.2 !!! L, ir.2 !!! col) ∈
            (λ ir : nat * gmap string cell, (ir.2 !!! L, ir.2 !!! col))
              <$> rows g) as Hp.
    { by apply (list_elem_of_fmap_2
                  (λ ir : nat * gmap string cell, (ir.2 !!! L, ir.2 !!! col))). }
    rewrite Hrows in Hp. apply list_elem_of_fmap in Hp as ([k s] & Hp & Hin).
    rewrite Forall_forall in Hsingle.
    destruct (Hsingle _ Hin) as (c & Hc & Hna). cbn [fst snd] in *. subst k.
    cbn [hd] in Hp. injection Hp as -> ->.
    by rewrite (groups_of_single_members L df c s Hin).
Qed.

End Aggregation.

Lemma StronglySorted_lt_NoDup (l : list cell) :
  StronglySorted (λ c c', cell_compare c c' = Lt) l → NoDup l.
Proof.
  induction 1 as [|c l _ IH Hall]; constructor; [|done].
  intros Hin. rewrite Forall_forall in Hall. specialize (Hall c Hin).
  pose proof (cmp_antisym _ comparison_order_cell c c) as Ha.
  rewrite Hall in Ha. done.
Qed.

(** * The sample data, evaluated *)

Lemma sample_loaded_eq :
  (load_data sample_parse_datetime sample_epoch_datetime sample_parse_numeric
     (Ok sample_sheet)).1 = sample_loaded.
Proof. vm_compute. reflexivity. Qed.

Lemma sample_filtered_eq :
  apply_filters sample_loaded (Date 2023 1 10) (Date 2024 1 5) (Str "Todos")
    (unique "CATEGORIA_SCANIA" sample_loaded)
    (unique "CATEGORIA" sample_loaded)
    (unique "TIPO_DOC" sample_loaded) (unique "NOME_TAREFA" sample_loaded)
    (unique "TAREFA_CONSOLIDADA" sample_loaded) = sample_filtered.
Proof. vm_compute. reflexivity. Qed.

Lemma sample_loaded_has_due :
  col_in "DATA_VENCIMENTO" sample_loaded = true.
Proof. vm_compute. reflexivity. Qed.

Lemma sample_loaded_columns :
  columns sample_loaded =
  ["CATEGORIA_SCANIA"; "DATA_EMISSAO"; "TIPO_DOC"; "DATA_VENCIMENTO"; "VALOR";
   "NOME_TAREFA"; "TAREFA_CONSOLIDADA"; "CATEGORIA";
   "ANO"; "MES"; "MES_ANO"; "MES_NOME"; "ANO_MES"].
Proof. vm_compute. reflexivity. Qed.

(** Row 2 has no numeric amount and is gone; rows 1 and 4 have no due date
    (a blank cell, a text that is no date) and row 3 no category, and all
    three are kept. *)
Lemma sample_loaded_rows :
  (λ ir, (ir.1, ir.2 !!! "DATA_VENCIMENTO", ir.2 !!! "VALOR",
          ir.2 !!! "CATEGORIA")) <$> rows sample_loaded =
  [ (0%nat, Timestamp (Date 2023 1 10) 0, Num 10000, Str "CUSTO MANUTENCOES");
    (1%nat, NaT, Num 20000, Str "SINISTRO");
    (3%nat, Timestamp (Date 2024 1 5) 0, Num 5000, NaN);
    (4%nat, NaT, Num 7500, Str "SINISTRO") ].
Proof. vm_compute. reflexivity. Qed.

Lemma sample_loaded_derived :
  (λ ir, (ir.2 !!! "DATA_EMISSAO", ir.2 !!! "ANO", ir.2 !!! "MES",
          ir.2 !!! "MES_ANO", ir.2 !!! "MES_NOME")) <$> rows sample_loaded =
  [ (Timestamp (Date 2022 12 20) 0, Num 2023, Num 1, Str "2023-01", Str "Jan/2023");
    (Timestamp (Date 2023 1 2) 0, NaN, NaN, NaN, NaN);
    (Timestamp (Date 2023 12 28) 0, Num 2024, Num 1, Str "2024-01", Str "Jan/2024");
    (NaT, NaN, NaN, NaN, NaN) ].
Proof. vm_compute. reflexivity. Qed.

Lemma sample_bounds :
  min_date sample_loaded = Some (Date 2023 1 10) ∧
  max_date (Date 2026 11 3) sample_loaded = Some (Date 2024 1 5).
Proof. split; vm_compute; reflexivity. Qed.

Lemma sample_filtered_rows :
  (λ ir, (ir.1, ir.2 !!! "VALOR", ir.2 !!! "CATEGORIA")) <$> rows sample_filtered =
  [ (0%nat, Num 10000, Str "CUSTO MANUTENCOES"); (3%nat, Num 5000, NaN) ].
Proof. vm_compute. reflexivity. Qed.

(** * The filter engine *)

(** C4.  The output of [apply_filters] is a subsequence of its input: the
    rows kept are rows of the input, each taken at most once and in the
    input's order, and the columns are unchanged.  (Hence distinct index
    labels stay distinct: [apply_filters_NoDup].) *)
Theorem apply_filters_subsequence df a b ano s1 s2 s3 s4 s5 :
  rows (apply_filters df a b ano s1 s2 s3 s4 s5) `sublist_of` rows df ∧
  columns (apply_filters df a b ano s1 s2 s3 s4 s5) = columns df.
Proof.
  destruct (apply_filters_narrowed df a b ano s1 s2 s3 s4 s5) as [Hc Hr].
  by split.
Qed.

(** C1, as stated, fails: with no document type selected, and every other
    filter at its default, the sample frame keeps its two dated records. *)
Lemma empty_selection_counterexample :
  (rows (apply_filters sample_loaded (Date 2023 1 10) (Date 2024 1 5)
           (Str "Todos")
           (unique "CATEGORIA_SCANIA" sample_loaded)
           (unique "CATEGORIA" sample_loaded)
           []
           (unique "NOME_TAREFA" sample_loaded)
           (unique "TAREFA_CONSOLIDADA" sample_loaded))).*1 = [0%nat; 3%nat] ∧
  (rows (apply_filters sample_loaded (Date 2023 1 10) (Date 2024 1 5)
           (Str "Todos") [] [] [] [] [])).*1 = [0%nat; 3%nat].
Proof. split; vm_compute; reflexivity. Qed.

(** C1, amended.  An empty selection leaves its filter out: for each of the
    five multi-selects, [apply_filters] with the empty selection returns
    what it returns with every value of that column selected. *)
Theorem empty_selection_selects_all df a b ano s1 s2 s3 s4 s5 :
  apply_filters df a b ano [] s2 s3 s4 s5 =
    apply_filters df a b ano (unique "CATEGORIA_SCANIA" df) s2 s3 s4 s5 ∧
  apply_filters df a b ano s1 [] s3 s4 s5 =
    apply_filters df a b ano s1 (unique "CATEGORIA" df) s3 s4 s5 ∧
  apply_filters df a b ano s1 s2 [] s4 s5 =
    apply_filters df a b ano s1 s2 (unique "TIPO_DOC" df) s4 s5 ∧
  apply_filters df a b ano s1 s2 s3 [] s5 =
    apply_filters df a b ano s1 s2 s3 (unique "NOME_TAREFA" df) s5 ∧
  apply_filters df a b ano s1 s2 s3 s4 [] =
    apply_filters df a b ano s1 s2 s3 s4 (unique "TAREFA_CONSOLIDADA" df).
Proof.
  rewrite !apply_filters_steps. repeat split.
  - by rewrite (isin_step_empty_is_all df _ "CATEGORIA_SCANIA")
      by auto 10 with filters.
  - by rewrite (isin_step_empty_is_all df _ "CATEGORIA")
      by auto 10 with filters.
  - by rewrite (isin_step_empty_is_all df _ "TIPO_DOC")
      by auto 10 with filters.
  - by rewrite (isin_step_empty_is_all df _ "NOME_TAREFA")
      by auto 10 with filters.
  - by rewrite (isin_step_empty_is_all df _ "TAREFA_CONSOLIDADA")
      by auto 10 with filters.
Qed.

(** C2, as stated, fails: over the dates from the smallest to the largest
    due date, with year "Todos" and every value selected, the sample frame
    loses the two records that have no due date. *)
Lemma identity_case_counterexample :
  min_date sample_loaded = Some (Date 2023 1 10) ∧
  max_date (Date 2026 11 3) sample_loaded = Some (Date 2024 1 5) ∧
  (rows sample_loaded).*1 = [0%nat; 1%nat; 3%nat; 4%nat] ∧
  (rows sample_filtered).*1 = [0%nat; 3%nat] ∧
  sample_filtered ≠ sample_loaded.
Proof.
  repeat split; try (vm_compute; reflexivity).
  intros H. apply (f_equal (λ df, length (rows df))) in H.
  vm_compute in H. discriminate.
Qed.

(** C2, amended.  Over a date range that spans the due dates, with year
    "Todos" and every value of the five filtered columns selected,
    [apply_filters] returns the records that have a due date, in order;
    that is the whole frame when no due date is missing (or there is no
    due-date column). *)
Theorem identity_case_keeps_dated_records df a b s1 s2 s3 s4 s5 :
  spans df a b →
  all_selected "CATEGORIA_SCANIA" s1 df →
  all_selected "CATEGORIA" s2 df →
  all_selected "TIPO_DOC" s3 df →
  all_selected "NOME_TAREFA" s4 df →
  all_selected "TAREFA_CONSOLIDADA" s5 df →
  apply_filters df a b (Str "Todos") s1 s2 s3 s4 s5 =
    (if col_in "DATA_VENCIMENTO" df
     then loc (λ r, is_timestamp (r !!! "DATA_VENCIMENTO")) df
     else df) ∧
  ((∀ ir, ir ∈ rows df → is_timestamp (ir.2 !!! "DATA_VENCIMENTO") = true) →
   apply_filters df a b (Str "Todos") s1 s2 s3 s4 s5 = df).
Proof.
  intros Hs H1 H2 H3 H4 H5.
  rewrite (identity_case_rows df a b s1 s2 s3 s4 s5) by done.
  split; [done|]. intros Hall.
  destruct (col_in "DATA_VENCIMENTO" df); [|done]. by apply loc_all.
Qed.

Lemma identity_case_keeps_dated_records_witness :
  apply_filters sample_loaded (Date 2023 1 10) (Date 2024 1 5) (Str "Todos")
    (unique "CATEGORIA_SCANIA" sample_loaded)
    (unique "CATEGORIA" sample_loaded)
    (unique "TIPO_DOC" sample_loaded) (unique "NOME_TAREFA" sample_loaded)
    (unique "TAREFA_CONSOLIDADA" sample_loaded) =
  loc (λ r, is_timestamp (r !!! "DATA_VENCIMENTO")) sample_loaded.
Proof.
  pose proof (identity_case_keeps_dated_records sample_loaded
                (Date 2023 1 10) (Date 2024 1 5)
                (unique "CATEGORIA_SCANIA" sample_loaded)
                (unique "CATEGORIA" sample_loaded)
                (unique "TIPO_DOC" sample_loaded)
                (unique "NOME_TAREFA" sample_loaded)
                (unique "TAREFA_CONSOLIDADA" sample_loaded)) as H.
  rewrite sample_loaded_has_due in H.
  apply H.
  - apply (min_max_date_spans (Date 2026 11 3)); vm_compute; reflexivity.
  - apply unique_all_selected.
  - apply unique_all_selected.
  - apply unique_all_selected.
  - apply unique_all_selected.
  - apply unique_all_selected.
Defined.

(** * The aggregates *)

Section Aggregates.

Context {F : Float64}.

(** Under their guards the four aggregate frames are built: the group-by
    cannot raise. *)
Lemma df_categoria_built df :
  empty df = false → col_in "CATEGORIA" df = true → col_in "VALOR" df = true →
  ∃ agg, df_categoria df = Ok (Some agg).
Proof.
  intros He Hc Hv. unfold df_categoria. rewrite He, Hc, Hv. cbn [andb].
  destruct (groupby_sum_ok ["CATEGORIA"] "VALOR" df) as [g ->]; [|by eexists].
  repeat constructor; done.
Qed.

Lemma df_concessionaria_built df :
  empty df = false → col_in "CATEGORIA_SCANIA" df = true →
  col_in "VALOR" df = true →
  ∃ g, groupby_sum ["CATEGORIA_SCANIA"] "VALOR" df = Ok g ∧
       df_concessionaria df = Ok (Some (sort_values ["VALOR"] true g)).
Proof.
  intros He Hc Hv. unfold df_concessionaria. rewrite He, Hc, Hv. cbn [andb].
  destruct (groupby_sum_ok ["CATEGORIA_SCANIA"] "VALOR" df) as [g Hg].
  { repeat constructor; done. }
  exists g. by rewrite Hg.
Qed.

Lemma df_tarefa_built df :
  empty df = false → col_in "TAREFA_CONSOLIDADA" df = true →
  col_in "VALOR" df = true →
  ∃ g, groupby_sum ["TAREFA_CONSOLIDADA"] "VALOR" df = Ok g ∧
       df_tarefa df = Ok (Some (head 15 (sort_values ["VALOR"] false g))).
Proof.
  intros He Hc Hv. unfold df_tarefa. rewrite He, Hc, Hv. cbn [andb negb].
  destruct (groupby_sum_ok ["TAREFA_CONSOLIDADA"] "VALOR" df) as [g Hg].
  { repeat constructor; done. }
  exists g. by rewrite Hg.
Qed.

Lemma df_mensal_built df :
  empty df = false →
  Forall (λ c, col_in c df = true)
    ["MES_ANO"; "MES_NOME"; "ANO"; "MES"; "VALOR"] →
  ∃ g, groupby_sum ["MES_ANO"; "MES_NOME"; "ANO"; "MES"] "VALOR" df = Ok g ∧
       df_mensal df = Ok (Some (sort_values ["ANO"; "MES"] true g)).
Proof.
  intros He Hall.
  destruct (groupby_sum_ok ["MES_ANO"; "MES_NOME"; "ANO"; "MES"] "VALOR" df)
    as [g Hg]; [done|].
  rewrite !Forall_cons in Hall. destruct Hall as (H1 & _ & _ & _ & H2 & _).
  exists g. split; [done|]. unfold df_mensal. by rewrite He, H1, H2, Hg.
Qed.

Lemma df_categoria_inv df agg :
  df_categoria df = Ok (Some agg) → groupby_sum ["CATEGORIA"] "VALOR" df = Ok agg.
Proof.
  unfold df_categoria. destruct (empty df); [done|].
  destruct (_ && _); [|done].
  destruct (groupby_sum ["CATEGORIA"] "VALOR" df) as [g|e]; [|done].
  cbn. congruence.
Qed.

(** C3, amended.  The category aggregate has one row for each category of
    the records, missing ones apart, and the row holds the group sum of the
    amounts of the records of that category: a record without a category is
    in no row.  Where the float sums are exact, the per-category totals add
    up to the amounts of the records whose category is not missing; that is
    the total of the frame when every record has a category. *)
Theorem category_totals_conserve_categorised df agg :
  df_categoria df = Ok (Some agg) →
  (NoDup (column "CATEGORIA" agg) ∧
   (∀ c, c ∈ column "CATEGORIA" agg ↔
         isna c = false ∧ ∃ ir, ir ∈ rows df ∧ ir.2 !!! "CATEGORIA" = c) ∧
   Forall (λ ir, ir.2 !!! "VALOR" =
                 Num (group_sum
                        (numbers
                           (column "VALOR"
                              (loc (λ r, bool_decide
                                           (r !!! "CATEGORIA" =
                                            ir.2 !!! "CATEGORIA")) df)))))
     (rows agg)) ∧
  ∀ bound,
    exact_below bound → magnitude (numbers (column "VALOR" df)) ≤ bound →
    column_sum "VALOR" agg =
      column_sum "VALOR" (loc (λ r, negb (isna (r !!! "CATEGORIA"))) df) ∧
    ((∀ ir, ir ∈ rows df → isna (ir.2 !!! "CATEGORIA") = false) →
     column_sum "VALOR" agg = column_sum "VALOR" df).
Proof.
  intros Hg%df_categoria_inv. split.
  - destruct (groupby_single_spec "CATEGORIA" "VALOR" df agg ltac:(done) Hg)
      as (Hs & Hk & Hv).
    split; [by apply StronglySorted_lt_NoDup|done].
  - intros bound Hex Hm.
    assert (magnitude (numbers (column "VALOR"
                                  (loc (has_key ["CATEGORIA"]) df))) ≤ bound)
      as Hm'.
    { etrans; [|exact Hm]. apply magnitude_sublist, numbers_sublist.
      unfold column, cells. apply fmap_sublist, rows_loc_sublist. }
    destruct (groupby_sum_exact bound _ _ _ _ Hex Hm' Hg) as [Hmg Htot].
    assert (column_sum "VALOR" agg =
            column_sum "VALOR" (loc (λ r, negb (isna (r !!! "CATEGORIA"))) df))
      as Heq.
    { rewrite (column_sum_exact bound "VALOR" agg) by done. rewrite Htot.
      rewrite (loc_ext (has_key ["CATEGORIA"])
                 (λ r, negb (isna (r !!! "CATEGORIA"))))
        by (intros; apply has_key_singleton).
      symmetry. apply (column_sum_exact bound); [done|].
      rewrite <-(loc_ext (has_key ["CATEGORIA"])
                   (λ r, negb (isna (r !!! "CATEGORIA"))))
        by (intros; apply has_key_singleton).
      done. }
    split; [done|]. intros Hall. rewrite Heq, loc_all; [done|].
    intros ir Hir. by rewrite Hall.
Qed.

(** C5.  The consolidated-task aggregate has at most 15 rows. *)
Theorem df_tarefa_at_most_15 df agg :
  df_tarefa df = Ok (Some agg) → (length (rows agg) ≤ 15)%nat.
Proof.
  unfold df_tarefa. intros Hagg.
  destruct (_ && _); [|done].
  destruct (groupby_sum _ _ df) as [g|e]; [|done].
  cbn in Hagg. injection Hagg as <-.
  unfold head; cbn [rows]. rewrite length_take. lia.
Qed.

(** On numeric years and months, the order of
    [sort_values(['ANO', 'MES'])] is the order of the pairs. *)
Lemma sorted_before_ano_mes x y y1 m1 y2 m2 :
  x.2 !!! "ANO" = Num y1 → x.2 !!! "MES" = Num m1 →
  y.2 !!! "ANO" = Num y2 → y.2 !!! "MES" = Num m2 →
  sorted_before ["ANO"; "MES"] true x y ↔ y1 < y2 ∨ (y1 = y2 ∧ m1 ≤ m2).
Proof.
  intros Hy1 Hm1 Hy2 Hm2. unfold sorted_before. cbn [rows_compare].
  rewrite Hy1, Hm1, Hy2, Hm2. unfold key_compare. cbn [isna cell_compare].
  destruct (Z.compare_spec y1 y2) as [Ey|Ly|Gy],
    (Z.compare_spec m1 m2) as [Em|Lm|Gm];
    split; intros Hxy; try done; try lia.
Qed.

(** The years and months of a monthly aggregate are those of rows of the
    frame, and none is missing. *)
Lemma groupby_mensal_numbers df g :
  Forall (λ ir, is_numeric (ir.2 !!! "ANO") = true ∧
                is_numeric (ir.2 !!! "MES") = true) (rows df) →
  groupby_sum ["MES_ANO"; "MES_NOME"; "ANO"; "MES"] "VALOR" df = Ok g →
  Forall (λ ir, ir.2 !!! "ANO" = Num (num_of (ir.2 !!! "ANO")) ∧
                ir.2 !!! "MES" = Num (num_of (ir.2 !!! "MES"))) (rows g).
Proof.
  intros Hnum ->%groupby_sum_inv. cbn [rows].
  destruct (groups_of_spec ["MES_ANO"; "MES_NOME"; "ANO"; "MES"] (rows df))
    as (_ & Hkeys & _).
  apply Forall_forall. intros ir (i & [k s] & -> & Hi)%elem_of_lookup_imap.
  assert (k ∈ (groups_of ["MES_ANO"; "MES_NOME"; "ANO"; "MES"] (rows df)).*1)
    as Hk.
  { apply (list_elem_of_fmap_2 fst _ (k, s)).
    by apply list_elem_of_lookup_2 in Hi. }
  apply Hkeys in Hk as (ir & Hir & Hk).
  rewrite Forall_forall in Hnum. destruct (Hnum ir Hir) as [Hy Hm].
  pose proof (group_key_na_free _ _ _ Hk) as [Hna ->].
  cbn [fmap list_fmap na_free forallb] in Hna.
  rewrite !andb_true_iff, !negb_true_iff in Hna.
  destruct Hna as (_ & _ & Hya & Hma & _).
  cbn [fst snd zip zip_with fmap list_fmap list_to_map foldr].
  rewrite !lookup_total_insert_ne by done.
  rewrite lookup_total_insert_eq.
  rewrite !lookup_total_insert_ne by done.
  rewrite lookup_total_insert_eq.
  split.
  - by destruct (ir.2 !!! "ANO").
  - by destruct (ir.2 !!! "MES").
Qed.

(** C6.  On a frame that is not empty and has the amount column, each
    aggregate whose columns are there is built, and it is sorted: the
    monthly aggregate, over years and months that are numbers or missing,
    holds numbers as years and months and is in ascending order of (year,
    month); the dealer-category aggregate is in ascending order of amount;
    the consolidated-task aggregate is in descending order of amount. *)
Theorem aggregates_sorted df :
  empty df = false → col_in "VALOR" df = true →
  (Forall (λ c, col_in c df = true) ["MES_ANO"; "MES_NOME"; "ANO"; "MES"] →
   Forall (λ ir, is_numeric (ir.2 !!! "ANO") = true ∧
                 is_numeric (ir.2 !!! "MES") = true) (rows df) →
   ∃ agg, df_mensal df = Ok (Some agg) ∧
          Forall (λ ir, ∃ y m, ir.2 !!! "ANO" = Num y ∧ ir.2 !!! "MES" = Num m)
            (rows agg) ∧
          StronglySorted (λ a b, a.1 < b.1 ∨ (a.1 = b.1 ∧ a.2 ≤ b.2))
            (year_months agg)) ∧
  (col_in "CATEGORIA_SCANIA" df = true →
   ∃ agg, df_concessionaria df = Ok (Some agg) ∧
          StronglySorted Z.le (valores agg)) ∧
  (col_in "TAREFA_CONSOLIDADA" df = true →
   ∃ agg, df_tarefa df = Ok (Some agg) ∧
          StronglySorted (λ a b, b ≤ a) (valores agg)).
Proof.
  intros He Hv. split; [|split].
  - intros Hcols Hnum.
    destruct (df_mensal_built df He) as (g & Hg & ->).
    { rewrite !Forall_cons in Hcols. rewrite !Forall_cons. tauto. }
    pose proof (groupby_mensal_numbers df g Hnum Hg) as Hn.
    eexists. split; [done|].
    assert (Forall (λ ir, ir.2 !!! "ANO" = Num (num_of (ir.2 !!! "ANO")) ∧
                          ir.2 !!! "MES" = Num (num_of (ir.2 !!! "MES")))
              (rows (sort_values ["ANO"; "MES"] true g))) as Hn'
      by (by rewrite sort_values_rows).
    split.
    + eapply Forall_impl; [exact Hn'|]. intros ir [Hy Hm]. eauto.
    + unfold year_months.
      apply (StronglySorted_fmap_Forall
               (λ ir, ir.2 !!! "ANO" = Num (num_of (ir.2 !!! "ANO")) ∧
                      ir.2 !!! "MES" = Num (num_of (ir.2 !!! "MES")))
               (λ ir, (num_of (ir.2 !!! "ANO"), num_of (ir.2 !!! "MES")))
               (sorted_before ["ANO"; "MES"] true));
        [|exact Hn'|apply sort_values_sorted].
      intros x y [Hx1 Hx2] [Hy1 Hy2] Hxy. cbn [fst snd].
      by apply (sorted_before_ano_mes x y _ _ _ _ Hx1 Hx2 Hy1 Hy2).
  - intros Hc. destruct (df_concessionaria_built df He Hc Hv) as (g & Hg & ->).
    eexists. split; [done|]. by eapply sort_values_valores_asc.
  - intros Hc. destruct (df_tarefa_built df He Hc Hv) as (g & Hg & ->).
    eexists. split; [done|]. by eapply sort_values_valores_desc.
Qed.

End Aggregates.

(** C3, as stated, fails: the filtered sample holds 15000, of which the
    5000 of the record without a category are in no group.  (The amounts
    of the sample are whole and add exactly.) *)
Lemma total_conservation_counterexample :
  df_categoria sample_filtered = Ok (Some sample_categoria) ∧
  column_sum "VALOR" sample_categoria = 10000 ∧
  column_sum "VALOR" sample_filtered = 15000.
Proof. repeat split; vm_compute; reflexivity. Qed.

Lemma category_totals_conserve_categorised_witness :
  column_sum "VALOR" sample_categoria =
    column_sum "VALOR"
      (loc (λ r, negb (isna (r !!! "CATEGORIA"))) sample_filtered) ∧
  column "CATEGORIA" sample_categoria = [Str "CUSTO MANUTENCOES"].
Proof.
  destruct (category_totals_conserve_categorised sample_filtered
              sample_categoria) as [_ Htot]; [by vm_compute|].
  destruct (Htot 15000) as [Heq _].
  - intros l _. done.
  - by vm_compute.
  - split; [exact Heq|by vm_compute].
Defined.

(** Sixteen tasks give fifteen rows. *)
Lemma df_tarefa_at_most_15_witness :
  df_tarefa sixteen_tasks = Ok (Some sixteen_tasks_top) ∧
  (length (rows sixteen_tasks_top) ≤ 15)%nat.
Proof.
  split; [vm_compute; reflexivity|].
  apply (df_tarefa_at_most_15 sixteen_tasks). vm_compute. reflexivity.
Defined.

Lemma sixteen_tasks_top_values :
  valores sixteen_tasks_top =
  [1600; 1500; 1400; 1300; 1200; 1100; 1000; 900; 800; 700; 600; 500; 400;
   300; 200].
Proof. vm_compute. reflexivity. Qed.

(** The three aggregates of the filtered sample: two months in order, then
    the amounts in ascending and in descending order. *)
Lemma aggregates_sorted_witness :
  year_months sample_mensal = [(2023, 1); (2024, 1)] ∧
  StronglySorted (λ a b, a.1 < b.1 ∨ (a.1 = b.1 ∧ a.2 ≤ b.2))
    (year_months sample_mensal) ∧
  StronglySorted Z.le (valores sample_concessionaria) ∧
  StronglySorted (λ a b, b ≤ a) (valores sample_tarefa).
Proof.
  destruct (aggregates_sorted sample_filtered) as (Hm & Hc & Ht);
    [by vm_compute|by vm_compute|].
  destruct Hm as (mensal & Hmensal & _ & Hsm).
  { repeat (apply Forall_cons_2; [by vm_compute|]). apply Forall_nil_2. }
  { unfold sample_filtered; cbn [rows].
    repeat (apply Forall_cons_2; [by vm_compute|]). apply Forall_nil_2. }
  destruct (Hc ltac:(by vm_compute)) as (conc & Hconc & Hsc).
  destruct (Ht ltac:(by vm_compute)) as (tarefa & Htarefa & Hst).
  assert (df_mensal sample_filtered = Ok (Some sample_mensal)) as Hm'
    by (by vm_compute).
  assert (df_concessionaria sample_filtered = Ok (Some sample_concessionaria))
    as Hc' by (by vm_compute).
  assert (df_tarefa sample_filtered = Ok (Some sample_tarefa)) as Ht'
    by (by vm_compute).
  assert (mensal = sample_mensal) as -> by congruence.
  assert (conc = sample_concessionaria) as -> by congruence.
  assert (tarefa = sample_tarefa) as -> by congruence.
  split; [vm_compute; reflexivity|].
  exact (conj Hsm (conj Hsc Hst)).
Defined.

(** * The loader *)

(** C7.  In a loaded frame that has the due-date column, the year, the
    month, the year-month key and the month label of every record are
    computed from that record's due date ([DATA_VENCIMENTO]); the issue
    date plays no part. *)
Theorem derived_fields_from_due_date
    (parse_datetime : list cell → string → option (date * Z))
    (epoch_datetime : list cell → Z → option (date * Z))
    (parse_numeric : string → option Z) (read : result DataFrame) :
  col_in "DATA_VENCIMENTO"
    (load_data parse_datetime epoch_datetime parse_numeric read).1 = true →
  Forall (λ ir, derived_from_due ir.2)
    (rows (load_data parse_datetime epoch_datetime parse_numeric read).1).
Proof.
  unfold load_data.
  destruct (load_data_try parse_datetime epoch_datetime parse_numeric read)
    as [df|e] eqn:Hl; cbn [fst]; [|done].
  apply load_data_try_inv in Hl as (sheet & -> & Hc & _ & ->).
  rewrite col_in_loc. intros Hd%prepared_derived.
  apply Forall_forall. intros ir [_ Hir]%elem_of_rows_loc.
  rewrite Forall_forall in Hd. by apply Hd.
Qed.

Lemma derived_fields_from_due_date_witness :
  Forall (λ ir, derived_from_due ir.2)
    (rows (load_data sample_parse_datetime sample_epoch_datetime
             sample_parse_numeric (Ok sample_sheet)).1).
Proof.
  apply (derived_fields_from_due_date sample_parse_datetime
           sample_epoch_datetime sample_parse_numeric (Ok sample_sheet)).
  vm_compute. reflexivity.
Defined.

(** C8.  When the sheet has the amount column, and no date column under
    two headers, the load completes without a message; the records it
    returns are, in order, those of the sheet whose amount coerces to a
    number, and each holds that number. *)
Theorem load_data_drops_rows_without_amount
    (parse_datetime : list cell → string → option (date * Z))
    (epoch_datetime : list cell → Z → option (date * Z))
    (parse_numeric : string → option Z) (sheet : DataFrame) :
  col_in "VALOR" sheet = true →
  date_headers_distinct sheet = true →
  (load_data parse_datetime epoch_datetime parse_numeric (Ok sheet)).2 = [] ∧
  (rows (load_data parse_datetime epoch_datetime parse_numeric (Ok sheet)).1).*1 =
    (filter (λ ir, negb (isna (to_numeric parse_numeric (ir.2 !!! "VALOR"))))
            (rows sheet)).*1 ∧
  Forall (λ ir, ∃ r z, (ir.1, r) ∈ rows sheet ∧
                       to_numeric parse_numeric (r !!! "VALOR") = Num z ∧
                       ir.2 !!! "VALOR" = Num z)
    (rows (load_data parse_datetime epoch_datetime parse_numeric (Ok sheet)).1).
Proof.
  intros Hc Hdist. rewrite load_data_fst_ok by done. cbn [fst snd].
  pose proof (prepared_valor parse_datetime epoch_datetime parse_numeric
                sheet Hc) as Hrel.
  split; [done|]. split.
  - symmetry. unfold loc; cbn [rows].
    apply (related_filter_labels _
             (λ x, negb (isna (to_numeric parse_numeric (x.2 !!! "VALOR"))))
             (λ y, negb (isna (y.2 !!! "VALOR"))) _ _ Hrel).
    intros i r r' Hv. cbn [snd]. by rewrite Hv.
  - apply Forall_forall. intros [i r'] [Hm Hin]%elem_of_rows_loc.
    destruct (related_elem_of_r _ _ _ _ _ Hrel Hin) as (r & Hr & Hv).
    cbn [fst snd] in *.
    destruct (to_numeric_dtype parse_numeric (r !!! "VALOR")) as [Hn|[z Hz]].
    + by rewrite Hv, Hn in Hm.
    + exists r, z. by rewrite Hv.
Qed.

Lemma load_data_drops_rows_without_amount_witness :
  (load_data sample_parse_datetime sample_epoch_datetime sample_parse_numeric
     (Ok sample_sheet)).2 = [] ∧
  (rows (load_data sample_parse_datetime sample_epoch_datetime
           sample_parse_numeric (Ok sample_sheet)).1).*1 =
    (filter (λ ir, negb (isna (to_numeric sample_parse_numeric
                                 (ir.2 !!! "VALOR"))))
            (rows sample_sheet)).*1 ∧
  Forall (λ ir, ∃ r z, (ir.1, r) ∈ rows sample_sheet ∧
                       to_numeric sample_parse_numeric (r !!! "VALOR") = Num z ∧
                       ir.2 !!! "VALOR" = Num z)
    (rows (load_data sample_parse_datetime sample_epoch_datetime
             sample_parse_numeric (Ok sample_sheet)).1).
Proof.
  apply (load_data_drops_rows_without_amount sample_parse_datetime
           sample_epoch_datetime sample_parse_numeric sample_sheet).
  - vm_compute. reflexivity.
  - vm_compute. reflexivity.
Defined.

(** C9.  When the load raises (a missing file or sheet makes
    [pd.read_excel] raise; a missing amount column makes [dropna] raise; a
    date column under two headers makes [pd.to_datetime] raise),
    [load_data] returns the empty frame and shows the error with the
    remediation hints. *)
Theorem load_data_reports_error
    (parse_datetime : list cell → string → option (date * Z))
    (epoch_datetime : list cell → Z → option (date * Z))
    (parse_numeric : string → option Z) (read : result DataFrame) (e : exn) :
  load_data_try parse_datetime epoch_datetime parse_numeric read = Raise e →
  load_data parse_datetime epoch_datetime parse_numeric read =
  (empty_frame,
   [st_error ("Erro ao carregar dados: " +:+ str_exn e); st_info verifique]).
Proof. unfold load_data. by intros ->. Qed.

Lemma load_data_reports_error_witness :
  load_data sample_parse_datetime sample_epoch_datetime sample_parse_numeric
    (Raise (ReadError "[Errno 2] No such file or directory: 'consolidado.xlsx'")) =
  (empty_frame,
   [st_error ("Erro ao carregar dados: " +:+
              str_exn (ReadError "[Errno 2] No such file or directory: 'consolidado.xlsx'"));
    st_info verifique]).
Proof.
  apply (load_data_reports_error sample_parse_datetime sample_epoch_datetime
           sample_parse_numeric
           (Raise (ReadError "[Errno 2] No such file or directory: 'consolidado.xlsx'"))).
  reflexivity.
Defined.

(** A sheet without the amount column also ends in the empty frame. *)
Lemma load_data_without_valor parse_datetime epoch_datetime parse_numeric sheet :
  col_in "VALOR" sheet = false →
  date_headers_distinct sheet = true →
  load_data parse_datetime epoch_datetime parse_numeric (Ok sheet) =
  (empty_frame,
   [st_error "Erro ao carregar dados: ['VALOR']"; st_info verifique]).
Proof.
  intros Hc Hd. unfold load_data. by rewrite load_data_try_no_valor.
Qed.

(** C10.  When the sheet has the amount column and a due-date column, and
    no date column under two headers: a record of the sheet whose due date
    coerces to [NaT], read as a cell of its column, and whose amount is a
    number is in the loaded frame, with [NaT] as its due date; and no
    record whose due date is [NaT] is in the output of [apply_filters],
    whatever the dates and selections. *)
Theorem missing_due_date_loaded_but_filtered_out
    (parse_datetime : list cell → string → option (date * Z))
    (epoch_datetime : list cell → Z → option (date * Z))
    (parse_numeric : string → option Z) (sheet : DataFrame) :
  col_in "VALOR" sheet = true →
  date_headers_distinct sheet = true →
  col_in "DATA VENCIMENTO" sheet || col_in "DATA_VENCIMENTO" sheet = true →
  (∀ i r,
     (i, r) ∈ rows sheet →
     to_datetime parse_datetime epoch_datetime (due_cells sheet)
       (due_cell sheet r) = NaT →
     isna (to_numeric parse_numeric (r !!! "VALOR")) = false →
     ∃ r', (i, r') ∈ rows (load_data parse_datetime epoch_datetime
                             parse_numeric (Ok sheet)).1 ∧
           r' !!! "DATA_VENCIMENTO" = NaT) ∧
  (∀ a b ano s1 s2 s3 s4 s5 ir,
     ir ∈ rows (apply_filters
                  (load_data parse_datetime epoch_datetime parse_numeric
                     (Ok sheet)).1 a b ano s1 s2 s3 s4 s5) →
     ir.2 !!! "DATA_VENCIMENTO" ≠ NaT).
Proof.
  intros Hc Hdist Hd. rewrite load_data_fst_ok by done. cbn [fst].
  destruct (prepared_due parse_datetime epoch_datetime parse_numeric sheet)
    as [Hcd Hrd].
  specialize (Hrd Hd).
  pose proof (prepared_valor parse_datetime epoch_datetime parse_numeric
                sheet Hc) as Hrv.
  split.
  - intros i r Hin Hnat Hnum.
    destruct (related_elem_of _ _ _ i r (related_and _ _ _ _ Hrd Hrv) Hin)
      as (r' & Hin' & Hd' & Hv').
    exists r'. split; [|by rewrite Hd'].
    apply elem_of_rows_loc. cbn [snd]. by rewrite Hv', Hnum.
  - intros a b ano s1 s2 s3 s4 s5 ir Hir Hn.
    apply apply_filters_timestamp in Hir.
    + by rewrite Hn in Hir.
    + by rewrite col_in_loc, Hcd.
Qed.

Lemma missing_due_date_loaded_but_filtered_out_witness :
  (∀ i r,
     (i, r) ∈ rows sample_sheet →
     to_datetime sample_parse_datetime sample_epoch_datetime
       (due_cells sample_sheet) (due_cell sample_sheet r) = NaT →
     isna (to_numeric sample_parse_numeric (r !!! "VALOR")) = false →
     ∃ r', (i, r') ∈ rows (load_data sample_parse_datetime
                             sample_epoch_datetime sample_parse_numeric
                             (Ok sample_sheet)).1 ∧
           r' !!! "DATA_VENCIMENTO" = NaT) ∧
  (∀ a b ano s1 s2 s3 s4 s5 ir,
     ir ∈ rows (apply_filters
                  (load_data sample_parse_datetime sample_epoch_datetime
                     sample_parse_numeric (Ok sample_sheet)).1
                  a b ano s1 s2 s3 s4 s5) →
     ir.2 !!! "DATA_VENCIMENTO" ≠ NaT).
Proof.
  apply (missing_due_date_loaded_but_filtered_out sample_parse_datetime
           sample_epoch_datetime sample_parse_numeric sample_sheet).
  - vm_compute. reflexivity.
  - vm_compute. reflexivity.
  - vm_compute. reflexivity.
Defined.

(** * Further properties of the filter engine *)

Lemma loc_loc m1 m2 df :
  loc m2 (loc m1 df) = loc (λ r, m1 r && m2 r) df.
Proof.
  destruct df as [cs rs]. unfold loc; cbn [columns rows]. f_equal.
  induction rs as [|x rs IH]; [done|].
  rewrite (filter_cons (λ ir, m1 ir.2)), (filter_cons (λ ir, m1 ir.2 && m2 ir.2)).
  destruct (m1 x.2) eqn:H1.
  - rewrite decide_True by done. rewrite filter_cons. cbn [andb].
    destruct (m2 x.2).
    + rewrite !decide_True by done. by rewrite IH.
    + rewrite !decide_False by (by intros []). done.
  - rewrite !decide_False by (by intros []). done.
Qed.

Lemma loc_true df : loc (λ _, true) df = df.
Proof. by apply loc_all. Qed.

(** A guarded mask on an already masked frame. *)
Lemma guarded_loc (g : bool) m1 m2 df :
  (if g then loc m2 (loc m1 df) else loc m1 df) =
  loc (λ r, m1 r && (negb g || m2 r)) df.
Proof.
  destruct g; cbn [negb orb].
  - apply loc_loc.
  - apply loc_ext. intros ir _. by rewrite andb_true_r.
Qed.

Lemma date_step_loc a b df :
  date_step a b df =
  loc (λ r, negb (col_in "DATA_VENCIMENTO" df)
            || dt_date_ge (r !!! "DATA_VENCIMENTO") a
               && dt_date_le (r !!! "DATA_VENCIMENTO") b) df.
Proof.
  unfold date_step. destruct (col_in "DATA_VENCIMENTO" df) eqn:Hc; cbn [andb negb orb].
  - destruct (empty df) eqn:He; cbn [negb]; [|done].
    symmetry. apply loc_all. intros ir Hir.
    by rewrite (col_in_not_empty _ _ _ Hc Hir) in He.
  - symmetry. apply loc_true.
Qed.

Lemma year_step_loc ano m df0 :
  year_step ano (loc m df0) =
  loc (λ r, m r && (negb (py_ne ano (Str "Todos") && col_in "ANO" df0)
                    || py_eq (r !!! "ANO") ano)) df0.
Proof. unfold year_step. rewrite col_in_loc. apply guarded_loc. Qed.

Lemma isin_step_loc col sel m df0 :
  isin_step col sel (loc m df0) =
  loc (λ r, m r && (negb (truthy sel && col_in col df0)
                    || isin sel (r !!! col))) df0.
Proof. unfold isin_step. rewrite col_in_loc. apply guarded_loc. Qed.

Lemma apply_filters_loc df a b ano s1 s2 s3 s4 s5 :
  apply_filters df a b ano s1 s2 s3 s4 s5 =
  loc (passes df a b ano s1 s2 s3 s4 s5) df.
Proof.
  rewrite apply_filters_steps, date_step_loc, year_step_loc.
  rewrite !isin_step_loc. apply loc_ext. intros ir _. reflexivity.
Qed.

Lemma passes_loc m df a b ano s1 s2 s3 s4 s5 r :
  passes (loc m df) a b ano s1 s2 s3 s4 s5 r =
  passes df a b ano s1 s2 s3 s4 s5 r.
Proof. reflexivity. Qed.

(** X1.  [apply_filters] keeps exactly the records that pass every mask
    whose guard holds: the seven successive steps amount to one
    conjunction, so their order does not matter. *)
Theorem apply_filters_conjunction df a b ano s1 s2 s3 s4 s5 :
  apply_filters df a b ano s1 s2 s3 s4 s5 =
    loc (passes df a b ano s1 s2 s3 s4 s5) df ∧
  ∀ ir, ir ∈ rows (apply_filters df a b ano s1 s2 s3 s4 s5) ↔
        ir ∈ rows df ∧ passes df a b ano s1 s2 s3 s4 s5 ir.2 = true.
Proof.
  rewrite apply_filters_loc. split; [done|].
  intros ir. rewrite elem_of_rows_loc. tauto.
Qed.

(** X2.  Filtering twice with the same arguments changes nothing more. *)
Theorem apply_filters_idempotent df a b ano s1 s2 s3 s4 s5 :
  apply_filters (apply_filters df a b ano s1 s2 s3 s4 s5)
    a b ano s1 s2 s3 s4 s5 =
  apply_filters df a b ano s1 s2 s3 s4 s5.
Proof.
  rewrite (apply_filters_loc df).
  rewrite (apply_filters_loc (loc _ df)), loc_loc.
  apply loc_ext. intros ir _. rewrite passes_loc. apply andb_diag.
Qed.

(** X3.  With the due-date column present, a start date after the end date
    leaves no record. *)
Theorem inverted_date_range_is_empty df a b ano s1 s2 s3 s4 s5 :
  col_in "DATA_VENCIMENTO" df = true →
  date_leb a b = false →
  rows (apply_filters df a b ano s1 s2 s3 s4 s5) = [].
Proof.
  intros Hc Hab.
  destruct (rows (apply_filters df a b ano s1 s2 s3 s4 s5)) as [|ir rs] eqn:Hr;
    [done|].
  assert (ir ∈ rows (apply_filters df a b ano s1 s2 s3 s4 s5)) as Hir.
  { rewrite Hr. by left. }
  eapply narrowed_elem_of in Hir; [|apply apply_filters_date_step].
  apply date_step_timestamp in Hir as [Hge Hle]; [|done].
  destruct (ir.2 !!! "DATA_VENCIMENTO") as [| | | |d t]; try done.
  cbn in Hge, Hle. by rewrite (date_leb_trans a d b) in Hab.
Qed.

Lemma inverted_date_range_is_empty_witness :
  rows (apply_filters sample_loaded (Date 2024 1 5) (Date 2023 1 10)
          (Str "Todos") [] [] [] [] []) = [].
Proof.
  apply inverted_date_range_is_empty; vm_compute; reflexivity.
Defined.

(** X4.  When a year is chosen and the frame has the year column, every
    record kept has that year; and choosing the missing year, which the
    selectbox offers when some due date is missing, keeps no record. *)
Theorem year_filter_keeps_the_year df a b ano s1 s2 s3 s4 s5 :
  ano ≠ Str "Todos" →
  col_in "ANO" df = true →
  (∀ ir, ir ∈ rows (apply_filters df a b ano s1 s2 s3 s4 s5) →
         ir.2 !!! "ANO" = ano) ∧
  (isna ano = true → rows (apply_filters df a b ano s1 s2 s3 s4 s5) = []).
Proof.
  intros Hano Hc.
  assert (∀ ir, ir ∈ rows (apply_filters df a b ano s1 s2 s3 s4 s5) →
                py_eq (ir.2 !!! "ANO") ano = true) as Hall.
  { intros ir Hir. rewrite apply_filters_loc in Hir.
    apply elem_of_rows_loc in Hir as [Hp _].
    unfold passes in Hp. rewrite !andb_true_iff in Hp.
    destruct Hp as [[[[[[_ Hy] _] _] _] _] _].
    rewrite Hc in Hy.
    assert (py_ne ano (Str "Todos") = true) as Hne.
    { unfold py_ne, py_eq. apply negb_true_iff.
      rewrite !andb_false_iff, bool_decide_eq_false. auto. }
    by rewrite Hne in Hy. }
  split.
  - intros ir Hir. specialize (Hall ir Hir). unfold py_eq in Hall.
    rewrite !andb_true_iff, bool_decide_eq_true in Hall. tauto.
  - intros Hna.
    destruct (rows (apply_filters df a b ano s1 s2 s3 s4 s5)) as [|ir rs];
      [done|].
    specialize (Hall ir ltac:(by left)). unfold py_eq in Hall.
    rewrite Hna, andb_false_r in Hall. done.
Qed.

Lemma year_filter_keeps_the_year_witness :
  (∀ ir, ir ∈ rows (apply_filters sample_loaded (Date 2023 1 10)
                      (Date 2024 1 5) (Num 2023) [] [] [] [] []) →
         ir.2 !!! "ANO" = Num 2023) ∧
  (isna (Num 2023) = true →
   rows (apply_filters sample_loaded (Date 2023 1 10) (Date 2024 1 5)
           (Num 2023) [] [] [] [] []) = []).
Proof.
  apply year_filter_keeps_the_year; [discriminate|vm_compute; reflexivity].
Defined.

Lemma year_filter_sample :
  (rows (apply_filters sample_loaded (Date 2023 1 10) (Date 2024 1 5)
           (Num 2023) [] [] [] [] [])).*1 = [0%nat] ∧
  rows (apply_filters sample_loaded (Date 2023 1 10) (Date 2024 1 5)
          NaN [] [] [] [] []) = [].
Proof. split; vm_compute; reflexivity. Qed.

(** * Further properties of [create_filters] *)

Lemma foldl_min_elem d ds :
  foldl (λ m x, if date_leb x m then x else m) d ds ∈ d :: ds.
Proof.
  revert d. induction ds as [|y ds IH]; intros d; cbn [foldl].
  - by left.
  - destruct (date_leb y d).
    + right. apply IH.
    + specialize (IH d). apply elem_of_cons in IH as [->|IH].
      * by left.
      * by do 2 right.
Qed.

Lemma foldl_max_elem d ds :
  foldl (λ m x, if date_leb m x then x else m) d ds ∈ d :: ds.
Proof.
  revert d. induction ds as [|y ds IH]; intros d; cbn [foldl].
  - by left.
  - destruct (date_leb d y).
    + right. apply IH.
    + specialize (IH d). apply elem_of_cons in IH as [->|IH].
      * by left.
      * by do 2 right.
Qed.

(** X5.  On a non-empty frame with the due-date column, the default
    bounds of the two date inputs are due dates of records, the start is
    not after the end, and every due date lies between them. *)
Theorem default_date_bounds today df a b :
  col_in "DATA_VENCIMENTO" df = true →
  empty df = false →
  min_date df = Some a →
  max_date today df = Some b →
  a ∈ vencimentos df ∧ b ∈ vencimentos df ∧ date_leb a b = true ∧
  ∀ d, d ∈ vencimentos df → date_leb a d = true ∧ date_leb d b = true.
Proof.
  intros Hc He Ha Hb.
  pose proof (min_max_date_spans today df a b Hc Ha Hb) as Hs.
  unfold min_date, max_date in Ha, Hb. rewrite Hc, He in Ha, Hb.
  cbn [andb negb] in Ha, Hb.
  destruct (vencimentos df) as [|d ds] eqn:Hv; [done|].
  injection Ha as <-. injection Hb as <-.
  assert (foldl (λ m x, if date_leb x m then x else m) d ds ∈ vencimentos df)
    as Hmin by (rewrite Hv; apply foldl_min_elem).
  assert (foldl (λ m x, if date_leb m x then x else m) d ds ∈ vencimentos df)
    as Hmax by (rewrite Hv; apply foldl_max_elem).
  rewrite <-Hv. repeat split; try done.
  - by apply (Hs _ Hmin).
  - by apply Hs.
  - by apply Hs.
Qed.

Lemma default_date_bounds_witness :
  Date 2023 1 10 ∈ vencimentos sample_loaded ∧
  Date 2024 1 5 ∈ vencimentos sample_loaded ∧
  date_leb (Date 2023 1 10) (Date 2024 1 5) = true ∧
  ∀ d, d ∈ vencimentos sample_loaded →
       date_leb (Date 2023 1 10) d = true ∧ date_leb d (Date 2024 1 5) = true.
Proof.
  apply (default_date_bounds (Date 2026 11 3) sample_loaded);
    vm_compute; reflexivity.
Defined.

(** * Further properties of the loader *)

(** X6.  In every frame [load_data] returns, each amount is a number, and
    each due date is a timestamp or [NaT]: the columns have the dtypes the
    filter engine and the aggregates rely on. *)
Theorem loaded_frame_dtypes
    (parse_datetime : list cell → string → option (date * Z))
    (epoch_datetime : list cell → Z → option (date * Z))
    (parse_numeric : string → option Z) (read : result DataFrame) :
  Forall (λ ir, ∃ z, ir.2 !!! "VALOR" = Num z)
    (rows (load_data parse_datetime epoch_datetime parse_numeric read).1) ∧
  if col_in "DATA_VENCIMENTO"
       (load_data parse_datetime epoch_datetime parse_numeric read).1
  then Forall (λ ir, ir.2 !!! "DATA_VENCIMENTO" = NaT ∨
                     is_timestamp (ir.2 !!! "DATA_VENCIMENTO") = true)
         (rows (load_data parse_datetime epoch_datetime parse_numeric read).1)
  else True.
Proof.
  destruct (load_data_dtypes parse_datetime epoch_datetime parse_numeric read)
    as [Hv Hd].
  split; [exact Hv|].
  destruct (col_in _ _); [by apply Hd|done].
Qed.

Section LoaderColumns.

Variable parse_datetime : list cell → string → option (date * Z).
Variable epoch_datetime : list cell → Z → option (date * Z).
Variable parse_numeric : string → option Z.

Lemma columns_parsed_dates df :
  columns (parsed_dates parse_datetime epoch_datetime df) = columns df.
Proof.
  unfold parsed_dates, date_columns. rewrite !fold_left_cons. cbn [fold_left].
  assert (∀ col cs d,
            columns (if col_in col d
                     then setitem col (λ r, to_datetime parse_datetime
                                          epoch_datetime cs (r !!! col)) d
                     else d) = columns d) as Hstep.
  { intros col cs d. destruct (col_in col d) eqn:Hc; [|done].
    by apply columns_setitem_present. }
  by rewrite !Hstep.
Qed.

Lemma columns_derive_fields df :
  columns (derive_fields df) =
  if col_in "DATA_VENCIMENTO" df
  then foldl add_label (columns df) derived_labels
  else columns df.
Proof. unfold derive_fields. by destruct (col_in "DATA_VENCIMENTO" df). Qed.

Lemma columns_coerce_valor df :
  columns (coerce_valor parse_numeric df) = columns df.
Proof.
  unfold coerce_valor. destruct (col_in "VALOR" df) eqn:Hc; [|done].
  rewrite columns_setitem. apply add_label_present.
  by apply bool_decide_eq_true in Hc.
Qed.

Lemma columns_prepared sheet :
  columns (prepared parse_datetime epoch_datetime parse_numeric sheet) =
  if bool_decide ("DATA_VENCIMENTO" ∈ canonical <$> columns sheet)
  then foldl add_label (canonical <$> columns sheet) derived_labels
  else canonical <$> columns sheet.
Proof.
  unfold prepared.
  rewrite columns_coerce_valor, columns_derive_fields.
  unfold col_in. by rewrite columns_parsed_dates, columns_rename_columns.
Qed.

End LoaderColumns.

(** X7.  When the sheet has the amount column, and no date column under
    two headers, the columns of the loaded frame are the headers of the
    sheet, in order, each known header variant under its canonical name and
    every other header unchanged, followed, when there is a due-date
    column, by those derived labels that are not headers already. *)
Theorem loaded_frame_columns
    (parse_datetime : list cell → string → option (date * Z))
    (epoch_datetime : list cell → Z → option (date * Z))
    (parse_numeric : string → option Z) (sheet : DataFrame) :
  col_in "VALOR" sheet = true →
  date_headers_distinct sheet = true →
  columns (load_data parse_datetime epoch_datetime parse_numeric (Ok sheet)).1 =
  if bool_decide ("DATA_VENCIMENTO" ∈ canonical <$> columns sheet)
  then foldl add_label (canonical <$> columns sheet) derived_labels
  else canonical <$> columns sheet.
Proof.
  intros Hc Hd. rewrite load_data_fst_ok by done. cbn [fst].
  rewrite columns_loc. apply columns_prepared.
Qed.

Lemma loaded_frame_columns_witness :
  columns (load_data sample_parse_datetime sample_epoch_datetime
             sample_parse_numeric (Ok sample_sheet)).1 =
  if bool_decide ("DATA_VENCIMENTO" ∈ canonical <$> columns sample_sheet)
  then foldl add_label (canonical <$> columns sample_sheet) derived_labels
  else canonical <$> columns sample_sheet.
Proof.
  apply (loaded_frame_columns sample_parse_datetime sample_epoch_datetime
           sample_parse_numeric sample_sheet).
  - vm_compute. reflexivity.
  - vm_compute. reflexivity.
Defined.

Lemma canonical_examples :
  canonical "DATA EMISSIO" = "DATA_EMISSAO" ∧
  canonical "N.CONTA TAREFA" = "CONTA_TAREFA" ∧
  canonical "VALOR" = "VALOR" ∧
  canonical "CATEGORIA" = "CATEGORIA" ∧
  canonical "OBSERVACAO" = "OBSERVACAO".
Proof. repeat split; vm_compute; reflexivity. Qed.

(** X18.  A sheet that has a date column under two headers, a header
    variant and its canonical name, does not load: after the renaming the
    label stands over two columns, [pd.to_datetime] raises, and
    [load_data] returns the empty frame and shows the error with the
    remediation hints. *)
Theorem load_data_date_header_twice
    (parse_datetime : list cell → string → option (date * Z))
    (epoch_datetime : list cell → Z → option (date * Z))
    (parse_numeric : string → option Z) (sheet : DataFrame) :
  date_headers_distinct sheet = false →
  ∃ msg,
    load_data parse_datetime epoch_datetime parse_numeric (Ok sheet) =
    (empty_frame,
     [st_error ("Erro ao carregar dados: " +:+ msg); st_info verifique]).
Proof.
  intros Hd. unfold load_data. rewrite load_data_try_clash by done.
  by eexists.
Qed.

Lemma load_data_date_header_twice_witness :
  date_headers_distinct sheet_with_two_due_headers = false ∧
  ∃ msg,
    load_data sample_parse_datetime sample_epoch_datetime sample_parse_numeric
      (Ok sheet_with_two_due_headers) =
    (empty_frame,
     [st_error ("Erro ao carregar dados: " +:+ msg); st_info verifique]).
Proof.
  split; [by vm_compute|].
  apply (load_data_date_header_twice sample_parse_datetime
           sample_epoch_datetime sample_parse_numeric
           sheet_with_two_due_headers).
  by vm_compute.
Defined.

(** * Further properties of the aggregates *)

Section AggregateProperties.

Context {F : Float64}.

(** X8.  Where the float sums are exact, grouping and sorting lose no
    amount: the dealer-category aggregate adds up to the amounts of the
    records that have a dealer category, and the monthly aggregate to the
    amounts of the records whose four month keys are all present. *)
Theorem sorted_aggregates_conserve_totals bound df conc mensal :
  exact_below bound →
  magnitude (numbers (column "VALOR" df)) ≤ bound →
  df_concessionaria df = Ok (Some conc) →
  df_mensal df = Ok (Some mensal) →
  column_sum "VALOR" conc =
    column_sum "VALOR" (loc (λ r, negb (isna (r !!! "CATEGORIA_SCANIA"))) df) ∧
  column_sum "VALOR" mensal =
    column_sum "VALOR"
      (loc (has_key ["MES_ANO"; "MES_NOME"; "ANO"; "MES"]) df).
Proof.
  unfold df_concessionaria, df_mensal. intros Hex Hmag Hc Hm.
  destruct (empty df); [done|]. split.
  - destruct (_ && _) in Hc; [|done].
    destruct (groupby_sum _ _ df) as [g|e] eqn:Hg in Hc; [|done].
    cbn in Hc. injection Hc as <-.
    rewrite (aggregate_total_exact bound _ _ _ _ Hex Hmag Hg)
      by apply sort_values_rows.
    f_equal. apply loc_ext. intros ir _. apply has_key_singleton.
  - destruct (_ && _) in Hm; [|done].
    destruct (groupby_sum _ _ df) as [g|e] eqn:Hg in Hm; [|done].
    cbn in Hm. injection Hm as <-.
    by rewrite (aggregate_total_exact bound _ _ _ _ Hex Hmag Hg)
      by apply sort_values_rows.
Qed.

(** X9.  The consolidated-task aggregate is the top of the ranking: its
    rows together with the rows it leaves out are the groups, no group left
    out has a larger amount than a group kept, and nothing is left out when
    there are at most fifteen groups. *)
Theorem df_tarefa_keeps_the_largest df agg :
  df_tarefa df = Ok (Some agg) →
  ∃ g rest,
    groupby_sum ["TAREFA_CONSOLIDADA"] "VALOR" df = Ok g ∧
    rows agg ++ rest ≡ₚ rows g ∧
    (∀ x y, x ∈ rows agg → y ∈ rest →
            num_of (y.2 !!! "VALOR") ≤ num_of (x.2 !!! "VALOR")) ∧
    ((length (rows g) ≤ 15)%nat → rest = []).
Proof.
  unfold df_tarefa. intros Hagg.
  destruct (_ && _); [|done].
  destruct (groupby_sum _ _ df) as [g|e] eqn:Hg; [|done].
  cbn in Hagg. injection Hagg as <-.
  exists g, (drop 15 (rows (sort_values ["VALOR"] false g))).
  unfold head; cbn [rows]. repeat split.
  - by rewrite take_drop, sort_values_rows.
  - intros x y Hx Hy.
    pose proof (sort_values_sorted ["VALOR"] false g) as Hs.
    rewrite <-(take_drop 15) in Hs.
    pose proof (StronglySorted_app_1_elem_of _ _ _ x y Hs Hx Hy) as Hxy.
    pose proof (groupby_sum_numbers _ _ _ _ Hg) as Hnum.
    rewrite Forall_forall in Hnum.
    apply (sorted_before_valor_desc x y); [| |done].
    + apply Hnum. rewrite <-sort_values_rows.
      by apply (subseteq_take 15).
    + apply Hnum. rewrite <-sort_values_rows.
      eapply elem_of_sublist; [done|apply sublist_drop].
  - intros Hlen. apply drop_ge.
    by rewrite (Permutation_length (sort_values_rows _ _ _)).
Qed.

(** X10.  The category aggregate has one row per category: its categories
    are in strictly ascending order (so none comes twice), they are the
    categories of the records, missing ones apart, and each row holds the
    group sum of the amounts of the records of its category, taken in the
    order of the frame. *)
Theorem df_categoria_one_row_per_category df agg :
  df_categoria df = Ok (Some agg) →
  StronglySorted (λ c c', cell_compare c c' = Lt) (column "CATEGORIA" agg) ∧
  (∀ c, c ∈ column "CATEGORIA" agg ↔
        isna c = false ∧ ∃ ir, ir ∈ rows df ∧ ir.2 !!! "CATEGORIA" = c) ∧
  Forall (λ ir, ir.2 !!! "VALOR" =
                Num (group_sum
                       (numbers
                          (column "VALOR"
                             (loc (λ r, bool_decide (r !!! "CATEGORIA" =
                                                     ir.2 !!! "CATEGORIA"))
                                df)))))
    (rows agg).
Proof.
  unfold df_categoria. intros Hagg.
  destruct (empty df); [done|]. destruct (_ && _); [|done].
  destruct (groupby_sum _ _ df) as [g|e] eqn:Hg; [|done].
  cbn in Hagg. injection Hagg as <-.
  by apply groupby_single_spec.
Qed.

(** X11.  In the two ranked aggregates, by dealer category and by
    consolidated task, no key comes twice and each row holds the group sum
    of the amounts of the records of its key, taken in the order of the
    frame. *)
Theorem ranked_aggregates_rows df conc tarefa :
  df_concessionaria df = Ok (Some conc) →
  df_tarefa df = Ok (Some tarefa) →
  (NoDup (column "CATEGORIA_SCANIA" conc) ∧
   Forall (λ ir, ir.2 !!! "VALOR" =
                 Num (group_sum
                        (numbers
                           (column "VALOR"
                              (loc (λ r, bool_decide
                                           (r !!! "CATEGORIA_SCANIA" =
                                            ir.2 !!! "CATEGORIA_SCANIA"))
                                 df)))))
     (rows conc)) ∧
  (NoDup (column "TAREFA_CONSOLIDADA" tarefa) ∧
   Forall (λ ir, ir.2 !!! "VALOR" =
                 Num (group_sum
                        (numbers
                           (column "VALOR"
                              (loc (λ r, bool_decide
                                           (r !!! "TAREFA_CONSOLIDADA" =
                                            ir.2 !!! "TAREFA_CONSOLIDADA"))
                                 df)))))
     (rows tarefa)).
Proof.
  unfold df_concessionaria, df_tarefa. intros Hc Ht. split.
  - destruct (empty df); [done|]. destruct (_ && _) in Hc; [|done].
    destruct (groupby_sum _ _ df) as [g|e] eqn:Hg in Hc; [|done].
    cbn in Hc. injection Hc as <-.
    destruct (groupby_single_spec "CATEGORIA_SCANIA" "VALOR" df g)
      as (Hs & _ & Hv); [done|done|].
    unfold column, cells in *. split.
    + rewrite sort_values_rows. by apply StronglySorted_lt_NoDup.
    + by rewrite sort_values_rows.
  - destruct (_ && _) in Ht; [|done].
    destruct (groupby_sum _ _ df) as [g|e] eqn:Hg in Ht; [|done].
    cbn in Ht. injection Ht as <-.
    destruct (groupby_single_spec "TAREFA_CONSOLIDADA" "VALOR" df g)
      as (Hs & _ & Hv); [done|done|].
    unfold head, column, cells in *; cbn [rows]. split.
    + apply (sublist_NoDup _ ((λ ir, ir.2 !!! "TAREFA_CONSOLIDADA")
                                <$> rows (sort_values ["VALOR"] false g))).
      * rewrite sort_values_rows. by apply StronglySorted_lt_NoDup.
      * apply fmap_sublist, sublist_take.
    + apply Forall_take. by rewrite sort_values_rows.
Qed.

End AggregateProperties.

Lemma sorted_aggregates_conserve_totals_witness :
  column_sum "VALOR" sample_concessionaria =
    column_sum "VALOR"
      (loc (λ r, negb (isna (r !!! "CATEGORIA_SCANIA"))) sample_filtered) ∧
  column_sum "VALOR" sample_mensal =
    column_sum "VALOR"
      (loc (has_key ["MES_ANO"; "MES_NOME"; "ANO"; "MES"]) sample_filtered).
Proof.
  apply (sorted_aggregates_conserve_totals 15000 sample_filtered).
  - intros l _. done.
  - vm_compute. discriminate.
  - vm_compute. reflexivity.
  - vm_compute. reflexivity.
Defined.

Lemma sample_mensal_rows :
  (λ ir, (ir.2 !!! "MES_NOME", ir.2 !!! "VALOR")) <$> rows sample_mensal =
  [(Str "Jan/2023", Num 10000); (Str "Jan/2024", Num 5000)].
Proof. vm_compute. reflexivity. Qed.

Lemma df_tarefa_keeps_the_largest_witness :
  ∃ g rest,
    groupby_sum ["TAREFA_CONSOLIDADA"] "VALOR" sixteen_tasks = Ok g ∧
    rows sixteen_tasks_top ++ rest ≡ₚ rows g ∧
    (∀ x y, x ∈ rows sixteen_tasks_top → y ∈ rest →
            num_of (y.2 !!! "VALOR") ≤ num_of (x.2 !!! "VALOR")) ∧
    ((length (rows g) ≤ 15)%nat → rest = []).
Proof.
  apply (df_tarefa_keeps_the_largest sixteen_tasks). vm_compute. reflexivity.
Defined.

Lemma df_categoria_one_row_per_category_witness :
  column "CATEGORIA" sample_categoria = [Str "CUSTO MANUTENCOES"] ∧
  Forall (λ ir, ir.2 !!! "VALOR" =
                Num (group_sum
                       (numbers
                          (column "VALOR"
                             (loc (λ r, bool_decide (r !!! "CATEGORIA" =
                                                     ir.2 !!! "CATEGORIA"))
                                sample_filtered)))))
    (rows sample_categoria).
Proof.
  split; [by vm_compute|].
  apply (df_categoria_one_row_per_category sample_filtered).
  vm_compute. reflexivity.
Defined.

Lemma ranked_aggregates_rows_witness :
  (NoDup (column "CATEGORIA_SCANIA" sample_concessionaria) ∧
   Forall (λ ir, ir.2 !!! "VALOR" =
                 Num (group_sum
                        (numbers
                           (column "VALOR"
                              (loc (λ r, bool_decide
                                           (r !!! "CATEGORIA_SCANIA" =
                                            ir.2 !!! "CATEGORIA_SCANIA"))
                                 sample_filtered)))))
     (rows sample_concessionaria)) ∧
  (NoDup (column "TAREFA_CONSOLIDADA" sample_tarefa) ∧
   Forall (λ ir, ir.2 !!! "VALOR" =
                 Num (group_sum
                        (numbers
                           (column "VALOR"
                              (loc (λ r, bool_decide
                                           (r !!! "TAREFA_CONSOLIDADA" =
                                            ir.2 !!! "TAREFA_CONSOLIDADA"))
                                 sample_filtered)))))
     (rows sample_tarefa)).
Proof.
  apply (ranked_aggregates_rows sample_filtered); vm_compute; reflexivity.
Defined.

(** * The tables *)

Section Tables.

Context {F : Float64}.

Lemma groupby_sum_count_inv label sum_col count_col df g :
  groupby_sum_count label sum_col count_col df = Ok g →
  g = Frame [label; sum_col; count_col]
        (imap (λ i g, (i, <[count_col := Num (count (cells count_col g.2))]>
                            (<[sum_col :=
                                 Num (group_sum (numbers (cells sum_col g.2)))]>
                               (list_to_map (zip [label] g.1)))))
              (groups_of [label] (rows df))).
Proof. unfold groupby_sum_count. case_match; [|done]. congruence. Qed.

Lemma groupby_sum_count_missing label sum_col count_col df :
  col_in label df = true → col_in sum_col df = true →
  col_in count_col df = false →
  groupby_sum_count label sum_col count_col df = Raise (KeyError [count_col]).
Proof.
  unfold col_in. intros Hl%bool_decide_eq_true Hs%bool_decide_eq_true
    Hc%bool_decide_eq_false.
  unfold groupby_sum_count.
  rewrite filter_cons_False by (by intros []).
  rewrite filter_cons_False by (by intros []).
  by rewrite filter_cons_True.
Qed.

(** The rows of the supplier table: the groups, renamed, sorted and
    formatted. *)
Lemma df_fornecedores_rows df t :
  df_fornecedores df = Ok (Some t) →
  columns t = ["NOME_FORNECEDOR"; "VALOR"; "QTD_DOCUMENTOS"; "VALOR_FORMATADO"] ∧
  ∃ g sorted,
    groupby_sum_count "NOME_FORNECEDOR" "VALOR" "DOCUMENTO" df = Ok g ∧
    sorted ≡ₚ rows (rename "DOCUMENTO" "QTD_DOCUMENTOS" g) ∧
    StronglySorted (sorted_before ["VALOR"] false) sorted ∧
    rows t =
      prod_map id (λ r, <["VALOR_FORMATADO" := format_cell (r !!! "VALOR")]> r)
        <$> sorted.
Proof.
  unfold df_fornecedores. destruct (empty df); [done|].
  destruct (_ && _); [|done].
  destruct (groupby_sum_count _ _ _ df) as [g|e] eqn:Hg; [|done].
  cbv zeta; unfold mbind, result_bind. intros [= <-]. split.
  - apply groupby_sum_count_inv in Hg as ->. by vm_compute.
  - exists g, (rows (sort_values ["VALOR"] false
                       (rename "DOCUMENTO" "QTD_DOCUMENTOS" g))).
    split; [done|]. split; [apply sort_values_rows|].
    split; [apply sort_values_sorted|]. done.
Qed.

(** The amount and the count of each supplier, before the sort. *)
Lemma supplier_entries df g :
  groupby_sum_count "NOME_FORNECEDOR" "VALOR" "DOCUMENTO" df = Ok g →
  (λ ir, (ir.2 !!! "VALOR", ir.2 !!! "QTD_DOCUMENTOS"))
    <$> rows (rename "DOCUMENTO" "QTD_DOCUMENTOS" g) =
  (λ grp, (Num (group_sum (numbers (cells "VALOR" grp.2))),
           Num (count (cells "DOCUMENTO" grp.2))))
    <$> groups_of ["NOME_FORNECEDOR"] (rows df).
Proof.
  intros ->%groupby_sum_count_inv. cbn [rename rows].
  rewrite <-list_fmap_compose, fmap_imap, <-imap_const.
  apply imap_ext. intros i grp _.
  unfold compose, prod_map, const; cbn [fst snd id]. f_equal.
  - rewrite lookup_total_insert_ne by done.
    rewrite lookup_total_delete_ne by done.
    rewrite lookup_total_insert_ne by done.
    by rewrite lookup_total_insert_eq.
  - by rewrite !lookup_total_insert_eq.
Qed.

Lemma count_nonneg cs : 0 ≤ count cs.
Proof. unfold count. lia. Qed.

Lemma supplier_groups_numbers df g :
  groupby_sum_count "NOME_FORNECEDOR" "VALOR" "DOCUMENTO" df = Ok g →
  Forall (λ ir, ∃ z n, ir.2 !!! "VALOR" = Num z ∧
                       ir.2 !!! "QTD_DOCUMENTOS" = Num n ∧ 0 ≤ n)
    (rows (rename "DOCUMENTO" "QTD_DOCUMENTOS" g)).
Proof.
  intros Hg. apply Forall_forall. intros ir Hir.
  assert ((ir.2 !!! "VALOR", ir.2 !!! "QTD_DOCUMENTOS") ∈
          (λ ir : nat * gmap string cell,
             (ir.2 !!! "VALOR", ir.2 !!! "QTD_DOCUMENTOS"))
            <$> rows (rename "DOCUMENTO" "QTD_DOCUMENTOS" g)) as Hp.
  { by apply (list_elem_of_fmap_2
                (λ ir : nat * gmap string cell,
                   (ir.2 !!! "VALOR", ir.2 !!! "QTD_DOCUMENTOS"))). }
  rewrite (supplier_entries df g Hg) in Hp.
  apply list_elem_of_fmap in Hp as (grp & Hp & _). injection Hp as -> ->.
  eexists _, _. split; [done|]. split; [done|]. apply count_nonneg.
Qed.

(** A column of the table, but the formatted one, holds what the groups
    hold, in another order. *)
Lemma df_fornecedores_column c (t g : DataFrame) sorted :
  c ≠ "VALOR_FORMATADO" →
  sorted ≡ₚ rows (rename "DOCUMENTO" "QTD_DOCUMENTOS" g) →
  rows t =
    prod_map id (λ r, <["VALOR_FORMATADO" := format_cell (r !!! "VALOR")]> r)
      <$> sorted →
  column c t ≡ₚ column c (rename "DOCUMENTO" "QTD_DOCUMENTOS" g).
Proof.
  intros Hc Hp Hr. unfold column, cells. rewrite Hr, <-Hp, <-list_fmap_compose.
  assert ((λ ir : nat * gmap string cell, ir.2 !!! c)
            ∘ prod_map id
                (λ r, <["VALOR_FORMATADO" := format_cell (r !!! "VALOR")]> r)
            <$> sorted =
          (λ ir : nat * gmap string cell, ir.2 !!! c) <$> sorted) as ->; [|done].
  apply list_fmap_ext. intros i ir _.
  unfold compose, prod_map; cbn [fst snd id].
  by rewrite lookup_total_insert_ne.
Qed.

(** X12.  The supplier table is guarded on the supplier and amount columns
    only: on a non-empty frame that has both but no document column, the
    aggregation raises [KeyError] for [DOCUMENTO]. *)
Theorem df_fornecedores_needs_document_column df :
  empty df = false →
  col_in "NOME_FORNECEDOR" df = true → col_in "VALOR" df = true →
  col_in "DOCUMENTO" df = false →
  df_fornecedores df = Raise (KeyError ["DOCUMENTO"]).
Proof.
  intros He Hn Hv Hd. unfold df_fornecedores. rewrite He, Hn, Hv.
  cbn [andb]. by rewrite groupby_sum_count_missing.
Qed.

(** X13.  The supplier table has the columns supplier, amount, document
    count and formatted amount; its rows are in descending order of amount,
    each formatted amount is the [R$] text that the [.2f] format gives the
    row's amount, and each document count is a number that is not
    negative. *)
Theorem df_fornecedores_ranked df t :
  df_fornecedores df = Ok (Some t) →
  columns t = ["NOME_FORNECEDOR"; "VALOR"; "QTD_DOCUMENTOS"; "VALOR_FORMATADO"] ∧
  StronglySorted (λ a b, b ≤ a) (valores t) ∧
  Forall (λ ir, ∃ z n, ir.2 !!! "VALOR" = Num z ∧
                       ir.2 !!! "VALOR_FORMATADO" = Str (format_valor z) ∧
                       ir.2 !!! "QTD_DOCUMENTOS" = Num n ∧ 0 ≤ n) (rows t).
Proof.
  intros (Hc & g & sorted & Hg & Hp & Hs & Hr)%df_fornecedores_rows.
  split; [done|].
  pose proof (supplier_groups_numbers df g Hg) as Hn.
  rewrite <-Hp in Hn. unfold valores. rewrite Hr. split.
  - rewrite <-list_fmap_compose.
    apply (StronglySorted_fmap_Forall
             (λ ir, ∃ z n, ir.2 !!! "VALOR" = Num z ∧
                           ir.2 !!! "QTD_DOCUMENTOS" = Num n ∧ 0 ≤ n)
             _ (sorted_before ["VALOR"] false)); [|done|done].
    intros x y (a & _ & Ha & _) (b & _ & Hb & _) Hxy.
    unfold compose, prod_map; cbn [fst snd id].
    rewrite !lookup_total_insert_ne by done. rewrite Ha, Hb. cbn [num_of].
    by eapply sorted_before_valor_desc.
  - apply Forall_fmap. eapply Forall_impl; [exact Hn|].
    intros ir (z & n & Hz & Hq & Hpos). exists z, n.
    unfold compose, prod_map; cbn [fst snd id].
    rewrite lookup_total_insert_eq, !lookup_total_insert_ne by done.
    by rewrite Hz.
Qed.

(** X14.  The supplier table counts every document once: its document
    counts add up to the number of the records that name a supplier and
    have a document number.  Where the float sums are exact, its amounts
    add up to the amounts of the records that name a supplier. *)
Theorem df_fornecedores_conserves df t :
  df_fornecedores df = Ok (Some t) →
  total (numbers (column "QTD_DOCUMENTOS" t)) =
    Z.of_nat (length (rows (loc (λ r, negb (isna (r !!! "NOME_FORNECEDOR")) &&
                                      negb (isna (r !!! "DOCUMENTO"))) df))) ∧
  ∀ bound,
    exact_below bound → magnitude (numbers (column "VALOR" df)) ≤ bound →
    column_sum "VALOR" t =
      column_sum "VALOR" (loc (λ r, negb (isna (r !!! "NOME_FORNECEDOR"))) df).
Proof.
  intros (Hc & g & sorted & Hg & Hp & Hs & Hr)%df_fornecedores_rows.
  pose proof (supplier_entries df g Hg) as He. split.
  - rewrite (total_Permutation _ _
               (numbers_Permutation _ _
                  (df_fornecedores_column "QTD_DOCUMENTOS" t g sorted
                     ltac:(done) Hp Hr))).
    apply (f_equal (fmap snd)) in He. rewrite <-!list_fmap_compose in He.
    unfold column, cells. unfold compose in He; cbn [snd] in He. rewrite He.
    rewrite numbers_fmap_Num, total_fmap.
    rewrite (groups_of_rows_measure (λ rs, count (cells "DOCUMENTO" rs)))
      by (intros l l'; by rewrite cells_app, count_app).
    unfold count, cells, loc. cbn [rows]. f_equal.
    rewrite length_filter_fmap, list_filter_filter. f_equal.
    apply list_filter_iff. intros ir. rewrite has_key_singleton.
    destruct (isna (ir.2 !!! "NOME_FORNECEDOR")),
      (isna (ir.2 !!! "DOCUMENTO")); cbn; tauto.
  - intros bound Hex Hm.
    rewrite (sums_total_exact bound ["NOME_FORNECEDOR"] df t Hex Hm).
    + f_equal. apply loc_ext. intros ir _. apply has_key_singleton.
    + rewrite (numbers_Permutation _ _
                 (df_fornecedores_column "VALOR" t g sorted
                    ltac:(done) Hp Hr)).
      apply (f_equal (fmap fst)) in He. rewrite <-!list_fmap_compose in He.
      unfold column, cells. unfold compose in He; cbn [fst] in He. rewrite He.
      by rewrite numbers_fmap_Num.
Qed.

Lemma keeps_setitem_guard k col f :
  k ≠ col → keeps k (λ df, if col_in col df then setitem col f df else df).
Proof. intros. by apply (keeps_guard k (col_in col)), keeps_setitem. Qed.

(** The frame [df_display] shows, before it is sorted. *)
Lemma df_display_rows df t :
  col_in "DATA_VENCIMENTO" df = true → df_display df = Some t →
  ∃ shown,
    related (λ r r', r' !!! "DATA_VENCIMENTO" =
                       strftime_d_m_Y (r !!! "DATA_VENCIMENTO") ∧
                     (col_in "VALOR" df = true →
                      r' !!! "VALOR" = format_cell (r !!! "VALOR")))
      (rows df) shown ∧
    t = sort_values ["DATA_VENCIMENTO"] false (Frame (columns t) shown).
Proof.
  intros Hd. unfold df_display. destruct (empty df); [done|].
  cbv zeta. rewrite Hd. unfold date_columns. cbn [fold_left].
  set (s1 := if col_in "DATA_EMISSAO" df then _ else df).
  destruct (keeps_setitem_guard "DATA_VENCIMENTO" "DATA_EMISSAO"
              (λ r, strftime_d_m_Y (r !!! "DATA_EMISSAO")) ltac:(done) df)
    as [Hc1 Hr1].
  destruct (keeps_setitem_guard "VALOR" "DATA_EMISSAO"
              (λ r, strftime_d_m_Y (r !!! "DATA_EMISSAO")) ltac:(done) df)
    as [Hv1 Hw1].
  cbv beta in Hc1, Hr1, Hv1, Hw1. fold s1 in Hc1, Hr1, Hv1, Hw1.
  rewrite Hc1, Hd.
  set (s2 := setitem "DATA_VENCIMENTO" _ s1).
  assert (related (λ r r', r' !!! "DATA_VENCIMENTO" =
                             strftime_d_m_Y (r !!! "DATA_VENCIMENTO") ∧
                           r' !!! "VALOR" = r !!! "VALOR")
            (rows df) (rows s2)) as Hr2.
  { eapply (related_trans _ _ _ _ (rows s1)); [|
      exact (related_and _ _ _ _ Hr1 Hw1)|
      exact (related_fmap
               (λ r r', r' !!! "DATA_VENCIMENTO" =
                          strftime_d_m_Y (r !!! "DATA_VENCIMENTO") ∧
                        r' !!! "VALOR" = r !!! "VALOR") _ (rows s1)
               (λ r, conj (lookup_total_insert_eq r "DATA_VENCIMENTO" _)
                          (lookup_total_insert_ne r "DATA_VENCIMENTO" "VALOR" _
                             ltac:(done))))].
    cbv beta. intros a b c [Hab Hab'] [Hbc Hbc']. split; congruence. }
  assert (col_in "VALOR" s2 = col_in "VALOR" df) as Hv2.
  { unfold s2. rewrite col_in_setitem, Hv1.
    rewrite (bool_decide_eq_false_2 ("VALOR" = "DATA_VENCIMENTO")) by done.
    apply orb_false_r. }
  rewrite Hv2. intros [= <-].
  destruct (col_in "VALOR" df) eqn:Hv.
  - eexists. split; [|reflexivity]. cbn [sort_values columns rows setitem].
    eapply (related_trans _ _ _ _ (rows s2)); [|exact Hr2|
      exact (related_fmap
               (λ r r', r' !!! "DATA_VENCIMENTO" = r !!! "DATA_VENCIMENTO" ∧
                        r' !!! "VALOR" = format_cell (r !!! "VALOR")) _ (rows s2)
               (λ r, conj (lookup_total_insert_ne r "VALOR" "DATA_VENCIMENTO" _
                             ltac:(done))
                          (lookup_total_insert_eq r "VALOR" _)))].
    cbv beta. intros a b c [Hab Hab'] [Hbc Hbc']. split; [congruence|].
    intros _. congruence.
  - eexists. split; [|reflexivity]. cbn [sort_values columns rows].
    eapply (related_trans _ _ _ _ (rows s2)); [|exact Hr2|
      exact (related_refl (λ r r', r' = r) (rows s2) (λ r, eq_refl))].
    cbv beta. intros a b c [Hab Hab'] ->. done.
Qed.

(** X15.  For a frame with the dtypes of a loaded frame and the due-date
    column, the full table shows every record once, with its due date as
    dd/mm/yyyy text and its amount as [R$] text, and its rows are in
    descending order of that due-date text, rows without a due date last.
    This is the order of the texts, not of the dates: in the sample table
    below a record due on 02/01/2024 comes after one due on 31/12/2023. *)
Theorem df_display_sorted_on_date_text df t :
  loaded_dtypes df = true →
  col_in "DATA_VENCIMENTO" df = true → df_display df = Some t →
  StronglySorted (sorted_before ["DATA_VENCIMENTO"] false) (rows t) ∧
  ∃ shown,
    rows t ≡ₚ shown ∧
    related (λ r r', r' !!! "DATA_VENCIMENTO" =
                       strftime_d_m_Y (r !!! "DATA_VENCIMENTO") ∧
                     (col_in "VALOR" df = true →
                      r' !!! "VALOR" = format_cell (r !!! "VALOR")))
      (rows df) shown.
Proof.
  intros _ Hd (shown & Hrel & Ht)%df_display_rows; [|done].
  rewrite Ht. split; [apply sort_values_sorted|].
  exists shown. split; [apply sort_values_rows|done].
Qed.

End Tables.

Lemma df_fornecedores_needs_document_column_witness :
  df_fornecedores suppliers_without_document = Raise (KeyError ["DOCUMENTO"]).
Proof.
  apply df_fornecedores_needs_document_column; by vm_compute.
Defined.

Lemma df_fornecedores_ranked_witness :
  valores suppliers_table = [250000; 123461] ∧
  StronglySorted (λ a b, b ≤ a) (valores suppliers_table).
Proof.
  split; [by vm_compute|].
  apply (df_fornecedores_ranked suppliers suppliers_table). by vm_compute.
Defined.

Lemma df_fornecedores_conserves_witness :
  total (numbers (column "QTD_DOCUMENTOS" suppliers_table)) = 2 ∧
  column_sum "VALOR" suppliers_table = 373461.
Proof.
  destruct (df_fornecedores_conserves suppliers suppliers_table) as [Hq Hv];
    [by vm_compute|].
  split; [rewrite Hq; by vm_compute|].
  rewrite (Hv 374460); [by vm_compute| |vm_compute; discriminate].
  intros l _. done.
Defined.

Lemma df_display_sorted_on_date_text_witness :
  (λ ir, (ir.1, ir.2 !!! "DATA_VENCIMENTO")) <$> rows suppliers_display =
    [ (1%nat, Str "31/12/2023"); (2%nat, Str "15/11/2023");
      (0%nat, Str "02/01/2024"); (3%nat, Str "01/12/2023") ] ∧
  StronglySorted (sorted_before ["DATA_VENCIMENTO"] false)
    (rows suppliers_display).
Proof.
  split; [by vm_compute|].
  apply (df_display_sorted_on_date_text suppliers suppliers_display);
    by vm_compute.
Defined.
(** * The option lists *)

#[global] Instance py_le_total reverse : Total (py_le reverse).
Proof.
  intros x y. unfold py_le.
  rewrite (cmp_antisym _ comparison_order_cell x y).
  destruct reverse, (cell_compare x y); simpl; auto.
Qed.

#[global] Instance py_le_trans reverse : Transitive (py_le reverse).
Proof.
  assert (∀ cmp : cell → cell → comparison, comparison_order cmp →
          Transitive (λ x y, cmp x y ≠ Gt)) as Htrans.
  { intros cmp H x y z.
    destruct (cmp x y) eqn:Hxy; [| |done].
    - rewrite (cmp_eq_l _ H _ _ _ Hxy). auto.
    - destruct (cmp y z) eqn:Hyz; [| |done].
      + rewrite <-(cmp_eq_r _ _ _ _ H Hyz), Hxy. auto.
      + rewrite (cmp_trans _ H _ _ _ Lt Hxy Hyz). auto. }
  destruct reverse.
  - exact (Htrans _ (comparison_order_flip _ comparison_order_cell)).
  - exact (Htrans _ comparison_order_cell).
Qed.

(** Without repetitions and missing values, a list in order is in strict
    order. *)
Lemma StronglySorted_strict (l : list cell) :
  NoDup l → Forall (λ c, isna c = false) l →
  StronglySorted (py_le false) l →
  StronglySorted (λ c c', cell_compare c c' = Lt) l.
Proof.
  intros Hnd Hna Hs. induction Hs as [|c l _ IH Hall]; constructor.
  - apply IH; [by apply NoDup_cons in Hnd as []|by apply Forall_cons in Hna as []].
  - apply NoDup_cons in Hnd as [Hc _]. apply Forall_cons in Hna as [Hcna Hna].
    rewrite Forall_forall in Hall, Hna. apply Forall_forall. intros c' Hc'.
    specialize (Hall c' Hc'). unfold py_le in Hall.
    destruct (cell_compare c c') eqn:Hcmp; [|done|done].
    apply cell_compare_eq in Hcmp; [|done|by apply Hna]. by subst.
Qed.

Lemma unique_NoDup col df : NoDup (unique col df).
Proof. unfold unique. rewrite reverse_Permutation. apply NoDup_remove_dups. Qed.

Lemma py_sorted_mixed reverse l a b :
  a ∈ l → b ∈ l → py_class a ≠ py_class b → py_sorted reverse l = TypeError.
Proof.
  intros Ha Hb Hab. destruct l as [|x [|y l]].
  - by apply elem_of_nil in Ha.
  - apply list_elem_of_singleton in Ha, Hb. congruence.
  - unfold py_sorted.
    assert (existsb (λ c, negb (py_class c =? py_class x)) (x :: y :: l) = true)
      as ->; [|done].
    apply existsb_exists.
    destruct (decide (py_class a = py_class x)) as [Hax|Hax].
    + exists b. split; [by apply list_elem_of_In|].
      apply negb_true_iff, Z.eqb_neq. congruence.
    + exists a. split; [by apply list_elem_of_In|].
      by apply negb_true_iff, Z.eqb_neq.
Qed.

Lemma py_sorted_text l :
  Forall (λ c, ∃ s, c = Str s) l →
  py_sorted false l = Sorted (merge_sort (py_le false) l).
Proof.
  intros Hall. destruct l as [|x [|y l]]; [done|done|].
  unfold py_sorted.
  assert (existsb (λ c, negb (py_class c =? py_class x)) (x :: y :: l) = false)
    as ->.
  { apply not_true_is_false. intros (c & Hc%list_elem_of_In & Hcl)%existsb_exists.
    rewrite Forall_forall in Hall.
    destruct (Hall c Hc) as [s ->], (Hall x ltac:(by left)) as [s' ->]. done. }
  assert (existsb isna (x :: y :: l) = false) as ->; [|done].
  apply not_true_is_false. intros (c & Hc%list_elem_of_In & Hcl)%existsb_exists.
  rewrite Forall_forall in Hall. by destruct (Hall c Hc) as [s ->].
Qed.

(** X16.  A select box whose options are sorted cannot be built for a
    column that holds a text and a missing value, or a text and a number:
    [sorted] raises [TypeError]. *)
Theorem sorted_options_type_error col reverse df i1 r1 i2 r2 s :
  col_in col df = true → empty df = false →
  (i1, r1) ∈ rows df → (i2, r2) ∈ rows df →
  py_class (r1 !!! col) = 0 → r2 !!! col = Str s →
  sorted_options col reverse df = Some TypeError.
Proof.
  intros Hc He H1 H2 Hf Hs. unfold sorted_options. rewrite Hc, He.
  cbn [andb negb]. f_equal.
  apply (py_sorted_mixed reverse _ (r1 !!! col) (r2 !!! col)).
  - apply elem_of_unique. by exists (i1, r1).
  - apply elem_of_unique. by exists (i2, r2).
  - rewrite Hf, Hs. done.
Qed.

Lemma sorted_options_type_error_witness :
  sorted_options "TIPO_DOC" false documents = Some TypeError.
Proof.
  apply (sorted_options_type_error "TIPO_DOC" false documents
           1 {[ "TIPO_DOC" := NaN; "VALOR" := Num 200 ]}
           0 {[ "TIPO_DOC" := Str "NF"; "VALOR" := Num 100 ]} "NF");
    [by vm_compute|by vm_compute| | |by vm_compute|by vm_compute].
  - by apply (list_elem_of_lookup_2 _ 1%nat).
  - by apply (list_elem_of_lookup_2 _ 0%nat).
Defined.

(** X17.  For a column of texts, none missing, the options of a sorted
    select box are the distinct texts of the column in strictly ascending
    order. *)
Theorem sorted_options_text col df :
  col_in col df = true → empty df = false →
  Forall (λ ir, ∃ s, ir.2 !!! col = Str s) (rows df) →
  ∃ l, sorted_options col false df = Some (Sorted l) ∧
       StronglySorted (λ c c', cell_compare c c' = Lt) l ∧
       ∀ c, c ∈ l ↔ ∃ ir, ir ∈ rows df ∧ c = ir.2 !!! col.
Proof.
  intros Hc He Hall. unfold sorted_options. rewrite Hc, He. cbn [andb negb].
  assert (Forall (λ c, ∃ s, c = Str s) (unique col df)) as Hu.
  { apply Forall_forall. intros c (ir & Hir & ->)%elem_of_unique.
    rewrite Forall_forall in Hall. by apply Hall. }
  rewrite (py_sorted_text _ Hu). eexists. split; [done|]. split.
  - apply StronglySorted_strict.
    + rewrite merge_sort_Permutation. apply unique_NoDup.
    + rewrite merge_sort_Permutation. eapply Forall_impl; [exact Hu|].
      by intros c [s ->].
    + apply StronglySorted_merge_sort; apply _.
  - intros c. rewrite merge_sort_Permutation. apply elem_of_unique.
Qed.

Lemma sorted_options_text_witness :
  sorted_options "NOME_FORNECEDOR" false
    (loc (λ r, negb (isna (r !!! "NOME_FORNECEDOR"))) suppliers) =
  Some (Sorted [Str "AUTO PECAS SUL"; Str "OFICINA NORTE"]).
Proof.
  destruct (sorted_options_text "NOME_FORNECEDOR"
              (loc (λ r, negb (isna (r !!! "NOME_FORNECEDOR"))) suppliers))
    as (l & Hl & _); [by vm_compute|by vm_compute| |by vm_compute].
  unfold loc, suppliers; cbn [rows]. rewrite !filter_cons, filter_nil.
  rewrite !decide_True by (by vm_compute).
  rewrite decide_False by (by vm_compute).
  apply Forall_cons_2; [by exists "AUTO PECAS SUL"|].
  apply Forall_cons_2; [by exists "OFICINA NORTE"|].
  apply Forall_cons_2; [by exists "AUTO PECAS SUL"|].
  apply Forall_nil_2.
Defined.

